(** * Session-scoped task orchestrator of [server.js]

    A shallow embedding of the task registry, the [MessageSender] class and
    the request handlers of [src/server.js], followed by the properties of
    the specification that were checked against it and by further
    properties of the code.

    Conventions of the embedding.
    - A JavaScript string is a [string]; every character stands for one code
      unit below 256. Code units from 256 on are outside the model.
    - The counters [currentIndex] and [totalSent] are natural numbers. A
      JavaScript Number holds every integer below 2^53 exactly, so the
      embedding agrees with the program on every run of fewer than 2^53
      sends.
    - [sessionTasks] is a plain object used as a map; it is modelled by
      [gmap]. Reads of a per-session task map go through [js_get], which
      also sees the properties every object inherits from
      [Object.prototype], because the task key is chosen by the client.
      Session ids come from [uuidv4] and never name such a property. The
      order of the keys of an object is not modelled.
    - Every [MessageSender] lives in a store ([heap]) and the registry holds
      its address, so that the registry, the request handlers and the task's
      own asynchronous code see one shared object.
    - Calls into the browser driver and the file system are decided by an
      oracle argument: [None] when the awaited promise resolves, [Some msg]
      when it rejects with [Error(msg)]. Dates are numbers given with the
      request.
    - The process is single-threaded: code runs until it returns or reaches
      an [await], and other handlers, and the other asynchronous calls, run
      while it is suspended. The field [phase] of a task says where its call
      [sender.start()] is suspended, and [stopCalls] lists the calls of
      [stop()] on it that are suspended inside [cleanup]. A move ([resume],
      [stop_call], [stop_resume]) goes from one suspension to the next;
      awaited calls between which the program reads and writes no field and
      no registry are one suspension. A run interleaves the moves of all
      tasks with the requests.
    - A stage ([task_step], and likewise [stop] with its [cleanup]) is what
      the moves of one call do when nothing else runs in between
      ([task_step_resumes], [stop_resumes]): [init] and the first event; the
      loading of the pages; one iteration of the send loop, with its wait.
      The stop-task handler does not await [stop()], so it is [stop_call].
    - Between the loading of the pages and the first test of the loop the
      program does not suspend; the model has a state there ([InLoop]), so
      the runs of the program are among the runs of the model.
    - Not modelled: the [SIGINT] handler, what [console] prints, and the
      upload middleware apart from its two callbacks (a request reaches the
      handler with its fields and its file, or not at all). *)

From Stdlib Require Import ZArith Lia Ascii String.
From stdpp Require Import gmap strings list fin_maps pretty.

Local Open Scope string_scope.

(** ** JavaScript strings *)

Module JsString.

(** White space and line terminators removed by [String.prototype.trim],
    among the code units below 256: TAB, LF, VT, FF, CR, SP, NBSP. *)
Definition is_whitespace (c : ascii) : bool :=
  existsb (Nat.eqb (nat_of_ascii c)) [9; 10; 11; 12; 13; 32; 160]%nat.

Definition is_empty (s : string) : bool :=
  match s with EmptyString => true | String _ _ => false end.

Fixpoint trimStart (s : string) : string :=
  match s with
  | EmptyString => EmptyString
  | String c r => if is_whitespace c then trimStart r else s
  end.

Fixpoint trimEnd (s : string) : string :=
  match s with
  | EmptyString => EmptyString
  | String c r =>
      let r' := trimEnd r in
      if is_whitespace c && is_empty r' then EmptyString else String c r'
  end.

(** [s.trim()] *)
Definition trim (s : string) : string := trimEnd (trimStart s).

(** [s.split(sep)] for a separator of one character. The result always has
    at least one segment: the empty string splits into one empty segment. *)
Fixpoint split (sep : ascii) (s : string) : list string :=
  match s with
  | EmptyString => [EmptyString]
  | String c r =>
      if Ascii.eqb c sep then EmptyString :: split sep r
      else match split sep r with
           | seg :: segs => String c seg :: segs
           | [] => [String c EmptyString]
           end
  end.

(** [s.includes(sub)] *)
Fixpoint includes (s sub : string) : bool :=
  String.prefix sub s ||
  match s with
  | EmptyString => false
  | String _ r => includes r sub
  end.

(** Does character [c] occur in [s]? *)
Fixpoint mem (c : ascii) (s : string) : bool :=
  match s with
  | EmptyString => false
  | String d r => Ascii.eqb d c || mem c r
  end.

(** Truthiness of a string: only the empty string is falsy. *)
Definition truthy (s : string) : bool := negb (is_empty s).

(** Truthiness of a value that is a string or [undefined]. *)
Definition truthy_opt (o : option string) : bool :=
  match o with
  | Some s => truthy s
  | None => false
  end.

(** The double quote character, for the template literals that contain it. *)
Definition dquote : string := String (ascii_of_nat 34) EmptyString.

End JsString.

(** ** [MessageSender.parseCookies] *)

Record Cookie := {
  cookie_name : string;
  cookie_value : string;
  cookie_domain : string;
  cookie_path : string;
  cookie_httpOnly : bool;
  cookie_secure : bool
}.

(** The object pushed for a pair. *)
Definition make_cookie (name value : string) : Cookie :=
  {| cookie_name := JsString.trim name;
     cookie_value := JsString.trim value;
     cookie_domain := ".facebook.com";
     cookie_path := "/";
     cookie_httpOnly := false;
     cookie_secure := true |}.

(** The body of the [for] loop: [const [name, value] = pair.trim().split('=')]
    binds the first two segments ([undefined] when there is no second one);
    the cookie is pushed when both are truthy. *)
Definition parsePair (pair : string) : list Cookie :=
  match JsString.split "=" (JsString.trim pair) with
  | name :: value :: _ =>
      if JsString.truthy name && JsString.truthy value
      then [make_cookie name value]
      else []
  | _ => []
  end.

Definition parseCookies (cookieString : string) : list Cookie :=
  let cookiePairs := JsString.split ";" cookieString in
  cookiePairs ≫= parsePair.

(** ** Numbers read from the request *)

Module JsNumber.

(** A Number that is an integer or [NaN] ([None]). *)
Abbreviation number := (option Z).

Local Open Scope Z_scope.

Definition digit_value (c : ascii) : option Z :=
  let n := Z.of_nat (nat_of_ascii c) in
  if (48 <=? n) && (n <=? 57) then Some (n - 48)
  else if (97 <=? n) && (n <=? 102) then Some (n - 87)
  else if (65 <=? n) && (n <=? 70) then Some (n - 55)
  else None.

(** The longest prefix of digits of the radix, read as a number. *)
Fixpoint parse_digits (radix : Z) (s : string) (acc : number) : number :=
  match s with
  | EmptyString => acc
  | String c r =>
      match digit_value c with
      | Some d =>
          if d <? radix
          then parse_digits radix r (Some (default 0 acc * radix + d))
          else acc
      | None => acc
      end
  end.

(** [parseInt(s)] without a radix: leading white space is skipped, a sign
    is read, a [0x] prefix selects radix 16, and the result is [NaN] when
    no digit follows. *)
Definition parseInt (s : string) : number :=
  let s0 := JsString.trimStart s in
  let '(sign, s1) :=
    match s0 with
    | String "-" r => (-1, r)
    | String "+" r => (1, r)
    | _ => (1, s0)
    end in
  let '(radix, s2) :=
    match s1 with
    | String "0" (String "x" r) => (16, r)
    | String "0" (String "X" r) => (16, r)
    | _ => (10, s1)
    end in
  Z.mul sign <$> parse_digits radix s2 None.

(** [n * 1000] *)
Definition times1000 (n : number) : number := (fun z => z * 1000) <$> n.

End JsNumber.

(** ** Plain objects used as maps *)

(** The properties every object literal inherits from [Object.prototype]. *)
Definition object_prototype_keys : list string :=
  [ "constructor"; "hasOwnProperty"; "isPrototypeOf"; "propertyIsEnumerable";
    "toLocaleString"; "toString"; "valueOf"; "__proto__";
    "__defineGetter__"; "__defineSetter__"; "__lookupGetter__";
    "__lookupSetter__" ].

Inductive JsProp (V : Type) :=
  | Own (v : V)      (* an own property of the object *)
  | Inherited        (* a function or object found on the prototype *)
  | Undefined.
Arguments Own {V} v.
Arguments Inherited {V}.
Arguments Undefined {V}.

(** [obj[key]] *)
Definition js_get {V} (obj : gmap string V) (key : string) : JsProp V :=
  match obj !! key with
  | Some v => Own v
  | None =>
      if bool_decide (key ∈ object_prototype_keys) then Inherited
      else Undefined
  end.

(** Objects and functions are truthy, [undefined] is not. *)
Definition js_truthy {V} (p : JsProp V) : bool :=
  match p with
  | Undefined => false
  | _ => true
  end.

(** ** The data model *)

(** Addresses of [MessageSender] objects and ids of sockets. *)
Abbreviation addr := nat.
Abbreviation socket_id := nat.

(** The [config] object built by the start-task handler. *)
Record Config := {
  cfg_cookie : string;
  cfg_threadId : string;
  cfg_hattersName : string;
  cfg_delay : JsNumber.number;
  cfg_filePath : string
}.

(** Where a call of [cleanup()] is suspended. *)
Inductive Closing :=
  | ClosingPage      (* at [await this.page.close()] *)
  | ClosingBrowser.  (* at [await this.browser.close()] *)

(** Where the asynchronous call [sender.start()] is suspended. This is the
    continuation of the [async] function, which the program keeps
    implicitly. Awaited calls that follow one another without any access
    to the fields or the registry in between make one suspension. *)
Inductive Phase :=
  | InInit       (* in [init()], at [await fs.readFile(...)] *)
  | InLaunch     (* in [init()], at [fs.remove] and [puppeteer.launch] *)
  | InNewPage    (* in [init()], at [browser.newPage] *)
  | InViewport   (* in [init()], at [setViewport] and [setUserAgent] *)
  | InNavigate   (* [init()] returned true, the pages are being loaded *)
  | InLoop       (* in [sendMessages], before the test of the [while]: at
                    the wait that precedes the test or, before the first
                    test, when the pages have just been loaded *)
  | InSend (originalMessage : string)
                 (* in the [try] block of the loop, at the calls into the
                    page; the test has been passed and the message read *)
  | InBreak      (* in the [catch] block of the loop, at [delay(5000)],
                    and the loop will be left *)
  | InCleanup (c : Closing)
                 (* in the [cleanup()] that [start()] or [sendMessages]
                    called *)
  | Returned.    (* [start()] has settled *)

(** The fields of a [MessageSender]. [browser] and [page] tell whether the
    field holds a handle ([true]) or [null]. [phase] and [stopCalls] are not
    fields of the class: [phase] records where the call of [start()] on the
    object is, and [stopCalls] the calls of [stop()] on the object that
    have not returned, each suspended in its [cleanup()]. *)
Record MessageSender := {
  taskId : string;
  config : Config;
  sessionId : string;
  browser : bool;
  page : bool;
  isRunning : bool;
  currentIndex : nat;
  totalSent : nat;
  messages : list string;
  startTime : Z;
  stopTime : option Z;
  phase : Phase;
  stopCalls : list Closing
}.

(** The [data] object sent by [emitStatus]. *)
Record StatusEvent := {
  ev_taskId : string;
  ev_status : string;
  ev_message : string;
  ev_totalSent : nat;
  ev_currentIndex : nat;
  ev_totalMessages : nat;
  ev_threadId : string;
  ev_delay : JsNumber.number;
  ev_sessionId : string;
  ev_startTime : Z;
  ev_stopTime : option Z
}.

(** What the program does to the outside, newest first in [trace]. *)
Inductive Effect :=
  | Emit (src : addr) (room : string) (recipients : list socket_id)
         (data : StatusEvent)
      (* [io.to(room).emit('taskUpdate', data)] called by object [src];
         [recipients] are the sockets in the room at that moment *)
  | SessionInfoSent (sock : socket_id) (sid : string)
      (* [socket.emit('sessionInfo', { sessionId })] *)
  | Wait (src : addr) (ms : JsNumber.number)
      (* [await this.delay(ms)] *)
  | Submit (src : addr) (text : string).
      (* the text was typed and Enter was pressed *)

(** The state of the process. *)
Record World := {
  sessionTasks : gmap string (gmap string addr);
  sessionBrowsers : gmap string (gmap string addr);
  heap : gmap addr MessageSender;
  sockets : gmap socket_id string;   (* the session of each socket's handshake *)
  rooms : gmap string (gset socket_id);
  timers : list string;             (* pending [setTimeout] callbacks of the sweep *)
  trace : list Effect
}.

Definition initial_world : World :=
  {| sessionTasks := ∅; sessionBrowsers := ∅; heap := ∅; sockets := ∅;
     rooms := ∅; timers := []; trace := [] |}.

Definition upd_sessionTasks (f : gmap string (gmap string addr) → gmap string (gmap string addr))
    (w : World) : World :=
  {| sessionTasks := f (sessionTasks w); sessionBrowsers := sessionBrowsers w;
     heap := heap w; sockets := sockets w; rooms := rooms w;
     timers := timers w; trace := trace w |}.

Definition upd_sessionBrowsers (f : gmap string (gmap string addr) → gmap string (gmap string addr))
    (w : World) : World :=
  {| sessionTasks := sessionTasks w; sessionBrowsers := f (sessionBrowsers w);
     heap := heap w; sockets := sockets w; rooms := rooms w;
     timers := timers w; trace := trace w |}.

Definition upd_heap (f : gmap addr MessageSender → gmap addr MessageSender)
    (w : World) : World :=
  {| sessionTasks := sessionTasks w; sessionBrowsers := sessionBrowsers w;
     heap := f (heap w); sockets := sockets w; rooms := rooms w;
     timers := timers w; trace := trace w |}.

Definition upd_sockets (f : gmap socket_id string → gmap socket_id string)
    (w : World) : World :=
  {| sessionTasks := sessionTasks w; sessionBrowsers := sessionBrowsers w;
     heap := heap w; sockets := f (sockets w); rooms := rooms w;
     timers := timers w; trace := trace w |}.

Definition upd_rooms (f : gmap string (gset socket_id) → gmap string (gset socket_id))
    (w : World) : World :=
  {| sessionTasks := sessionTasks w; sessionBrowsers := sessionBrowsers w;
     heap := heap w; sockets := sockets w; rooms := f (rooms w);
     timers := timers w; trace := trace w |}.

Definition upd_timers (f : list string → list string) (w : World) : World :=
  {| sessionTasks := sessionTasks w; sessionBrowsers := sessionBrowsers w;
     heap := heap w; sockets := sockets w; rooms := rooms w;
     timers := f (timers w); trace := trace w |}.

Definition upd_trace (f : list Effect → list Effect) (w : World) : World :=
  {| sessionTasks := sessionTasks w; sessionBrowsers := sessionBrowsers w;
     heap := heap w; sockets := sockets w; rooms := rooms w;
     timers := timers w; trace := f (trace w) |}.

(** Field assignments on a [MessageSender]. *)
Definition set_browser (v : bool) (t : MessageSender) : MessageSender :=
  {| taskId := taskId t; config := config t; sessionId := sessionId t;
     browser := v; page := page t; isRunning := isRunning t;
     currentIndex := currentIndex t; totalSent := totalSent t;
     messages := messages t; startTime := startTime t;
     stopTime := stopTime t; phase := phase t; stopCalls := stopCalls t |}.

Definition set_page (v : bool) (t : MessageSender) : MessageSender :=
  {| taskId := taskId t; config := config t; sessionId := sessionId t;
     browser := browser t; page := v; isRunning := isRunning t;
     currentIndex := currentIndex t; totalSent := totalSent t;
     messages := messages t; startTime := startTime t;
     stopTime := stopTime t; phase := phase t; stopCalls := stopCalls t |}.

Definition set_isRunning (v : bool) (t : MessageSender) : MessageSender :=
  {| taskId := taskId t; config := config t; sessionId := sessionId t;
     browser := browser t; page := page t; isRunning := v;
     currentIndex := currentIndex t; totalSent := totalSent t;
     messages := messages t; startTime := startTime t;
     stopTime := stopTime t; phase := phase t; stopCalls := stopCalls t |}.

Definition set_currentIndex (v : nat) (t : MessageSender) : MessageSender :=
  {| taskId := taskId t; config := config t; sessionId := sessionId t;
     browser := browser t; page := page t; isRunning := isRunning t;
     currentIndex := v; totalSent := totalSent t;
     messages := messages t; startTime := startTime t;
     stopTime := stopTime t; phase := phase t; stopCalls := stopCalls t |}.

Definition set_totalSent (v : nat) (t : MessageSender) : MessageSender :=
  {| taskId := taskId t; config := config t; sessionId := sessionId t;
     browser := browser t; page := page t; isRunning := isRunning t;
     currentIndex := currentIndex t; totalSent := v;
     messages := messages t; startTime := startTime t;
     stopTime := stopTime t; phase := phase t; stopCalls := stopCalls t |}.

Definition set_messages (v : list string) (t : MessageSender) : MessageSender :=
  {| taskId := taskId t; config := config t; sessionId := sessionId t;
     browser := browser t; page := page t; isRunning := isRunning t;
     currentIndex := currentIndex t; totalSent := totalSent t;
     messages := v; startTime := startTime t;
     stopTime := stopTime t; phase := phase t; stopCalls := stopCalls t |}.

Definition set_stopTime (v : option Z) (t : MessageSender) : MessageSender :=
  {| taskId := taskId t; config := config t; sessionId := sessionId t;
     browser := browser t; page := page t; isRunning := isRunning t;
     currentIndex := currentIndex t; totalSent := totalSent t;
     messages := messages t; startTime := startTime t;
     stopTime := v; phase := phase t; stopCalls := stopCalls t |}.

Definition set_phase (v : Phase) (t : MessageSender) : MessageSender :=
  {| taskId := taskId t; config := config t; sessionId := sessionId t;
     browser := browser t; page := page t; isRunning := isRunning t;
     currentIndex := currentIndex t; totalSent := totalSent t;
     messages := messages t; startTime := startTime t;
     stopTime := stopTime t; phase := v; stopCalls := stopCalls t |}.

Definition set_stopCalls (v : list Closing) (t : MessageSender) : MessageSender :=
  {| taskId := taskId t; config := config t; sessionId := sessionId t;
     browser := browser t; page := page t; isRunning := isRunning t;
     currentIndex := currentIndex t; totalSent := totalSent t;
     messages := messages t; startTime := startTime t;
     stopTime := stopTime t; phase := phase t; stopCalls := v |}.

(** ** Computations that may throw *)

Inductive Completion (A : Type) :=
  | Normal (a : A)
  | Throw (message : string).   (* [throw new Error(message)] or a rejection *)
Arguments Normal {A} a.
Arguments Throw {A} message.

Definition M (A : Type) : Type := World → Completion A * World.

Definition ret {A} (a : A) : M A := fun w => (Normal a, w).

Definition bind {A B} (c : M A) (k : A → M B) : M B :=
  fun w =>
    match c w with
    | (Normal a, w') => k a w'
    | (Throw msg, w') => (Throw msg, w')
    end.

Definition throw {A} (msg : string) : M A := fun w => (Throw msg, w).

(** [try { c } catch (error) { handler(error.message) }] *)
Definition try_catch {A} (c : M A) (handler : string → M A) : M A :=
  fun w =>
    match c w with
    | (Normal a, w') => (Normal a, w')
    | (Throw msg, w') => handler msg w'
    end.

Definition modify (f : World → World) : M unit := fun w => (Normal tt, f w).

Declare Scope m_scope.
Delimit Scope m_scope with M.
Notation "x <- c1 ; c2" := (bind c1 (fun x => c2))
  (at level 20, c1 at level 100, c2 at level 200, only parsing) : m_scope.
Notation "c1 ;; c2" := (bind c1 (fun _ => c2))
  (at level 100, c2 at level 200, only parsing, right associativity) : m_scope.
Local Open Scope m_scope.

(** The result of an awaited call into the driver or the file system:
    [None] when it resolves, [Some msg] when it rejects. *)
Abbreviation driver_result := (option string).

Definition await (r : driver_result) : M unit :=
  match r with
  | None => ret tt
  | Some msg => throw msg
  end.

(** Reading and writing the fields of the object at [a]. An address that
    was never allocated cannot occur in the program; the embedding makes
    the access throw. *)
Definition getThis (a : addr) : M MessageSender :=
  fun w =>
    match heap w !! a with
    | Some t => (Normal t, w)
    | None => (Throw "TypeError: no such object", w)
    end.

Definition setThis (a : addr) (f : MessageSender → MessageSender) : M unit :=
  fun w =>
    match heap w !! a with
    | Some t => (Normal tt, upd_heap (insert a (f t)) w)
    | None => (Throw "TypeError: no such object", w)
    end.

Definition log (e : Effect) : M unit := modify (upd_trace (cons e)).

(** ** The outcomes of the calls the program awaits *)

(** The result of [page.$(selector)]: an element handle, [null], or a
    rejection. *)
Inductive QueryResult :=
  | Found
  | NotFound
  | QueryRejected (message : string).

Record Oracle := {
  o_readFile : string + string;   (* [fs.readFile]: content, or the error *)
  o_remove : driver_result;       (* [fs.remove] *)
  o_launch : driver_result;       (* [puppeteer.launch] *)
  o_newPage : driver_result;      (* [browser.newPage] *)
  o_setViewport : driver_result;
  o_setUserAgent : driver_result;
  o_gotoHome : driver_result;     (* [page.goto('https://www.facebook.com')] *)
  o_setCookie : Cookie → driver_result;
  o_gotoThread : driver_result;   (* [page.goto(conversationUrl)] *)
  o_waitForSelector : driver_result;
  o_queryRole : QueryResult;      (* [page.$('[role="textbox"]')] *)
  o_queryEditable : QueryResult;  (* [page.$('[contenteditable="true"]')] *)
  o_click : driver_result;        (* [textbox.click] *)
  o_controlDown : driver_result;  (* [keyboard.down('Control')] *)
  o_pressKeyA : driver_result;    (* [keyboard.press('KeyA')] *)
  o_controlUp : driver_result;    (* [keyboard.up('Control')] *)
  o_type : driver_result;         (* [keyboard.type(finalMessage)] *)
  o_pressEnter : driver_result;   (* [keyboard.press('Enter')] *)
  o_closePage : driver_result;    (* [page.close] *)
  o_closeBrowser : driver_result  (* [browser.close] *)
}.

(** How the driver calls of one iteration of [sendMessages] end. *)
Inductive SendOutcome :=
  | Sent              (* every awaited call resolved, Enter was pressed *)
  | TextboxMissing    (* both [page.$] calls returned [null] *)
  | Rejected (message : string).
                      (* an awaited driver call rejected with this message *)

(** The first rejection among awaited calls, if any. *)
Fixpoint first_rejection (results : list driver_result) : driver_result :=
  match results with
  | [] => None
  | Some msg :: _ => Some msg
  | None :: rest => first_rejection rest
  end.

(** What the calls on the keyboard lead to once the input field is found. *)
Definition keys_outcome (o : Oracle) : SendOutcome :=
  match first_rejection [ o_click o; o_controlDown o; o_pressKeyA o;
                          o_controlUp o; o_type o; o_pressEnter o ] with
  | Some msg => Rejected msg
  | None => Sent
  end.

(** The outcome the oracle gives to an iteration. *)
Definition attempt (o : Oracle) : SendOutcome :=
  match o_waitForSelector o with
  | Some msg => Rejected msg
  | None =>
      match o_queryRole o with
      | QueryRejected msg => Rejected msg
      | Found => keys_outcome o
      | NotFound =>
          match o_queryEditable o with
          | QueryRejected msg => Rejected msg
          | Found => keys_outcome o
          | NotFound => TextboxMissing
          end
      end
  end.

(** ** [initSessionTasks] *)

(** [if (!obj[sid]) { obj[sid] = {}; }] *)
Definition init_entry (sid : string) (obj : gmap string (gmap string addr))
    : gmap string (gmap string addr) :=
  match obj !! sid with
  | Some _ => obj
  | None => <[sid := ∅]> obj
  end.

Definition initSessionTasks (sid : string) (w : World) : World :=
  upd_sessionBrowsers (init_entry sid) (upd_sessionTasks (init_entry sid) w).

(** ** The class [MessageSender] *)

(** [new MessageSender(taskId, config, sessionId)]; [now] is [new Date()]. *)
Definition new_MessageSender (tid : string) (cfg : Config) (sid : string)
    (now : Z) : MessageSender :=
  {| taskId := tid; config := cfg; sessionId := sid;
     browser := false; page := false; isRunning := false;
     currentIndex := 0; totalSent := 0; messages := [];
     startTime := now; stopTime := None; phase := InInit; stopCalls := [] |}.

Definition status_data (t : MessageSender) (status message : string)
    : StatusEvent :=
  {| ev_taskId := taskId t;
     ev_status := status;
     ev_message := message;
     ev_totalSent := totalSent t;
     ev_currentIndex := currentIndex t;
     ev_totalMessages := length (messages t);
     ev_threadId := cfg_threadId (config t);
     ev_delay := cfg_delay (config t);
     ev_sessionId := sessionId t;
     ev_startTime := startTime t;
     ev_stopTime := stopTime t |}.

(** The sockets that are in a room. *)
Definition room_members (room : string) (w : World) : list socket_id :=
  elements (default ∅ (rooms w !! room)).

(** [io.to(room).emit('taskUpdate', data)] *)
Definition io_to_emit (src : addr) (room : string) (data : StatusEvent)
    : M unit :=
  fun w => (Normal tt, upd_trace (cons (Emit src room (room_members room w) data)) w).

Definition emitStatus (a : addr) (status message : string) : M unit :=
  this <- getThis a ;
  let data := status_data this status message in
  io_to_emit a (sessionId this) data.

(** [delay(ms)]: the promise resolves after the timer; it never rejects. *)
Definition delay (a : addr) (ms : JsNumber.number) : M unit :=
  log (Wait a ms).

(** The message list read from the file: split at line feeds, trim every
    line, keep the lines that are not empty. *)
Definition normalize (fileContent : string) : list string :=
  List.filter (fun msg => (0 <? String.length msg)%nat)
    (map JsString.trim (JsString.split (ascii_of_nat 10) fileContent)).

(** The [try] block of [init], in the four parts that its awaits make:
    up to [fs.remove]; up to [browser.newPage]; up to [page.setViewport];
    the rest. *)
Definition init_read (a : addr) (o : Oracle) : M unit :=
  fileContent <-
    match o_readFile o with
    | inl content => ret content
    | inr msg => throw msg
    end ;
  setThis a (set_messages (normalize fileContent)) ;;
  this <- getThis a ;
  if (length (messages this) =? 0)%nat
  then throw "No valid messages found in file"
  else ret tt.

Definition init_launch (a : addr) (o : Oracle) : M unit :=
  await (o_remove o) ;;
  await (o_launch o) ;;
  setThis a (set_browser true).

Definition init_newPage (a : addr) (o : Oracle) : M unit :=
  await (o_newPage o) ;;
  setThis a (set_page true).

Definition init_viewport (o : Oracle) : M unit :=
  await (o_setViewport o) ;;
  await (o_setUserAgent o).

Definition init_try (a : addr) (o : Oracle) : M bool :=
  init_read a o ;;
  init_launch a o ;;
  init_newPage a o ;;
  init_viewport o ;;
  ret true.

(** The [catch] block of [init]. *)
Definition init_catch (a : addr) (error : string) : M bool :=
  emitStatus a "error" ("Initialization failed: " +:+ error) ;;
  ret false.

Definition init (a : addr) (o : Oracle) : M bool :=
  try_catch (init_try a o) (init_catch a).

(** [if (obj[sid]) { delete obj[sid][tid]; }] *)
Definition delete_entry (sid tid : string) (obj : gmap string (gmap string addr))
    : gmap string (gmap string addr) :=
  match obj !! sid with
  | Some m => <[sid := delete tid m]> obj
  | None => obj
  end.

(** The end of [cleanup]: the task is removed from [sessionTasks] and from
    [sessionBrowsers]. *)
Definition unregister (sid tid : string) (w : World) : World :=
  upd_sessionBrowsers (delete_entry sid tid)
    (upd_sessionTasks (delete_entry sid tid) w).

(** [cleanup()] from its call to its end, when no other code runs while it
    awaits. *)
Definition cleanup (a : addr) (o : Oracle) : M unit :=
  try_catch
    (this <- getThis a ;
     (if page this then await (o_closePage o) else ret tt) ;;
     (if browser this then await (o_closeBrowser o) else ret tt))
    (fun error => ret tt) ;;
  this <- getThis a ;
  modify (unregister (sessionId this) (taskId this)).

(** [stop()] from its call to its end, when no other code runs while it
    awaits. *)
Definition stop (a : addr) (now : Z) (o : Oracle) : M unit :=
  setThis a (set_isRunning false) ;;
  setThis a (set_stopTime (Some now)) ;;
  emitStatus a "stopping" "Stopping task..." ;;
  cleanup a o ;;
  this <- getThis a ;
  emitStatus a "stopped"
    ("Task stopped. Total messages sent: " +:+ pretty (totalSent this)).

(** *** [sendMessages] *)

(** [await this.page.$('[role="textbox"]') ||
     await this.page.$('[contenteditable="true"]')]: is there a handle? *)
Definition query_textbox (o : Oracle) : M bool :=
  match o_queryRole o with
  | Found => ret true
  | QueryRejected msg => throw msg
  | NotFound =>
      match o_queryEditable o with
      | Found => ret true
      | QueryRejected msg => throw msg
      | NotFound => ret false
      end
  end.

(** The calls into the page of one iteration: the input field is awaited and
    looked up, the old text is selected, the message is typed, Enter is
    pressed. No field of the task is read or assigned meanwhile. *)
Definition type_and_send (o : Oracle) : M unit :=
  await (o_waitForSelector o) ;;
  textbox <- query_textbox o ;
  (if negb textbox then throw "Message textbox not found" else ret tt) ;;
  await (o_click o) ;;
  await (o_controlDown o) ;;
  await (o_pressKeyA o) ;;
  await (o_controlUp o) ;;
  await (o_type o) ;;
  await (o_pressEnter o).

(** [const originalMessage = this.messages[this.currentIndex]]. With an
    empty message list the element read would be [undefined]; this cannot
    happen, since the loop is only entered after [init] found a message
    (see [loop_message]). *)
Definition read_message (a : addr) : M string :=
  this <- getThis a ;
  match messages this !! currentIndex this with
  | Some m => ret m
  | None => throw "TypeError: message is undefined"
  end.

(** The [try] block of the loop body once the message is read: the calls
    into the page, then the counters, the event and the wait. *)
Definition send_message (a : addr) (o : Oracle) (originalMessage : string)
    : M unit :=
  this <- getThis a ;
  let finalMessage :=
    if JsString.truthy (cfg_hattersName (config this))
    then cfg_hattersName (config this) +:+ " " +:+ originalMessage
    else originalMessage in
  type_and_send o ;;
  log (Submit a finalMessage) ;;
  setThis a (fun t => set_totalSent (totalSent t + 1) t) ;;
  setThis a (fun t =>
    set_currentIndex ((currentIndex t + 1) `mod` length (messages t)) t) ;;
  this <- getThis a ;
  emitStatus a "active"
    ("Message " +:+ pretty (totalSent this) +:+ " sent. Current: "
     +:+ JsString.dquote +:+ String.substring 0 50 originalMessage
     +:+ (if (50 <? String.length originalMessage)%nat then "..." else EmptyString)
     +:+ JsString.dquote) ;;
  delay a (JsNumber.times1000 (cfg_delay (config this))).

(** The [try] block of the loop body. *)
Definition send_try (a : addr) (o : Oracle) : M unit :=
  originalMessage <- read_message a ;
  send_message a o originalMessage.

(** The [catch] block of the loop body up to its wait. *)
Definition send_failed (a : addr) (error : string) : M unit :=
  emitStatus a "error" ("Error sending message: " +:+ error) ;;
  delay a (Some 5000%Z).

(** The [catch] block of the loop body; the result tells whether the loop
    is left by [break]. *)
Definition send_catch (a : addr) (error : string) : M bool :=
  send_failed a error ;;
  if JsString.includes error "textbox not found"
  then emitStatus a "error" "Cannot find message input. Stopping task." ;;
       ret true
  else ret false.

(** One test of [while (this.isRunning)] and what follows it when no other
    code runs meanwhile: an iteration of the body, or the end of
    [sendMessages], which calls [cleanup]. *)
Definition sendMessages_step (a : addr) (o : Oracle) : M unit :=
  this <- getThis a ;
  if isRunning this then
    break <- try_catch (send_try a o ;; ret false) (send_catch a) ;
    if (break : bool)
    then cleanup a o ;; setThis a (set_phase Returned)
    else ret tt
  else cleanup a o ;; setThis a (set_phase Returned).

(** *** [start] *)

(** [for (const cookie of cookies) { await this.page.setCookie(cookie); }] *)
Fixpoint setCookies (o : Oracle) (cookies : list Cookie) : M unit :=
  match cookies with
  | [] => ret tt
  | c :: rest => await (o_setCookie o c) ;; setCookies o rest
  end.

(** The [catch] block of [start] up to the call of [cleanup]. *)
Definition start_failed (a : addr) (error : string) : M unit :=
  emitStatus a "error" ("Failed to start: " +:+ error) ;;
  setThis a (set_isRunning false).

(** The [catch] block of [start]. *)
Definition start_catch (a : addr) (o : Oracle) (error : string) : M unit :=
  start_failed a error ;;
  cleanup a o ;;
  setThis a (set_phase Returned).

(** What [start] does when [init] has returned true, up to the first
    [page.goto]. *)
Definition start_running (a : addr) : M unit :=
  setThis a (set_isRunning true) ;;
  emitStatus a "starting" "Initializing browser and navigating to Facebook..." ;;
  setThis a (set_phase InNavigate).

(** From the call of [start()] to the first [page.goto]: [init], and when
    it succeeds the assignment of the running flag and the first event. *)
Definition start_init (a : addr) (o : Oracle) : M unit :=
  ok <- init a o ;
  if negb ok then setThis a (set_phase Returned)
  else start_running a.

(** The [try] block of [start] up to the call of [sendMessages]. *)
Definition navigate_try (a : addr) (o : Oracle) : M unit :=
  this <- getThis a ;
  await (o_gotoHome o) ;;
  setCookies o (parseCookies (cfg_cookie (config this))) ;;
  await (o_gotoThread o) ;;
  emitStatus a "active" "Connected to Facebook. Starting message sending..." ;;
  setThis a (set_phase InLoop).

Definition start_navigate (a : addr) (o : Oracle) : M unit :=
  try_catch (navigate_try a o) (start_catch a o).

(** *** From one suspension to the next *)

(** [cleanup()] from its call to its first [await]. The result is the
    suspension, or [None] when nothing is awaited and the call has
    returned. *)
Definition cleanup_begin (a : addr) : M (option Closing) :=
  this <- getThis a ;
  if page this then ret (Some ClosingPage)
  else if browser this then ret (Some ClosingBrowser)
  else modify (unregister (sessionId this) (taskId this)) ;; ret None.

(** [cleanup()] from the settling of the promise it awaits to its next
    [await], or to its end. A rejection is caught, and leads to the end. *)
Definition cleanup_resume (a : addr) (c : Closing) (o : Oracle)
    : M (option Closing) :=
  next <-
    try_catch
      (match c with
       | ClosingPage =>
           await (o_closePage o) ;;
           this <- getThis a ;
           if browser this then ret (Some ClosingBrowser) else ret None
       | ClosingBrowser =>
           await (o_closeBrowser o) ;;
           ret None
       end)
      (fun error => ret None) ;
  match next with
  | Some c' => ret (Some c')
  | None =>
      this <- getThis a ;
      modify (unregister (sessionId this) (taskId this)) ;;
      ret None
  end.

(** The last statement of [stop()]. *)
Definition stop_end (a : addr) : M unit :=
  this <- getThis a ;
  emitStatus a "stopped"
    ("Task stopped. Total messages sent: " +:+ pretty (totalSent this)).

(** A call of [stop()] that is not awaited, as in the stop-task handler:
    from the call to the first [await] that suspends it. When [cleanup]
    awaits nothing, [stop()] goes on as soon as the calling handler has
    returned: nothing runs between the return of [cleanup] and [stop_end]
    but the rest of that handler, which reads and writes nothing. *)
Definition stop_call (a : addr) (now : Z) : M unit :=
  setThis a (set_isRunning false) ;;
  setThis a (set_stopTime (Some now)) ;;
  emitStatus a "stopping" "Stopping task..." ;;
  c <- cleanup_begin a ;
  match c with
  | Some c => setThis a (fun t => set_stopCalls (stopCalls t ++ [c])%list t)
  | None => stop_end a
  end.

(** The [i]-th suspended call of [stop()] on the object goes on, to its next
    [await] or to its end. *)
Definition stop_resume (a : addr) (i : nat) (o : Oracle) : M unit :=
  this <- getThis a ;
  match stopCalls this !! i with
  | None => ret tt
  | Some c =>
      next <- cleanup_resume a c o ;
      match next with
      | Some c' =>
          setThis a (fun t => set_stopCalls (<[i := c']> (stopCalls t)) t)
      | None =>
          setThis a (fun t => set_stopCalls (delete i (stopCalls t)) t) ;;
          stop_end a
      end
  end.

(** A part of the [try] block of [init], and what follows it: the [catch]
    block and the return of [start()], or the next part. *)
Definition init_part (a : addr) (part : M unit) (next : M unit) : M unit :=
  ok <- try_catch (part ;; ret true) (init_catch a) ;
  if negb ok then setThis a (set_phase Returned)
  else next.

(** A [cleanup()] called by [sendMessages] or by the [catch] block of
    [start]: when it has returned, [start()] returns. *)
Definition cleanup_called (a : addr) : M unit :=
  c <- cleanup_begin a ;
  setThis a (set_phase match c with Some c => InCleanup c | None => Returned end).

(** The [catch] block of [start] up to the first [await] of [cleanup]. *)
Definition start_caught (a : addr) (error : string) : M unit :=
  start_failed a error ;;
  cleanup_called a.

(** The [catch] block of the loop body up to its wait. What follows the
    wait depends on the message of the error only. *)
Definition loop_failed (a : addr) (error : string) : M unit :=
  send_failed a error ;;
  setThis a (set_phase (if JsString.includes error "textbox not found"
                        then InBreak else InLoop)).

(** The test of the [while]; then the beginning of the [try] block, up to
    its first [await], or the end of [sendMessages]. *)
Definition loop_test (a : addr) : M unit :=
  this <- getThis a ;
  if isRunning this then
    try_catch
      (originalMessage <- read_message a ;
       setThis a (set_phase (InSend originalMessage)))
      (loop_failed a)
  else cleanup_called a.

(** The [try] block from the settling of the calls into the page. *)
Definition loop_send (a : addr) (o : Oracle) (originalMessage : string)
    : M unit :=
  try_catch
    (send_message a o originalMessage ;;
     setThis a (set_phase InLoop))
    (loop_failed a).

(** The [catch] block after its wait, when the loop is left. *)
Definition loop_break (a : addr) : M unit :=
  emitStatus a "error" "Cannot find message input. Stopping task." ;;
  cleanup_called a.

(** The call [sender.start()] goes on from the suspension it is at to the
    next one. Other code runs between two calls of [resume], not inside
    one. *)
Definition resume (a : addr) (o : Oracle) : M unit :=
  this <- getThis a ;
  match phase this with
  | InInit => init_part a (init_read a o) (setThis a (set_phase InLaunch))
  | InLaunch => init_part a (init_launch a o) (setThis a (set_phase InNewPage))
  | InNewPage => init_part a (init_newPage a o) (setThis a (set_phase InViewport))
  | InViewport => init_part a (init_viewport o) (start_running a)
  | InNavigate => try_catch (navigate_try a o) (start_caught a)
  | InLoop => try_catch (loop_test a) (start_caught a)
  | InSend originalMessage =>
      try_catch (loop_send a o originalMessage) (start_caught a)
  | InBreak => try_catch (loop_break a) (start_caught a)
  | InCleanup c =>
      next <- cleanup_resume a c o ;
      setThis a (set_phase match next with
                           | Some c' => InCleanup c'
                           | None => Returned
                           end)
  | Returned => ret tt
  end.

(** A stage of [start()] taken as a whole, when no other code runs while
    it awaits: [init] and the first event; the loading of the pages; one
    iteration of the send loop with its wait, and with [cleanup] when the
    loop ends. [sendMessages] runs inside the [try] block of [start]. At a
    suspension inside a stage, the step is [resume]. *)
Definition task_step (a : addr) (o : Oracle) : M unit :=
  this <- getThis a ;
  match phase this with
  | InInit => start_init a o
  | InNavigate => start_navigate a o
  | InLoop => try_catch (sendMessages_step a o) (start_catch a o)
  | Returned => ret tt
  | _ => resume a o
  end.

(** [start()] run on its own, with one oracle for each stage (see
    [start_run]). *)
Fixpoint start (a : addr) (os : list Oracle) : M unit :=
  match os with
  | [] => ret tt
  | o :: rest => task_step a o ;; start a rest
  end.

(** ** The request handlers *)

(** The fields of [req.body] and [req.file] of a start-task request; a
    field that was not sent is [None]. *)
Record StartBody := {
  b_cookie : option string;
  b_threadId : option string;
  b_hattersName : option string;
  b_delay : option string;
  b_file : option string     (* [req.file.path] *)
}.

(** One element of the listing of [/active-tasks]. *)
Record TaskSummary := {
  ts_taskId : string;
  ts_isRunning : bool;
  ts_totalSent : nat;
  ts_currentIndex : nat;
  ts_totalMessages : nat;
  ts_sessionId : string
}.

Inductive Response :=
  | BadRequest (message : string)          (* status 400, [success: false] *)
  | ServerError                            (* status 500, sent by the framework
                                              when the handler throws *)
  | TaskStarted (tid sid : string)
  | TaskStopped
  | ActiveTasks (tasks : list TaskSummary) (sid : string)
  | SessionInfo (sid : string) (activeTasks : nat)
  | IndexPage.

(** [const config = { cookie, threadId, hattersName: hattersName || '',
    delay: parseInt(delay), filePath: req.file.path }] *)
Definition request_config (body : StartBody) : Config :=
  {| cfg_cookie := default EmptyString (b_cookie body);
     cfg_threadId := default EmptyString (b_threadId body);
     cfg_hattersName :=
       if JsString.truthy_opt (b_hattersName body)
       then default EmptyString (b_hattersName body)
       else EmptyString;
     cfg_delay := JsNumber.parseInt (default EmptyString (b_delay body));
     cfg_filePath := default EmptyString (b_file body) |}.

(** [app.post('/start-task')]. The handler contains no [await]: it runs
    from its first line to the response without interruption, and
    [sender.start()] only begins its work afterwards. Nothing in the [try]
    block of the handler throws, and [start()] never rejects (see
    [task_step_summary]), so neither [catch] is reached. *)
Definition post_start_task (sid : string) (body : StartBody) (now : Z)
    (w : World) : Response * World :=
  let w := initSessionTasks sid w in
  if negb (JsString.truthy_opt (b_cookie body))
     || negb (JsString.truthy_opt (b_threadId body))
     || negb (bool_decide (is_Some (b_file body)))
     || negb (JsString.truthy_opt (b_delay body))
  then (BadRequest "Missing required fields", w)
  else
    let threadId := default EmptyString (b_threadId body) in
    if js_truthy (js_get (default ∅ (sessionTasks w !! sid)) threadId)
    then (BadRequest "Task already running for this thread in your session", w)
    else
      let tid := threadId in
      let cfg := request_config body in
      let a := fresh (dom (heap w)) in
      let sender := new_MessageSender tid cfg sid now in
      let w := upd_heap (insert a sender) w in
      let w :=
        upd_sessionTasks
          (fun st => <[sid := <[tid := a]> (default ∅ (st !! sid))]> st) w in
      (TaskStarted tid sid, w).

(** [app.post('/stop-task')]. [stop()] is called and not awaited: the
    response is sent when the call is suspended. A key that names an
    inherited property passes the test; the value found has no method
    [stop], so that the call throws a [TypeError], which the framework
    answers with status 500. *)
Definition post_stop_task (sid : string) (tid : option string) (now : Z)
    (w : World) : Response * World :=
  match tid, sessionTasks w !! sid with
  | Some tid, Some m =>
      if JsString.truthy tid then
        match js_get m tid with
        | Own a => (TaskStopped, (stop_call a now w).2)
        | Inherited => (ServerError, w)
        | Undefined => (BadRequest "Task not found in your session", w)
        end
      else (BadRequest "Task not found in your session", w)
  | _, _ => (BadRequest "Task not found in your session", w)
  end.

(** The objects a listing reads, with the key under which each is found. *)
Definition listed (sid : string) (w : World) : list (string * addr) :=
  map_to_list (default ∅ (sessionTasks w !! sid)).

Definition summary (sid : string) (w : World) (entry : string * addr)
    : list TaskSummary :=
  match heap w !! entry.2 with
  | Some t =>
      [ {| ts_taskId := entry.1;
           ts_isRunning := isRunning t;
           ts_totalSent := totalSent t;
           ts_currentIndex := currentIndex t;
           ts_totalMessages := length (messages t);
           ts_sessionId := sid |} ]
  | None => []
  end.

(** [app.get('/active-tasks')] *)
Definition get_active_tasks (sid : string) (w : World) : Response * World :=
  let w := initSessionTasks sid w in
  (ActiveTasks (listed sid w ≫= summary sid w) sid, w).

(** [app.get('/session-info')] *)
Definition get_session_info (sid : string) (w : World) : Response * World :=
  (SessionInfo sid (size (default ∅ (sessionTasks w !! sid))), w).

(** [app.get('/')] *)
Definition get_index (sid : string) (w : World) : Response * World :=
  (IndexPage, initSessionTasks sid w).

(** ** Sockets *)

(** [io.on('connection')]: the socket joins the room of its session. *)
Definition on_connection (sid : string) (w : World) : socket_id * World :=
  let sock := fresh (dom (sockets w)) in
  let w := upd_sockets (insert sock sid) w in
  let w := upd_rooms (fun r => <[sid := {[sock]} ∪ default ∅ (r !! sid)]> r) w in
  (sock, upd_trace (cons (SessionInfoSent sock sid)) w).

(** A socket that disconnects leaves every room. *)
Definition on_disconnect (sock : socket_id) (w : World) : World :=
  upd_rooms (fmap (fun members => members ∖ {[sock]})) w.

Fixpoint emit_running (entries : list (string * addr)) : M unit :=
  match entries with
  | [] => ret tt
  | (_, a) :: rest =>
      task <- getThis a ;
      (if isRunning task
       then emitStatus a (if isRunning task then "active" else "stopped")
              ("Task running - " +:+ pretty (totalSent task) +:+ " messages sent")
       else ret tt) ;;
      emit_running rest
  end.

(** [socket.on('getSessionTasks')] *)
Definition on_getSessionTasks (sock : socket_id) (w : World) : World :=
  match sockets w !! sock with
  | Some sid =>
      match sessionTasks w !! sid with
      | Some m => (emit_running (map_to_list m) w).2
      | None => w
      end
  | None => w
  end.

(** ** The periodic sweep *)

(** The callback of [setInterval]: a timer is set for every session whose
    task map is empty at this moment. *)
Definition sweep (w : World) : World :=
  let empty_sessions :=
    omap (fun '(sid, m) => if (size (m : gmap string addr) =? 0)%nat then Some sid else None)
         (map_to_list (sessionTasks w)) in
  upd_timers (fun ts => (ts ++ empty_sessions)%list) w.

(** The callback of [setTimeout], one hour later. *)
Definition timer_callback (sid : string) (w : World) : World :=
  upd_sessionBrowsers (delete sid) (upd_sessionTasks (delete sid) w).

(** The oldest pending timer fires (all timers have the same delay). *)
Definition timer_fire (w : World) : World :=
  match timers w with
  | [] => w
  | sid :: rest => timer_callback sid (upd_timers (fun _ => rest) w)
  end.

(** ** Runs of the process *)

Inductive Action :=
  | GetIndex (sid : string)
  | PostStartTask (sid : string) (body : StartBody) (now : Z)
  | PostStopTask (sid : string) (tid : option string) (now : Z)
  | GetActiveTasks (sid : string)
  | GetSessionInfo (sid : string)
  | SocketConnect (sid : string)
  | SocketDisconnect (sock : socket_id)
  | SocketGetSessionTasks (sock : socket_id)
  | SweepTick
  | TimerFire
  | TaskStep (a : addr) (o : Oracle)
      (* a stage of [start()] on object [a], with nothing in between *)
  | Resume (a : addr) (o : Oracle)
      (* [start()] on object [a] goes on to its next suspension *)
  | StopResume (a : addr) (i : nat) (o : Oracle).
      (* the [i]-th suspended [stop()] on object [a] goes on *)

Definition apply_action (act : Action) (w : World) : World :=
  match act with
  | GetIndex sid => (get_index sid w).2
  | PostStartTask sid body now => (post_start_task sid body now w).2
  | PostStopTask sid tid now => (post_stop_task sid tid now w).2
  | GetActiveTasks sid => (get_active_tasks sid w).2
  | GetSessionInfo sid => (get_session_info sid w).2
  | SocketConnect sid => (on_connection sid w).2
  | SocketDisconnect sock => on_disconnect sock w
  | SocketGetSessionTasks sock => on_getSessionTasks sock w
  | SweepTick => sweep w
  | TimerFire => timer_fire w
  | TaskStep a o => (task_step a o w).2
  | Resume a o => (resume a o w).2
  | StopResume a i o => (stop_resume a i o w).2
  end.

(** Actions are applied from left to right. *)
Definition run (acts : list Action) (w : World) : World :=
  foldl (fun w act => apply_action act w) w acts.

(** ** Observations on a run *)

(** The object an effect comes from. *)
Definition src_of (e : Effect) : option addr :=
  match e with
  | Emit a _ _ _ | Wait a _ | Submit a _ => Some a
  | SessionInfoSent _ _ => None
  end.

(** The texts object [a] has sent, newest first. *)
Definition submitted (a : addr) (tr : list Effect) : list string :=
  omap (fun e => match e with
                 | Submit b txt => if decide (b = a) then Some txt else None
                 | _ => None
                 end) tr.

(** The status events object [a] has emitted, newest first. *)
Definition emitted (a : addr) (tr : list Effect) : list StatusEvent :=
  omap (fun e => match e with
                 | Emit b _ _ d => if decide (b = a) then Some d else None
                 | _ => None
                 end) tr.

(** The waits of object [a], newest first. *)
Definition waits (a : addr) (tr : list Effect) : list JsNumber.number :=
  omap (fun e => match e with
                 | Wait b ms => if decide (b = a) then Some ms else None
                 | _ => None
                 end) tr.

(** How many events with a given status object [a] has emitted. *)
Definition count_status (status : string) (a : addr) (tr : list Effect) : nat :=
  length (List.filter (String.eqb status) (ev_status <$> emitted a tr)).

Definition no_active (ds : list StatusEvent) : Prop :=
  Forall (fun d => ev_status d ≠ "active") ds.

(** The text typed for message [m]. *)
Definition final_message (t : MessageSender) (m : string) : string :=
  if JsString.truthy (cfg_hattersName (config t))
  then cfg_hattersName (config t) +:+ " " +:+ m
  else m.

(** The error of a failed iteration, if it failed. *)
Definition failure_message (s : SendOutcome) : option string :=
  match s with
  | Sent => None
  | TextboxMissing => Some "Message textbox not found"
  | Rejected msg => Some msg
  end.

(** The test on the fields of a start-task request. *)
Definition has_required_fields (body : StartBody) : bool :=
  JsString.truthy_opt (b_cookie body)
  && JsString.truthy_opt (b_threadId body)
  && bool_decide (is_Some (b_file body))
  && JsString.truthy_opt (b_delay body).

(** The entry of the registry for a session and a key. *)
Definition registered (sid tid : string) (w : World) : option addr :=
  sessionTasks w !! sid ≫= (.!! tid).

(** The fields of a [MessageSender] that are assigned once, in the
    constructor. *)
Definition same_identity (t t' : MessageSender) : Prop :=
  taskId t' = taskId t ∧ sessionId t' = sessionId t ∧
  config t' = config t ∧ startTime t' = startTime t.

(** ** Invariants of the process *)

(** What holds of every object and what it has done so far. *)
Definition task_ok (a : addr) (t : MessageSender) (tr : list Effect) : Prop :=
  totalSent t = length (submitted a tr) ∧
  (messages t ≠ [] →
     currentIndex t = totalSent t `mod` length (messages t)) ∧
  (messages t = [] →
     currentIndex t = 0 ∧ totalSent t = 0 ∧ isRunning t = false ∧
     no_active (emitted a tr) ∧ (phase t = InInit ∨ phase t = Returned)) ∧
  (phase t = InInit → messages t = []) ∧
  (∀ i txt,
     rev (submitted a tr) !! i = Some txt →
     ∃ m, messages t !! (i `mod` length (messages t)) = Some m ∧
          txt = final_message t m).

(** The places of [start()] that lie inside [init()]. *)
Definition starting (p : Phase) : bool :=
  match p with
  | InInit | InLaunch | InNewPage | InViewport => true
  | _ => false
  end.

(** The handles a task holds, by the place its [start()] is at. *)
Definition handles_ok (t : MessageSender) : Prop :=
  match phase t with
  | InInit | InLaunch => browser t = false ∧ page t = false
  | InNewPage => browser t = true ∧ page t = false
  | Returned => True
  | _ => browser t = true ∧ page t = true
  end.

(** What the place of [start()] says of the fields: the handles, and the
    message an iteration has read. *)
Definition phase_ok (t : MessageSender) : Prop :=
  handles_ok t ∧
  ∀ m, phase t = InSend m → messages t !! currentIndex t = Some m.

Record world_ok (w : World) : Prop := {
  ok_entries : ∀ sid m k a,
    sessionTasks w !! sid = Some m → m !! k = Some a →
    (k ∉ object_prototype_keys) ∧
    ∃ t, heap w !! a = Some t ∧ sessionId t = sid ∧ taskId t = k;
  ok_target : ∀ a t,
    heap w !! a = Some t → cfg_threadId (config t) = taskId t;
  ok_rooms : ∀ room members sock,
    rooms w !! room = Some members → sock ∈ members →
    sockets w !! sock = Some room;
  ok_emits : ∀ a room rc d,
    Emit a room rc d ∈ trace w →
    ∃ t, heap w !! a = Some t ∧ room = sessionId t ∧
         ev_sessionId d = sessionId t ∧
         ∀ sock, sock ∈ rc → sockets w !! sock = Some room;
  ok_src : ∀ e a,
    e ∈ trace w → src_of e = Some a → is_Some (heap w !! a);
  ok_tasks : ∀ a t,
    heap w !! a = Some t → task_ok a t (trace w);
  ok_phase : ∀ a t,
    heap w !! a = Some t → phase_ok t
}.

(** What a later state keeps of an earlier one. *)
Record evolves (w w' : World) : Prop := {
  ev_heap : ∀ a t,
    heap w !! a = Some t →
    ∃ t', heap w' !! a = Some t' ∧ same_identity t t' ∧
          (phase t = Returned →
             phase t' = Returned ∧ messages t' = messages t ∧
             totalSent t' = totalSent t ∧ currentIndex t' = currentIndex t);
  ev_sockets : ∀ sock sid,
    sockets w !! sock = Some sid → sockets w' !! sock = Some sid;
  ev_trace : ∃ new, trace w' = (new ++ trace w)%list
}.

(** An effect of object [a], whose fields are [t] up to the fields that
    change, in state [w]. *)
Definition own_event (a : addr) (t : MessageSender) (w : World) (e : Effect)
    : Prop :=
  match e with
  | Emit b room rc d =>
      b = a ∧ room = sessionId t ∧ rc = room_members (sessionId t) w ∧
      ev_sessionId d = sessionId t ∧ ev_taskId d = taskId t
  | Wait b _ | Submit b _ => b = a
  | SessionInfoSent _ _ => False
  end.

(** The shape of every step taken by the code of object [a]: its fields
    become [t'], the effects [new] are added, and the registry either stays
    or loses the entry of the object. *)
Record step_summary (a : addr) (t : MessageSender) (w w' : World)
    (t' : MessageSender) (new : list Effect) : Prop := {
  ss_heap : heap w' = <[a := t']> (heap w);
  ss_trace : trace w' = (new ++ trace w)%list;
  ss_sockets : sockets w' = sockets w;
  ss_rooms : rooms w' = rooms w;
  ss_timers : timers w' = timers w;
  ss_registry :
    (sessionTasks w' = sessionTasks w ∧
     sessionBrowsers w' = sessionBrowsers w) ∨
    (sessionTasks w' = delete_entry (sessionId t) (taskId t) (sessionTasks w) ∧
     sessionBrowsers w' =
       delete_entry (sessionId t) (taskId t) (sessionBrowsers w));
  ss_identity : same_identity t t';
  ss_events : Forall (own_event a t w) new
}.

(** What a step of [start()], a stage or a move to the next suspension,
    does to the fields. A message is sent by the step that ends the calls
    into the page, or by a stage that tests the flag and sends. *)
Record step_local (a : addr) (t t' : MessageSender) (new : list Effect)
    : Prop := {
  sl_returned : phase t = Returned → t' = t ∧ new = [];
  sl_phase : phase t' ≠ InInit;
  sl_forward : starting (phase t) = false → starting (phase t') = false;
  sl_messages : phase t ≠ InInit → messages t' = messages t;
  sl_stops : stopCalls t' = stopCalls t ∧ stopTime t' = stopTime t;
  sl_init : phase t = InInit →
    no_active (emitted a new) ∧
    (messages t' ≠ [] ∨ (phase t' = Returned ∧ isRunning t' = isRunning t));
  sl_send :
    (submitted a new = [] ∧
     totalSent t' = totalSent t ∧ currentIndex t' = currentIndex t) ∨
    (∃ m, submitted a new = [final_message t m] ∧
          totalSent t' = totalSent t + 1 ∧
          currentIndex t' = (currentIndex t + 1) `mod` length (messages t) ∧
          (phase t = InSend m ∨
           (phase t = InLoop ∧ isRunning t = true ∧
            messages t !! currentIndex t = Some m)) ∧
          ∀ m', phase t' ≠ InSend m');
  sl_capture : ∀ m, phase t' = InSend m →
    phase t = InLoop ∧ isRunning t = true ∧
    messages t !! currentIndex t = Some m ∧ submitted a new = [];
  sl_running : isRunning t' = true → isRunning t = true ∨ starting (phase t) = true;
  sl_handles : handles_ok t → handles_ok t';
  sl_status :
    Forall (fun d => ev_status d ≠ "stopping" ∧ ev_status d ≠ "stopped")
      (emitted a new)
}.

(** What a call of [stop()], or a suspended one that goes on, does to the
    fields: the flag is cleared or stays, the stop time and the suspended
    calls change, the rest stays. *)
Definition stop_local (t t' : MessageSender) : Prop :=
  ∃ r st cs,
    t' = set_stopCalls cs (set_stopTime st (set_isRunning r t)) ∧
    (r = isRunning t ∨ r = false).

(** The two events of a failed iteration of the loop: the one emitted for
    every failure, and the one emitted before the loop is left. *)
Definition error_event (t : MessageSender) (w : World) (a : addr) (msg : string)
    : Effect :=
  Emit a (sessionId t) (room_members (sessionId t) w)
    (status_data t "error" ("Error sending message: " +:+ msg)).

Definition terminal_event (t : MessageSender) (w : World) (a : addr) : Effect :=
  Emit a (sessionId t) (room_members (sessionId t) w)
    (status_data t "error" "Cannot find message input. Stopping task.").

(** The event of an initialization that found no message in the file. *)
Definition no_messages_event (t : MessageSender) (w : World) (a : addr) : Effect :=
  Emit a (sessionId t) (room_members (sessionId t) w)
    (status_data (set_messages [] t) "error"
       "Initialization failed: No valid messages found in file").

(** A status event sent on request by [getSessionTasks]. *)
Definition running_report (w : World) (e : Effect) : Prop :=
  ∃ a t msg,
    e = Emit a (sessionId t) (room_members (sessionId t) w)
             (status_data t "active" msg) ∧
    heap w !! a = Some t ∧ isRunning t = true.

(** The rows of the listing a session receives from [/active-tasks]. *)
Definition listing (sid : string) (w : World) : list TaskSummary :=
  match (get_active_tasks sid w).1 with
  | ActiveTasks tasks _ => tasks
  | _ => []
  end.

(** ** Uploaded files *)

(** [fileFilter] of the upload middleware: the error passed to the
    callback, or the decision. *)
Definition fileFilter (mimetype : string) : string + bool :=
  if String.eqb mimetype "text/plain" then inr true
  else inl "Only .txt files allowed!".

(** [filename] of the disk storage: [Date.now() + '-' + file.originalname].
    The time is a number of milliseconds, written in decimal digits. *)
Definition filename (now : N) (originalname : string) : string :=
  pretty now +:+ "-" +:+ originalname.

(** ** Further observations *)

(** A string that holds nothing but white space and line terminators. *)
Fixpoint all_whitespace (s : string) : bool :=
  match s with
  | EmptyString => true
  | String c r => JsString.is_whitespace c && all_whitespace r
  end.

(** The part of a message an "active" event shows:
    [originalMessage.substring(0, 50)], and three dots when the message is
    longer. *)
Definition preview (originalMessage : string) : string :=
  String.substring 0 50 originalMessage
  +:+ (if (50 <? String.length originalMessage)%nat then "..." else EmptyString).

(** Why [init] fails, when it does: the error of the first step of its
    [try] block that throws. *)
Definition init_failure (o : Oracle) : option string :=
  match o_readFile o with
  | inr msg => Some msg
  | inl content =>
      match normalize content with
      | [] => Some "No valid messages found in file"
      | _ :: _ =>
          first_rejection [ o_remove o; o_launch o; o_newPage o;
                            o_setViewport o; o_setUserAgent o ]
      end
  end.

(** Why the loading of the pages fails, when it does: the first rejection
    among the visit of the home page, the cookies set one after the other,
    and the visit of the conversation. *)
Definition navigate_failure (o : Oracle) (cookie : string) : option string :=
  first_rejection
    (o_gotoHome o :: (o_setCookie o <$> parseCookies cookie) ++ [o_gotoThread o])%list.

(** The report [getSessionTasks] sends for an entry of the registry, when
    the task is running. *)
Definition report_of (w : World) (entry : string * addr) : option Effect :=
  task ← heap w !! entry.2;
  if isRunning task
  then Some (Emit entry.2 (sessionId task) (room_members (sessionId task) w)
               (status_data task "active"
                  ("Task running - " +:+ pretty (totalSent task) +:+ " messages sent")))
  else None.

(** The number of pending timers of the sweep that will delete a session. *)
Definition pending (sid : string) (w : World) : nat :=
  length (List.filter (String.eqb sid) (timers w)).

(** The values the [status] of an event can take. *)
Definition statuses : list string :=
  ["error"; "starting"; "active"; "stopping"; "stopped"].

(** A cursor and a count that fit a list of [n] messages. *)
Definition counters_ok (n cur tot : nat) : Prop :=
  (n = 0 → cur = 0 ∧ tot = 0) ∧ (n ≠ 0 → cur = tot `mod` n).

(** An event that task [t] can have emitted. *)
Definition event_ok (t : MessageSender) (d : StatusEvent) : Prop :=
  ev_status d ∈ statuses ∧
  ev_taskId d = taskId t ∧ ev_threadId d = taskId t ∧
  ev_sessionId d = sessionId t ∧
  ev_delay d = cfg_delay (config t) ∧ ev_startTime d = startTime t ∧
  counters_ok (ev_totalMessages d) (ev_currentIndex d) (ev_totalSent d).

(** An effect that task [t] can have had. *)
Definition effect_ok (t : MessageSender) (e : Effect) : Prop :=
  match e with
  | Emit _ room _ d => room = sessionId t ∧ event_ok t d
  | Wait _ ms =>
      ms = Some 5000%Z ∨ ms = JsNumber.times1000 (cfg_delay (config t))
  | Submit _ _ | SessionInfoSent _ _ => True
  end.

(** What a handler or a step of a task does to the two registries: nothing;
    the maps of a session are created when missing; a task is registered,
    by a start-task request; the entry of a key is deleted; the maps of a
    session are deleted, by the callback of a timer. *)
Inductive registry_effect (act : Action) (w w' : World) : Prop :=
  | reg_same :
      sessionTasks w' = sessionTasks w →
      sessionBrowsers w' = sessionBrowsers w →
      registry_effect act w w'
  | reg_init (sid : string) :
      sessionTasks w' = init_entry sid (sessionTasks w) →
      sessionBrowsers w' = init_entry sid (sessionBrowsers w) →
      registry_effect act w w'
  | reg_add (sid : string) (body : StartBody) (now : Z) :
      act = PostStartTask sid body now →
      has_required_fields body = true →
      default EmptyString (b_threadId body) ∉ object_prototype_keys →
      registered sid (default EmptyString (b_threadId body)) w = None →
      sessionTasks w' =
        <[sid := <[default EmptyString (b_threadId body) := fresh (dom (heap w))]>
                   (default ∅ (sessionTasks w !! sid))]> (sessionTasks w) →
      sessionBrowsers w' = init_entry sid (sessionBrowsers w) →
      registry_effect act w w'
  | reg_delete (sid k : string) :
      sessionTasks w' = delete_entry sid k (sessionTasks w) →
      sessionBrowsers w' = delete_entry sid k (sessionBrowsers w) →
      registry_effect act w w'
  | reg_drop (sid : string) :
      act = TimerFire → head (timers w) = Some sid →
      sessionTasks w' = delete sid (sessionTasks w) →
      sessionBrowsers w' = delete sid (sessionBrowsers w) →
      registry_effect act w w'.

(** [sessionBrowsers] has the sessions of [sessionTasks], and holds no
    browser. *)
Definition browsers_unused (w : World) : Prop :=
  dom (sessionBrowsers w) = dom (sessionTasks w) ∧
  ∀ sid m, sessionBrowsers w !! sid = Some m → m = ∅.

(** What a handler or a step does to one task [a]: it leaves the task as it
    is, and at most reports it as running; or it is a step of the task's
    own [start()]; or it is a step of a call of [stop()] on the task. *)
Inductive task_move (a : addr) (t t' : MessageSender) (new : list Effect) : Prop :=
  | tm_idle :
      t' = t → submitted a new = [] →
      Forall (fun d => ev_status d = "active" ∧ isRunning t = true) (emitted a new) →
      task_move a t t' new
  | tm_step :
      step_local a t t' new → same_identity t t' →
      task_move a t t' new
  | tm_stop :
      stop_local t t' →
      submitted a new = [] →
      Forall (fun d => ev_status d = "stopping" ∨ ev_status d = "stopped")
        (emitted a new) →
      count_status "stopping" a new + length (stopCalls t) =
        count_status "stopped" a new + length (stopCalls t') →
      task_move a t t' new.

(** Every call of [stop()] on object [a] has emitted "stopping", and has
    emitted "stopped" unless it is still suspended. *)
Definition stop_balance (a : addr) (t : MessageSender) (tr : list Effect)
    : Prop :=
  count_status "stopping" a tr =
    count_status "stopped" a tr + length (stopCalls t).

(** ** Concrete inputs *)

Module Example.

Definition LF : string := String (ascii_of_nat 10) EmptyString.

(** The file holds [content]; the wait for the input field and the two
    look-ups end as given; every other awaited call resolves. *)
Definition oracle (content : string) (wait : driver_result)
    (role editable : QueryResult) : Oracle :=
  {| o_readFile := inl content; o_remove := None; o_launch := None;
     o_newPage := None; o_setViewport := None; o_setUserAgent := None;
     o_gotoHome := None; o_setCookie := fun _ => None; o_gotoThread := None;
     o_waitForSelector := wait; o_queryRole := role;
     o_queryEditable := editable; o_click := None; o_controlDown := None;
     o_pressKeyA := None; o_controlUp := None; o_type := None;
     o_pressEnter := None; o_closePage := None; o_closeBrowser := None |}.

Definition hi_there : string := "hi" +:+ LF +:+ "there" +:+ LF.

(** Everything resolves and the input field is found. *)
Definition sent : Oracle := oracle hi_there None Found Found.

(** The wait for the input field times out. *)
Definition timed_out : Oracle :=
  oracle hi_there (Some "Waiting failed: 10000ms exceeded") Found Found.

(** The input field is found by neither selector. *)
Definition no_textbox : Oracle := oracle hi_there None NotFound NotFound.

Definition body (threadId delay : string) : StartBody :=
  {| b_cookie := Some "c_user=100; xs=abc";
     b_threadId := Some threadId;
     b_hattersName := None;
     b_delay := Some delay;
     b_file := Some "uploads/1700000000000-messages.txt" |}.

Definition session1 : string := "6f1c1a52-0d3e-4c58-9a1b-2f4e8d7c9b10".
Definition session2 : string := "b7e2d9c4-5a61-4f0e-8c33-91d0a6e4f275".

(** A task of [session1] for thread 1000 is started, two clients connect,
    and the task reaches its loop. *)
Definition looping_acts (delay : string) : list Action :=
  [ PostStartTask session1 (body "1000" delay) 0;
    SocketConnect session1;
    SocketConnect session2;
    TaskStep 0 sent;
    TaskStep 0 sent ].

Abbreviation looping delay := (run (looping_acts delay) initial_world).

(** The same key is then used in [session2], and the first task sends
    three messages. *)
Definition three_sends_acts : list Action :=
  (looping_acts "1" ++
   [ PostStartTask session2 (body "1000" "1") 1;
     TaskStep 0 sent; TaskStep 0 sent; TaskStep 0 sent ])%list.

(** A file that holds only blank lines. *)
Definition blank_file : Oracle :=
  oracle ("  " +:+ LF +:+ LF +:+ String (ascii_of_nat 9) LF) None Found Found.

(** A task is started and a client connects; its file will hold only blank
    lines. *)
Definition blank_acts_before : list Action :=
  [ PostStartTask session1 (body "1000" "1") 0; SocketConnect session1 ].

(** The client then asks for the running tasks, and stops the task. *)
Definition blank_acts_after : list Action :=
  [ SocketGetSessionTasks 0; TaskStep 0 blank_file;
    PostStopTask session1 (Some "1000") 5 ].

(** A session is opened, the sweep finds it empty, a task is started within
    the hour, and the timer set by the sweep fires. *)
Definition grace_acts : list Action :=
  [ GetIndex session1; SweepTick; PostStartTask session1 (body "1000" "1") 0 ].

(** [session2] starts a task for thread 1000; then [session1] starts one
    for the same thread, clients of both sessions are connected, and both
    tasks run. *)
Definition isolation_before : list Action :=
  [ GetIndex session2; SocketConnect session2;
    PostStartTask session2 (body "1000" "1") 0; TaskStep 0 sent ].

Definition isolation_after : list Action :=
  [ SocketConnect session1; TaskStep 1 sent; TaskStep 0 sent; TaskStep 1 sent;
    TaskStep 1 sent; TaskStep 0 sent; SocketGetSessionTasks 0;
    SocketGetSessionTasks 1; TaskStep 1 no_textbox ].

End Example.

Module Scenario.
Import Example.

(** The task of [looping_acts] sends a message and is stopped while it
    waits for the next one: its page and its browser are closed, and the
    call of [stop()] returns. The same thread is then started again in the
    session, and the new task reaches its loop. *)
Definition restart_acts : list Action :=
  (looping_acts "1" ++
   [ TaskStep 0 sent;
     PostStopTask session1 (Some "1000") 7;
     StopResume 0 0 sent; StopResume 0 0 sent;
     PostStartTask session1 (body "1000" "1") 8;
     TaskStep 1 sent; TaskStep 1 sent ])%list.

(** The task of [looping_acts] passes the test of its loop, and is at the
    calls that type its first message. *)
Definition typing_acts : list Action :=
  (looping_acts "1" ++ [ Resume 0 sent ])%list.

(** The task of [looping_acts] sends a message; while it waits, two
    stop-task requests come for it, and the call of the first one goes on
    to its end. *)
Definition twice_acts : list Action :=
  (looping_acts "1" ++
   [ TaskStep 0 sent;
     PostStopTask session1 (Some "1000") 7;
     PostStopTask session1 (Some "1000") 8;
     StopResume 0 0 sent; StopResume 0 0 sent ])%list.

End Scenario.

(** * Properties *)

(** ** Evaluation of the methods *)

Lemma getThis_ok a t w : heap w !! a = Some t → getThis a w = (Normal t, w).
Proof. intros H. unfold getThis. by rewrite H. Qed.

Lemma setThis_ok a f t w :
  heap w !! a = Some t →
  setThis a f w = (Normal tt, upd_heap (insert a (f t)) w).
Proof. intros H. unfold setThis. by rewrite H. Qed.

Lemma emitStatus_ok a st msg t w :
  heap w !! a = Some t →
  emitStatus a st msg w =
    (Normal tt,
     upd_trace (cons (Emit a (sessionId t) (room_members (sessionId t) w)
                        (status_data t st msg))) w).
Proof. intros H. unfold emitStatus, bind. by rewrite (getThis_ok _ _ _ H). Qed.

(** [cleanup] never throws: an error of [page.close] or [browser.close] is
    caught, and the registry is updated in every case. *)
Lemma cleanup_ok a o t w :
  heap w !! a = Some t →
  cleanup a o w = (Normal tt, unregister (sessionId t) (taskId t) w).
Proof.
  intros H. unfold cleanup, bind, try_catch. rewrite (getThis_ok _ _ _ H).
  destruct (page t), (o_closePage o), (browser t), (o_closeBrowser o); simpl;
    rewrite ?(getThis_ok _ _ _ H); reflexivity.
Qed.

(** The calls into the page change nothing in the state; how they end is
    what [attempt] says. *)
Lemma type_and_send_outcome o w :
  type_and_send o w =
    match attempt o with
    | Sent => (Normal tt, w)
    | TextboxMissing => (Throw "Message textbox not found", w)
    | Rejected msg => (Throw msg, w)
    end.
Proof.
  unfold type_and_send, attempt, keys_outcome, query_textbox, bind, await,
    throw, ret.
  destruct (o_waitForSelector o); simpl; [done|].
  destruct (o_queryRole o), (o_queryEditable o); simpl; try done;
    destruct (o_click o); simpl; try done;
    destruct (o_controlDown o); simpl; try done;
    destruct (o_pressKeyA o); simpl; try done;
    destruct (o_controlUp o); simpl; try done;
    destruct (o_type o); simpl; try done;
    destruct (o_pressEnter o); simpl; done.
Qed.

Lemma setCookies_ok o cs w : ∃ r, setCookies o cs w = (r, w).
Proof.
  induction cs as [|c cs IH]; simpl; [by eexists|].
  unfold bind, await. destruct (o_setCookie o c); simpl; [by eexists|]. apply IH.
Qed.

Ltac heap_lookup :=
  simpl; first [ eassumption | apply lookup_insert_eq ].

Ltac mstep :=
  first
    [ erewrite getThis_ok by heap_lookup
    | erewrite setThis_ok by heap_lookup
    | erewrite emitStatus_ok by heap_lookup
    | erewrite cleanup_ok by heap_lookup ]; simpl.

Ltac mrun :=
  unfold bind, try_catch, await, throw, ret, delay, log, modify; simpl;
  repeat mstep.

Ltac summary_tac :=
  split; simpl; rewrite ?insert_insert_eq; try done;
  try (by left); try (by right); try (by repeat constructor);
  try (by rewrite insert_id).

(** The goals of [step_local], one after the other, for a step whose
    outcome is computed; [Hp] names the place the step starts from. *)
Ltac local_tac :=
  split; simpl; rewrite ?decide_True by done;
  [ (* sl_returned *) first [ intros; congruence | done ]
  | (* sl_phase *) first [ done | congruence ]
  | (* sl_forward *)
    first [ done
          | match goal with Hp : phase _ = _ |- _ => rewrite Hp; simpl; done end ]
  | (* sl_messages *) first [ done | intros; congruence ]
  | (* sl_stops *) done
  | (* sl_init *)
    first [ intros; congruence
          | intros _; split;
            [ unfold no_active; repeat constructor; simpl; done
            | first [ by right | left; simpl; congruence ] ] ]
  | (* sl_send *)
    first [ left; done
          | right; eexists; split; [reflexivity|];
            split; [done|]; split; [done|];
            split; [first [ by left | right; done ]|];
            first [ done | intros ? ?; congruence ] ]
  | (* sl_capture *)
    first [ intros; discriminate
          | intros ? [= <-]; done
          | intros ?; match goal with Hp : phase _ = _ |- _ => rewrite Hp end;
            intros; discriminate ]
  | (* sl_running *)
    first [ intros; by left
          | intros; discriminate
          | intros _; right;
            match goal with Hp : phase _ = _ |- _ => rewrite Hp; done end ]
  | (* sl_handles *)
    unfold handles_ok; simpl;
    match goal with Hp : phase _ = _ |- _ => rewrite ?Hp end; simpl;
    first [ done | intros [? ?]; done | intros [? ?]; discriminate | intros; done ]
  | (* sl_status *)
    first [ exact I
          | repeat first [ apply Forall_nil_2
                         | apply Forall_cons_2; [split; simpl; discriminate|] ] ] ].

Tactic Notation "close_case" open_constr(n) :=
  eexists _, _, n; split; [reflexivity|]; split; [summary_tac | local_tac].

(** [cleanup], from its call to its first [await]. *)
Lemma cleanup_begin_ok a t w :
  heap w !! a = Some t →
  cleanup_begin a w =
    if page t then (Normal (Some ClosingPage), w)
    else if browser t then (Normal (Some ClosingBrowser), w)
    else (Normal None, unregister (sessionId t) (taskId t) w).
Proof.
  intros H. unfold cleanup_begin, bind. rewrite (getThis_ok _ _ _ H).
  by destruct (page t), (browser t).
Qed.

(** What a suspended [cleanup] goes on to: the next [await], or its end. *)
Definition cleanup_next (t : MessageSender) (c : Closing) (o : Oracle)
    : option Closing :=
  match c, o_closePage o with
  | ClosingPage, None => if browser t then Some ClosingBrowser else None
  | _, _ => None
  end.

Lemma cleanup_resume_ok a c o t w :
  heap w !! a = Some t →
  cleanup_resume a c o w =
    match cleanup_next t c o with
    | Some c' => (Normal (Some c'), w)
    | None => (Normal None, unregister (sessionId t) (taskId t) w)
    end.
Proof.
  intros H. unfold cleanup_resume, cleanup_next, bind, try_catch, await, throw, ret.
  destruct c; simpl.
  - destruct (o_closePage o); simpl; rewrite ?(getThis_ok _ _ _ H); simpl;
      [done|]. destruct (browser t); simpl; by rewrite ?(getThis_ok _ _ _ H).
  - destruct (o_closeBrowser o), (o_closePage o); simpl;
      by rewrite ?(getThis_ok _ _ _ H).
Qed.

Ltac mstep' :=
  first
    [ erewrite cleanup_begin_ok by heap_lookup
    | erewrite cleanup_resume_ok by heap_lookup ]; simpl.

(** Every move of [start()] to its next suspension has the shape
    [step_summary] and follows [step_local]; it never throws. *)
Lemma resume_summary a o w t :
  heap w !! a = Some t →
  ∃ w' t' new,
    resume a o w = (Normal tt, w') ∧
    step_summary a t w w' t' new ∧
    step_local a t t' new.
Proof.
  intros H. unfold resume. mrun.
  destruct (phase t) eqn:Hp.
  - (* the file is read *)
    unfold init_part, init_read, init_catch. mrun.
    destruct (o_readFile o) as [content|err]; mrun; [|close_case [_]].
    destruct (normalize content) as [|m0 ms] eqn:Hn; mrun;
      [close_case [_]|close_case []].
  - (* the browser is launched *)
    unfold init_part, init_launch, init_catch. mrun.
    destruct (o_remove o); mrun; [close_case [_]|].
    destruct (o_launch o); mrun; [close_case [_]|close_case []].
  - (* the page is opened *)
    unfold init_part, init_newPage, init_catch. mrun.
    destruct (o_newPage o); mrun; [close_case [_]|close_case []].
  - (* the page is set up *)
    unfold init_part, init_viewport, init_catch, start_running. mrun.
    destruct (o_setViewport o); mrun; [close_case [_]|].
    destruct (o_setUserAgent o); mrun; [close_case [_]|close_case [_]].
  - (* loading the pages *)
    unfold navigate_try, start_caught, start_failed, cleanup_called. mrun.
    destruct (o_gotoHome o); mrun.
    { mstep'. destruct (page t), (browser t); mrun; close_case [_]. }
    destruct (setCookies_ok o (parseCookies (cfg_cookie (config t))) w) as [r ->].
    destruct r; mrun.
    2:{ mstep'. destruct (page t), (browser t); mrun; close_case [_]. }
    destruct (o_gotoThread o); mrun.
    { mstep'. destruct (page t), (browser t); mrun; close_case [_]. }
    close_case [_].
  - (* the test of the loop *)
    unfold loop_test, cleanup_called, loop_failed, send_failed, read_message. mrun.
    destruct (isRunning t) eqn:Hr; mrun.
    + destruct (messages t !! currentIndex t) as [m|] eqn:Hm; mrun;
        [close_case []|close_case [_;_]].
    + mstep'. destruct (page t), (browser t); mrun; close_case [].
  - (* the calls into the page have settled *)
    unfold loop_send, send_message, loop_failed, send_failed. mrun.
    rewrite type_and_send_outcome. destruct (attempt o) as [| |msg]; mrun.
    + close_case [_;_;_].
    + close_case [_;_].
    + destruct (JsString.includes msg "textbox not found"); close_case [_;_].
  - (* the loop is left *)
    unfold loop_break, cleanup_called. mrun. mstep'.
    destruct (page t), (browser t); mrun; close_case [_].
  - (* cleanup goes on *)
    mstep'. unfold cleanup_next.
    destruct c, (o_closePage o), (browser t); mrun; close_case [].
  - close_case [].
Qed.

(** Every stage of [start()] has the shape [step_summary] and follows
    [step_local]; it never throws. *)
Lemma task_step_summary a o w t :
  heap w !! a = Some t →
  ∃ w' t' new,
    task_step a o w = (Normal tt, w') ∧
    step_summary a t w w' t' new ∧
    step_local a t t' new.
Proof.
  intros H. unfold task_step. mrun.
  destruct (phase t) eqn:Hp;
    try (apply resume_summary; exact H).
  - (* inside init *)
    unfold start_init, start_running, init, init_try, init_catch, init_read,
      init_launch, init_newPage, init_viewport. mrun.
    destruct (o_readFile o) as [content|err]; mrun; [|close_case [_]].
    destruct (normalize content) as [|m0 ms] eqn:Hn; mrun; [close_case [_]|].
    destruct (o_remove o); mrun; [close_case [_]|].
    destruct (o_launch o); mrun; [close_case [_]|].
    destruct (o_newPage o); mrun; [close_case [_]|].
    destruct (o_setViewport o); mrun; [close_case [_]|].
    destruct (o_setUserAgent o); mrun; [close_case [_]|].
    close_case [_].
  - (* loading the pages *)
    unfold start_navigate, navigate_try, start_catch, start_failed. mrun.
    destruct (o_gotoHome o); mrun; [close_case [_]|].
    destruct (setCookies_ok o (parseCookies (cfg_cookie (config t))) w) as [r ->].
    destruct r; mrun; [|close_case [_]].
    destruct (o_gotoThread o); mrun; [close_case [_]|].
    close_case [_].
  - (* the loop *)
    unfold sendMessages_step, start_catch, start_failed. mrun.
    destruct (isRunning t) eqn:Hr; mrun; [|close_case [] ].
    unfold send_try, read_message, send_message, send_catch, send_failed. mrun.
    destruct (messages t !! currentIndex t) as [m|] eqn:Hm; mrun.
    + rewrite type_and_send_outcome. destruct (attempt o) as [| |msg]; mrun.
      * close_case [_;_;_].
      * close_case [_;_;_].
      * destruct (JsString.includes msg "textbox not found"); mrun;
          [close_case [_;_;_]|close_case [_;_]].
    + simpl. close_case [_;_].
  - close_case [].
Qed.

(** [start] is the sequence of its stages; it never throws. *)
Lemma start_run a os w t :
  heap w !! a = Some t →
  start a os w = (Normal tt, run (TaskStep a <$> os) w).
Proof.
  revert w t. induction os as [|o os IH]; intros w t Ht; [done|].
  destruct (task_step_summary a o w t Ht) as (w' & t' & new & Heq & Hsum & _).
  simpl. unfold bind. rewrite Heq. simpl.
  apply (IH w' t'). by rewrite (ss_heap _ _ _ _ _ _ Hsum), lookup_insert_eq.
Qed.


(** A call of [stop()] up to its suspension, and a suspended call that goes
    on: neither throws; the entry of the task is removed, and "stopped" is
    emitted, when [cleanup] has nothing more to await. *)
Lemma stop_call_summary a now w t :
  heap w !! a = Some t →
  ∃ w' t' new,
    stop_call a now w = (Normal tt, w') ∧
    step_summary a t w w' t' new ∧
    isRunning t' = false ∧ stopTime t' = Some now ∧
    t' = set_stopCalls (stopCalls t') (set_stopTime (Some now) (set_isRunning false t)) ∧
    submitted a new = [] ∧
    if page t || browser t then
      ev_status <$> emitted a new = ["stopping"] ∧
      stopCalls t' = (stopCalls t ++ [if page t then ClosingPage else ClosingBrowser])%list ∧
      sessionTasks w' = sessionTasks w ∧ sessionBrowsers w' = sessionBrowsers w
    else
      ev_status <$> emitted a new = ["stopped"; "stopping"] ∧
      stopCalls t' = stopCalls t ∧
      sessionTasks w' = delete_entry (sessionId t) (taskId t) (sessionTasks w) ∧
      sessionBrowsers w' = delete_entry (sessionId t) (taskId t) (sessionBrowsers w).
Proof.
  intros H. unfold stop_call, stop_end. mrun. mstep'.
  destruct (page t) eqn:Hpg; [|destruct (browser t) eqn:Hb]; mrun.
  - eexists _, _, [_]. split; [reflexivity|]. split; [summary_tac|].
    simpl. rewrite !decide_True by done. done.
  - eexists _, _, [_]. split; [reflexivity|]. split; [summary_tac|].
    simpl. rewrite !decide_True by done. done.
  - eexists _, _, [_; _]. split; [reflexivity|]. split; [summary_tac|].
    simpl. rewrite !decide_True by done. done.
Qed.

Lemma stop_resume_summary a i o w t :
  heap w !! a = Some t →
  ∃ w' t' new,
    stop_resume a i o w = (Normal tt, w') ∧
    step_summary a t w w' t' new ∧
    submitted a new = [] ∧
    match stopCalls t !! i with
    | None => t' = t ∧ new = [] ∧ w' = w
    | Some c =>
        match cleanup_next t c o with
        | Some c' =>
            t' = set_stopCalls (<[i := c']> (stopCalls t)) t ∧ new = [] ∧
            sessionTasks w' = sessionTasks w ∧ sessionBrowsers w' = sessionBrowsers w
        | None =>
            t' = set_stopCalls (delete i (stopCalls t)) t ∧
            ev_status <$> emitted a new = ["stopped"] ∧
            sessionTasks w' = delete_entry (sessionId t) (taskId t) (sessionTasks w) ∧
            sessionBrowsers w' = delete_entry (sessionId t) (taskId t) (sessionBrowsers w)
        end
    end.
Proof.
  intros H. unfold stop_resume, stop_end. mrun.
  destruct (stopCalls t !! i) as [c|] eqn:Hc; mrun.
  - mstep'. destruct (cleanup_next t c o) as [c'|]; mrun.
    + eexists _, _, []. split; [reflexivity|]. split; [summary_tac|]. done.
    + eexists _, _, [_]. split; [reflexivity|]. split; [summary_tac|].
      simpl. rewrite !decide_True by done. done.
  - exists w, t, []. split; [done|]. split; [summary_tac|done].
Qed.

(** [getSessionTasks] only adds reports of running tasks to the trace. *)
Lemma emit_running_summary entries w :
  (∀ k a, (k, a) ∈ entries → is_Some (heap w !! a)) →
  ∃ new,
    emit_running entries w = (Normal tt, upd_trace (fun tr => new ++ tr)%list w) ∧
    Forall (running_report w) new.
Proof.
  revert w. induction entries as [|[k a] rest IH]; intros w Hin.
  - exists []. split; [|constructor]. simpl. unfold ret. by destruct w.
  - destruct (Hin k a) as [t Ht]; [left|].
    simpl. mrun. destruct (isRunning t) eqn:Hr; mrun.
    + set (e := Emit _ _ _ _).
      destruct (IH (upd_trace (cons e) w)) as (new & Heq & Hnew).
      { intros k' a' Hk'. simpl. apply (Hin k' a'). by right. }
      rewrite Heq. exists (new ++ [e])%list. split.
      * f_equal. destruct w; simpl. unfold upd_trace; simpl. by rewrite <- app_assoc.
      * apply Forall_app. split; [exact Hnew|]. constructor; [|constructor].
        by exists a, t, ("Task running - " +:+ pretty (totalSent t) +:+ " messages sent").
    + destruct (IH w) as (new & Heq & Hnew).
      { intros k' a' Hk'. apply (Hin k' a'). by right. }
      exists new. done.
Qed.

(** ** Stages are runs of moves *)

(** Two states that differ in the heap only. *)
Lemma world_heap_eq st sb h h' so ro ti tr :
  h = h' →
  {| sessionTasks := st; sessionBrowsers := sb; heap := h; sockets := so;
     rooms := ro; timers := ti; trace := tr |} =
  {| sessionTasks := st; sessionBrowsers := sb; heap := h'; sockets := so;
     rooms := ro; timers := ti; trace := tr |}.
Proof. by intros ->. Qed.

(** The outcomes of the awaited calls, as the hypotheses give them. *)
Ltac oracle_rewrite :=
  repeat match goal with
         | E : ?f ?o = _ |- context [?f ?o] => rewrite E
         | E : setCookies _ _ _ = _ |- _ => rewrite E
         end.

(** A state written as one record, with one assignment of the task. *)
Ltac flat_world :=
  lazy beta iota zeta delta
    [unregister upd_sessionBrowsers upd_sessionTasks upd_timers upd_heap
     upd_trace room_members heap trace rooms sockets sessionTasks
     sessionBrowsers timers status_data set_browser set_page set_isRunning
     set_currentIndex set_totalSent set_messages set_stopTime set_phase
     set_stopCalls taskId config sessionId browser page isRunning currentIndex
     totalSent messages startTime stopTime phase stopCalls];
  rewrite ?insert_insert_eq.

(** The innermost move of [start()] in the goal is computed. *)
Ltac eval_resume :=
  match goal with
  | |- context [resume ?a ?o ?W] =>
      lazymatch W with context [resume] => fail | _ => idtac end;
      let E := fresh in
      eassert (E : resume a o W = _);
      [ unfold resume; mrun;
        unfold init_part, init_read, init_launch, init_newPage, init_viewport,
          init_catch, start_running, navigate_try, start_caught, start_failed,
          cleanup_called, loop_test, loop_send, loop_break, loop_failed,
          send_failed, send_message, read_message;
        mrun; repeat mstep'; unfold cleanup_next;
        repeat (rewrite ?type_and_send_outcome; oracle_rewrite; mrun; repeat mstep');
        reflexivity
      | rewrite E; clear E; cbn [snd]; flat_world ]
  end.

(** A stage is [n] moves. *)
Ltac resumes n :=
  exists n; cbn [run foldl replicate apply_action];
  match goal with
  | |- ?lhs = _ =>
      let stage := fresh "stage" in
      set (stage := lhs); repeat eval_resume; subst stage
  end;
  try (progress f_equal);
  flat_world;
  first
    [ lazymatch goal with |- ?x = ?y => constr_eq x y end; reflexivity
    | apply world_heap_eq; symmetry; apply insert_id; assumption
    | reflexivity ].

(** A stage of [start()] is a run of its moves: what [task_step] does at
    once is what [resume] does from suspension to suspension when the
    awaited calls end the same way and no other code runs in between. A
    move of a task that has returned does nothing, so the number of moves
    is a bound. *)
Lemma task_step_resumes a o w t :
  heap w !! a = Some t →
  ∃ n, task_step a o w = (Normal tt, run (replicate n (Resume a o)) w).
Proof.
  intros H. unfold task_step.
  assert (Hone : ∃ n, resume a o w = (Normal tt, run (replicate n (Resume a o)) w)).
  { destruct (resume_summary a o w t H) as (w' & ? & ? & E & _). exists 1.
    simpl. by rewrite E. }
  mrun.
  destruct (phase t) eqn:Hp; try exact Hone; clear Hone.
  all: destruct w as [st sb hp so ro ti tr];
    destruct t as [tid cfg sid br pg rn ci ts ms stt spt ph scs];
    cbn [heap phase] in H, Hp; subst ph.
  - unfold start_init, start_running, init, init_try, init_catch, init_read,
      init_launch, init_newPage, init_viewport. mrun.
    destruct (o_readFile o) as [content|err] eqn:Eread; mrun; [|resumes 4].
    destruct (normalize content) as [|m0 ms'] eqn:Hn; mrun; [resumes 4|].
    destruct (o_remove o) eqn:E1; mrun; [resumes 4|].
    destruct (o_launch o) eqn:E2; mrun; [resumes 4|].
    destruct (o_newPage o) eqn:E3; mrun; [resumes 4|].
    destruct (o_setViewport o) eqn:E4; mrun; [resumes 4|].
    destruct (o_setUserAgent o) eqn:E5; mrun; [resumes 4|].
    resumes 4.
  - unfold start_navigate, navigate_try, start_catch, start_failed. mrun.
    destruct (o_gotoHome o) eqn:E1; mrun.
    2: match goal with
       | |- context [setCookies ?o ?cs ?w] =>
           destruct (setCookies_ok o cs w) as [r Hcook]; rewrite Hcook
       end;
       destruct r; mrun;
       [destruct (o_gotoThread o) eqn:E2; mrun; [|resumes 1]|].
    all: destruct pg, br, (o_closePage o) eqn:Ecp; resumes 3.
  - unfold sendMessages_step, start_catch, start_failed. mrun.
    destruct rn; mrun.
    + unfold send_try, read_message, send_message, send_catch, send_failed. mrun.
      destruct (ms !! ci) as [m|] eqn:Hm; mrun;
        [|simpl; resumes 1].
      rewrite type_and_send_outcome.
      destruct (attempt o) as [| |msg] eqn:Hatt; mrun; [resumes 2| |].
      2: destruct (JsString.includes msg "textbox not found") eqn:Hinc; mrun;
        [|resumes 2].
      all: destruct pg, br, (o_closePage o) eqn:Ecp; resumes 5.
    + destruct pg, br, (o_closePage o) eqn:Ecp; resumes 3.
  - by exists 0.
Qed.

(** The call of [stop()] that was suspended last. *)
Lemma pending_lookup (l : list Closing) c : (l ++ [c])%list !! length l = Some c.
Proof. by apply list_lookup_middle. Qed.

Lemma pending_insert (l : list Closing) c c' :
  <[length l := c']> (l ++ [c])%list = (l ++ [c'])%list.
Proof. induction l as [|x l IH]; simpl; [done|]. by rewrite IH. Qed.

Lemma pending_delete (l : list Closing) c : delete (length l) (l ++ [c])%list = l.
Proof. induction l as [|x l IH]; simpl; [done|]. by rewrite IH. Qed.

Lemma pending_none (l : list Closing) : l !! length l = None.
Proof. by apply lookup_ge_None_2. Qed.

(** The innermost move of [stop()] in the goal is computed. *)
Ltac eval_stop_resume :=
  match goal with
  | |- context [stop_resume ?a ?i ?o ?W] =>
      lazymatch W with context [stop_resume] => fail | _ => idtac end;
      let E := fresh in
      eassert (E : stop_resume a i o W = _);
      [ unfold stop_resume, stop_end; mrun;
        rewrite ?pending_lookup, ?pending_none; mrun; repeat mstep'; unfold cleanup_next;
        simpl;
        repeat (oracle_rewrite; mrun; repeat mstep');
        rewrite ?pending_insert, ?pending_delete;
        reflexivity
      | rewrite E; clear E; cbn [snd]; flat_world ]
  end.

(** [stop] is a run of the moves of one call: [stop_call], and then the
    call goes on, at most twice, when no other code runs in between. *)
Lemma stop_resumes a now o w t :
  heap w !! a = Some t →
  ∃ n, stop a now o w =
       (Normal tt,
        run (replicate n (StopResume a (length (stopCalls t)) o))
          (stop_call a now w).2).
Proof.
  intros H.
  destruct w as [st sb hp so ro ti tr];
    destruct t as [tid cfg sid br pg rn ci ts ms stt spt ph scs];
    cbn [heap stopCalls] in *.
  exists 2. cbn [run foldl replicate apply_action].
  unfold stop, stop_call, stop_end. mrun. repeat mstep'.
  destruct pg, br, (o_closePage o) eqn:Ecp; mrun.
  all: match goal with
  | |- ?lhs = _ =>
      let stage := fresh "stage" in
      set (stage := lhs); repeat eval_stop_resume; subst stage
  end.
  all: try (progress f_equal); flat_world.
  all: first
    [ lazymatch goal with |- ?x = ?y => constr_eq x y end; reflexivity
    | apply world_heap_eq; symmetry; apply insert_id; assumption
    | reflexivity ].
Qed.

(** ** The invariants hold in every state of a run *)

Lemma submitted_app a tr1 tr2 :
  submitted a (tr1 ++ tr2) = (submitted a tr1 ++ submitted a tr2)%list.
Proof. apply omap_app. Qed.

Lemma emitted_app a tr1 tr2 :
  emitted a (tr1 ++ tr2) = (emitted a tr1 ++ emitted a tr2)%list.
Proof. apply omap_app. Qed.

(** Effects of another object do not count for [a]. *)
Lemma submitted_other a b new :
  Forall (fun e => src_of e = Some b) new → a ≠ b → submitted a new = [].
Proof.
  intros Hall Hne. induction Hall as [|e new He _ IH]; [done|].
  simpl. rewrite IH. destruct e; simpl in *; try done.
  rewrite decide_False; [done|]. congruence.
Qed.

Lemma emitted_other a b new :
  Forall (fun e => src_of e = Some b) new → a ≠ b → emitted a new = [].
Proof.
  intros Hall Hne. induction Hall as [|e new He _ IH]; [done|].
  simpl. rewrite IH. destruct e; simpl in *; try done.
  rewrite decide_False; [done|]. congruence.
Qed.

Lemma own_event_src a t w e : own_event a t w e → src_of e = Some a.
Proof. destruct e; simpl; [by intros (-> & _)|done|by intros ->|by intros ->]. Qed.

Lemma delete_entry_lookup sid tid (obj : gmap string (gmap string addr)) sid' m k a :
  delete_entry sid tid obj !! sid' = Some m → m !! k = Some a →
  ∃ m', obj !! sid' = Some m' ∧ m' !! k = Some a.
Proof.
  unfold delete_entry. destruct (obj !! sid) as [m0|] eqn:E; [|eauto].
  destruct (decide (sid = sid')) as [->|Hne].
  - rewrite lookup_insert_eq. intros [= <-] Hk.
    apply lookup_delete_Some in Hk as [_ Hk]. eauto.
  - rewrite lookup_insert_ne by done. eauto.
Qed.

Lemma init_entry_lookup sid (obj : gmap string (gmap string addr)) sid' m k a :
  init_entry sid obj !! sid' = Some m → m !! k = Some a →
  obj !! sid' = Some m.
Proof.
  unfold init_entry. destruct (obj !! sid) as [m0|] eqn:E; [done|].
  destruct (decide (sid = sid')) as [->|Hne].
  - rewrite lookup_insert_eq. intros [= <-] Hk. by rewrite lookup_empty in Hk.
  - by rewrite lookup_insert_ne.
Qed.

(** A step of the shape [step_summary] keeps the invariants, provided the
    object that took it is in order afterwards. *)
Lemma summary_preserves a t w w' t' new :
  world_ok w → heap w !! a = Some t →
  step_summary a t w w' t' new →
  task_ok a t' (trace w') → phase_ok t' →
  world_ok w'.
Proof.
  intros Hok Ht [Hheap Htrace Hsock Hrooms _ Hreg Hid Hev] Hta Hpa.
  pose proof Hid as (Hid1 & Hid2 & Hid3 & _).
  assert (Hlook : ∀ a0 t0, heap w !! a0 = Some t0 →
            ∃ t0', heap w' !! a0 = Some t0' ∧ same_identity t0 t0' ∧
                   (a0 ≠ a → t0' = t0)).
  { intros a0 t0 H0. rewrite Hheap. destruct (decide (a0 = a)) as [->|Hne].
    - rewrite lookup_insert_eq. exists t'. rewrite Ht in H0. injection H0 as <-.
      split; [done|]. split; [done|]. intros Hx. by destruct Hx.
    - rewrite lookup_insert_ne by done. exists t0. unfold same_identity. done. }
  split.
  - intros sid m k a0 Hm Hk.
    assert (∃ m0, sessionTasks w !! sid = Some m0 ∧ m0 !! k = Some a0) as (m0 & Hm0 & Hk0).
    { destruct Hreg as [[E _]|[E _]]; rewrite E in Hm; [eauto|].
      eapply delete_entry_lookup; eauto. }
    destruct (ok_entries w Hok _ _ _ _ Hm0 Hk0) as (Hk' & t0 & H0 & Hs & Hti).
    split; [done|]. destruct (Hlook _ _ H0) as (t0' & H0' & (E1 & E2 & _) & _).
    exists t0'. split; [done|]. split; congruence.
  - intros a0 t0' H0'. rewrite Hheap in H0'.
    destruct (decide (a0 = a)) as [->|Hne].
    + rewrite lookup_insert_eq in H0'. injection H0' as <-.
      rewrite Hid3, Hid1. by apply (ok_target w Hok a).
    + rewrite lookup_insert_ne in H0' by done. by apply (ok_target w Hok a0).
  - rewrite Hrooms, Hsock. apply (ok_rooms w Hok).
  - intros a0 room rc d Hin. rewrite Htrace in Hin. rewrite Hsock.
    apply elem_of_app in Hin as [Hin|Hin].
    + rewrite Forall_forall in Hev. specialize (Hev _ Hin). simpl in Hev.
      destruct Hev as (-> & -> & -> & Hd & _).
      exists t'. rewrite Hheap, lookup_insert_eq. repeat split; try congruence.
      intros sock Hs. unfold room_members in Hs. apply elem_of_elements in Hs.
      destruct (rooms w !! sessionId t) as [members|] eqn:Hr; simpl in Hs;
        [|by apply not_elem_of_empty in Hs].
      by apply (ok_rooms w Hok _ members).
    + destruct (ok_emits w Hok _ _ _ _ Hin) as (t0 & H0 & -> & Hd & Hrc).
      destruct (Hlook _ _ H0) as (t0' & H0' & (E1 & E2 & _) & _).
      exists t0'. repeat split; try congruence. done.
  - intros e a0 Hin Hsrc. rewrite Htrace in Hin. rewrite Hheap.
    apply elem_of_app in Hin as [Hin|Hin].
    + rewrite Forall_forall in Hev. apply Hev, own_event_src in Hin.
      assert (a0 = a) as -> by congruence. by rewrite lookup_insert_eq.
    + destruct (ok_src w Hok _ _ Hin Hsrc) as [t0 H0].
      destruct (Hlook _ _ H0) as (t0' & H0' & _). rewrite <- Hheap. eauto.
  - intros a0 t0' H0'. destruct (decide (a0 = a)) as [->|Hne].
    + rewrite Hheap, lookup_insert_eq in H0'. by injection H0' as <-.
    + rewrite Hheap, lookup_insert_ne in H0' by done.
      pose proof (ok_tasks w Hok _ _ H0') as Hold.
      assert (Hsrc : Forall (fun e => src_of e = Some a) new).
      { eapply Forall_impl; [exact Hev|]. intros e. apply own_event_src. }
      unfold task_ok in *. rewrite Htrace, submitted_app, emitted_app.
      by rewrite (submitted_other a0 a new), (emitted_other a0 a new).
  - intros a0 t0' H0'. destruct (decide (a0 = a)) as [->|Hne].
    + rewrite Hheap, lookup_insert_eq in H0'. by injection H0' as <-.
    + rewrite Hheap, lookup_insert_ne in H0' by done. by apply (ok_phase w Hok a0).
Qed.

Lemma task_ok_step a t t' new tr :
  task_ok a t tr → phase_ok t → config t' = config t → step_local a t t' new →
  task_ok a t' (new ++ tr).
Proof.
  intros (Htot & Hcur & Hempty & Hinit & Htxt) [_ Hread] Hcfg
    [Hret Hph _ Hmsg _ Hi Hsend _ _ _].
  assert (Hfm : ∀ m, final_message t' m = final_message t m).
  { intros m. unfold final_message. by rewrite Hcfg. }
  unfold task_ok. rewrite submitted_app, emitted_app, length_app.
  assert (Hcase : phase t = InInit ∨ phase t ≠ InInit).
  { destruct (phase t); auto; right; discriminate. }
  destruct Hcase as [Hp|Hp].
  - (* the file has not been read *)
    destruct (Hempty (Hinit Hp)) as (Hc0 & Ht0 & Hr0 & Hna0 & _).
    destruct (Hi Hp) as (Hna & Hcase).
    destruct Hsend as [(Hs & Ht' & Hc')|(m & _ & _ & _ & [Hq|(Hq & _)] & _)];
      [|congruence|congruence].
    rewrite Hs, Ht', Hc', Hc0, Ht0. simpl.
    split; [by rewrite <- Htot|]. split.
    { intros Hne. symmetry. apply Nat.Div0.mod_0_l. }
    split; [|split; [intros He; by destruct Hph|]].
    + intros He. destruct Hcase as [Hne|(Hp' & Hr')]; [done|].
      repeat split; try done.
      * by rewrite Hr'.
      * by apply Forall_app.
      * by right.
    + intros i txt Hi'. rewrite Ht0 in Htot.
      symmetry in Htot. apply length_zero_iff_nil in Htot.
      by rewrite Htot in Hi'.
  - rewrite (Hmsg Hp).
    destruct (decide (messages t = [])) as [He|Hne].
    { (* [start()] has returned from an [init] that failed *)
      destruct (Hempty He) as (Hc0 & Ht0 & Hr0 & Hna0 & [?|Hq]); [done|].
      destruct (Hret Hq) as [-> ->]. simpl.
      split; [done|]. split; [done|]. split; [|split; [intros; congruence|done]].
      intros _. repeat split; try done. by right. }
    split; [|split; [|split; [intros He; by destruct Hne|
                       split; [intros He; by destruct Hph|]]]].
    + destruct Hsend as [(Hs & Ht' & _)|(m & Hs & Ht' & _)];
        rewrite Hs, Ht'; simpl; lia.
    + intros _. destruct Hsend as [(_ & Ht' & Hc')|(m & _ & Ht' & Hc' & _)];
        rewrite Ht', Hc'; [auto|].
      rewrite (Hcur Hne). apply Nat.Div0.add_mod_idemp_l.
    + intros i txt Hi'.
      destruct Hsend as [(Hs & _)|(m & Hs & _ & _ & Hfrom & _)];
        rewrite Hs in Hi'; simpl in Hi'.
      * destruct (Htxt i txt Hi') as (m & Hm & ->). exists m. by rewrite Hfm.
      * assert (Hm : messages t !! currentIndex t = Some m).
        { destruct Hfrom as [Hq|(_ & _ & Hm)]; [by apply Hread|done]. }
        destruct (decide (i < length (rev (submitted a tr)))) as [Hlt|Hge].
        -- rewrite lookup_app_l in Hi' by done.
           destruct (Htxt i txt Hi') as (m' & Hm' & ->). exists m'. by rewrite Hfm.
        -- rewrite lookup_app_r in Hi' by lia.
           rewrite length_rev in Hi', Hge.
           destruct (i - length (submitted a tr)) as [|n] eqn:Hd; simpl in Hi'; [|done].
           injection Hi' as <-. exists m. rewrite Hfm. split; [|done].
           assert (i = totalSent t) as -> by lia.
           by rewrite <- (Hcur Hne).
Qed.

Lemma phase_ok_step a t t' new :
  phase_ok t → step_local a t t' new → phase_ok t'.
Proof.
  intros [Hh Hread] [_ _ _ Hmsg _ _ Hsend Hcap _ Hhandles].
  split; [auto|]. intros m Hp'.
  destruct (Hcap m Hp') as (Hp & _ & Hm & Hs).
  rewrite Hmsg by congruence.
  destruct Hsend as [(_ & _ & ->)|(m0 & Hs' & _)]; [done|congruence].
Qed.

Lemma stop_local_refl t : stop_local t t.
Proof. exists (isRunning t), (stopTime t), (stopCalls t). split; [by destruct t|by left]. Qed.

Lemma stop_local_calls t cs : stop_local t (set_stopCalls cs t).
Proof. exists (isRunning t), (stopTime t), cs. split; [by destruct t|by left]. Qed.

Lemma task_ok_stop a t t' new tr :
  task_ok a t tr → stop_local t t' →
  submitted a new = [] →
  Forall (fun d => ev_status d = "stopping" ∨ ev_status d = "stopped") (emitted a new) →
  task_ok a t' (new ++ tr).
Proof.
  intros (Htot & Hcur & Hempty & Hinit & Htxt) (r & st & cs & -> & Hr) Hs He.
  unfold task_ok. rewrite submitted_app, emitted_app, Hs. simpl.
  split; [done|]. split; [done|]. split; [|done].
  intros Hm. destruct (Hempty Hm) as (? & ? & Hrun & Hna & ?).
  repeat split; try done; [destruct Hr; congruence|].
  apply Forall_app. split; [|done].
  eapply Forall_impl; [exact He|]. simpl. intros d [E|E]; rewrite E; done.
Qed.

Lemma phase_ok_stop t t' : phase_ok t → stop_local t t' → phase_ok t'.
Proof. by intros Hp (r & st & cs & -> & _). Qed.

(** A change that only removes entries of the registry, or adds empty
    session maps, keeps the invariants. *)
Lemma registry_change_ok w w' :
  world_ok w →
  heap w' = heap w → trace w' = trace w →
  sockets w' = sockets w → rooms w' = rooms w →
  (∀ sid m k a,
     sessionTasks w' !! sid = Some m → m !! k = Some a →
     ∃ m0, sessionTasks w !! sid = Some m0 ∧ m0 !! k = Some a) →
  world_ok w'.
Proof.
  intros Hok Hh Ht Hs Hr Hreg. split; rewrite ?Hh, ?Ht, ?Hs, ?Hr; try apply Hok.
  intros sid m k a Hm Hk. destruct (Hreg _ _ _ _ Hm Hk) as (m0 & Hm0 & Hk0).
  by apply (ok_entries w Hok sid m0).
Qed.

Lemma initSessionTasks_ok sid w : world_ok w → world_ok (initSessionTasks sid w).
Proof.
  intros Hok. apply (registry_change_ok w); try done.
  simpl. intros sid' m k a Hm Hk. exists m. split; [|done].
  by eapply init_entry_lookup.
Qed.

Lemma timer_fire_ok w : world_ok w → world_ok (timer_fire w).
Proof.
  intros Hok. unfold timer_fire. destruct (timers w) as [|sid rest]; [done|].
  apply (registry_change_ok w); try done.
  simpl. intros sid' m k a Hm Hk. exists m. split; [|done].
  apply lookup_delete_Some in Hm as [_ Hm]. done.
Qed.

Lemma sweep_ok w : world_ok w → world_ok (sweep w).
Proof. intros Hok. apply (registry_change_ok w); try done. simpl. eauto. Qed.

Lemma on_disconnect_ok sock w : world_ok w → world_ok (on_disconnect sock w).
Proof.
  intros Hok. split; simpl; try apply Hok.
  intros room members s Hm Hs. rewrite lookup_fmap in Hm.
  destruct (rooms w !! room) as [members0|] eqn:Hr; [|done].
  simpl in Hm. injection Hm as <-. apply elem_of_difference in Hs as [Hs _].
  by apply (ok_rooms w Hok room members0).
Qed.

Lemma fresh_socket w : sockets w !! fresh (dom (sockets w)) = None.
Proof. apply not_elem_of_dom, is_fresh. Qed.

Lemma fresh_addr w : heap w !! fresh (dom (heap w)) = None.
Proof. apply not_elem_of_dom, is_fresh. Qed.

Lemma on_connection_ok sid w : world_ok w → world_ok (on_connection sid w).2.
Proof.
  intros Hok. pose proof (fresh_socket w) as Hfresh.
  set (sock := fresh (dom (sockets w))) in *.
  assert (Hkeep : ∀ s r, sockets w !! s = Some r → <[sock:=sid]> (sockets w) !! s = Some r).
  { intros s r Hs. rewrite lookup_insert_ne; [done|]. intros <-. congruence. }
  split; simpl; fold sock; try apply Hok.
  - intros room members s Hm Hs.
    destruct (decide (sid = room)) as [->|Hne].
    + rewrite lookup_insert_eq in Hm. injection Hm as <-.
      apply elem_of_union in Hs as [Hs|Hs].
      * apply elem_of_singleton in Hs as ->. by rewrite lookup_insert_eq.
      * apply Hkeep. destruct (rooms w !! room) as [members0|] eqn:Hr; simpl in Hs;
          [|by apply not_elem_of_empty in Hs].
        by apply (ok_rooms w Hok room members0).
    + rewrite lookup_insert_ne in Hm by done. apply Hkeep.
      by apply (ok_rooms w Hok room members).
  - intros a room rc d Hin. apply elem_of_cons in Hin as [Hin|Hin]; [done|].
    destruct (ok_emits w Hok _ _ _ _ Hin) as (t & Ht & -> & Hd & Hrc).
    exists t. repeat split; try done. intros s Hs. apply Hkeep. auto.
  - intros e a Hin Hsrc. apply elem_of_cons in Hin as [->|Hin]; [done|].
    by apply (ok_src w Hok e).
Qed.

Lemma running_report_src w e : running_report w e → ∃ a t, src_of e = Some a ∧ heap w !! a = Some t.
Proof. intros (a & t & msg & -> & Ht & _). by exists a, t. Qed.

Lemma on_getSessionTasks_summary sock w :
  world_ok w →
  ∃ new, on_getSessionTasks sock w = upd_trace (fun tr => new ++ tr)%list w ∧
         Forall (running_report w) new.
Proof.
  intros Hok. unfold on_getSessionTasks.
  assert (Hnone : ∃ new, w = upd_trace (fun tr => new ++ tr)%list w ∧
                         Forall (running_report w) new).
  { exists []. split; [by destruct w|constructor]. }
  destruct (sockets w !! sock) as [sid|]; [|done].
  destruct (sessionTasks w !! sid) as [m|] eqn:Hm; [|done].
  destruct (emit_running_summary (map_to_list m) w) as (new & Heq & Hnew).
  { intros k a Hin. apply elem_of_map_to_list in Hin.
    destruct (ok_entries w Hok _ _ _ _ Hm Hin) as (_ & t & Ht & _). eauto. }
  exists new. by rewrite Heq.
Qed.

Lemma on_getSessionTasks_ok sock w : world_ok w → world_ok (on_getSessionTasks sock w).
Proof.
  intros Hok. destruct (on_getSessionTasks_summary sock w Hok) as (new & -> & Hnew).
  rewrite Forall_forall in Hnew.
  split; simpl; try apply Hok.
  - intros a room rc d Hin. apply elem_of_app in Hin as [Hin|Hin];
      [|by apply (ok_emits w Hok)].
    destruct (Hnew _ Hin) as (a' & t & msg & [= -> -> -> ->] & Ht & _).
    exists t. repeat split; try done.
    intros s Hs. unfold room_members in Hs. apply elem_of_elements in Hs.
    destruct (rooms w !! sessionId t) as [members|] eqn:Hr; simpl in Hs;
      [|by apply not_elem_of_empty in Hs].
    by apply (ok_rooms w Hok _ members).
  - intros e a Hin Hsrc. apply elem_of_app in Hin as [Hin|Hin];
      [|by apply (ok_src w Hok e)].
    destruct (running_report_src _ _ (Hnew _ Hin)) as (a' & t & Hs' & Ht).
    assert (a = a') as -> by congruence. eauto.
  - intros a t Ht. destruct (ok_tasks w Hok a t Ht) as (Htot & Hcur & Hempty & Hinit & Htxt).
    unfold task_ok. rewrite submitted_app, emitted_app.
    assert (Hsub : submitted a new = []).
    { clear -Hnew. induction new as [|e new IH]; [done|]. simpl.
      rewrite IH by (intros; apply Hnew; by right).
      destruct (Hnew e) as (a' & t & msg & -> & _); [left|done]. }
    rewrite Hsub. simpl. split; [done|]. split; [done|]. split; [|done].
    intros He. destruct (Hempty He) as (? & ? & Hrun & ? & ?).
    repeat split; try done. apply Forall_app. split; [|done].
    apply Forall_forall. intros d Hd. unfold emitted in Hd.
    apply list_elem_of_omap in Hd as (e & Hin & Hd).
    destruct (Hnew _ Hin) as (a' & t' & msg & -> & Ht' & Hr'). simpl in Hd.
    destruct (decide (a' = a)) as [->|]; [|done]. congruence.
Qed.

(** The session of the request has a task map once [initSessionTasks] ran. *)
Lemma init_entry_present sid (obj : gmap string (gmap string addr)) :
  ∃ m, init_entry sid obj !! sid = Some m ∧
       (obj !! sid = Some m ∨ (obj !! sid = None ∧ m = ∅)).
Proof.
  unfold init_entry. destruct (obj !! sid) as [m|] eqn:E.
  - exists m. auto.
  - exists ∅. rewrite lookup_insert_eq. auto.
Qed.

(** The three outcomes of a start-task request. *)
Lemma post_start_task_cases sid body now w :
  let w0 := initSessionTasks sid w in
  let tid := default EmptyString (b_threadId body) in
  let m := default ∅ (sessionTasks w0 !! sid) in
  (has_required_fields body = false ∧
   post_start_task sid body now w = (BadRequest "Missing required fields", w0)) ∨
  (has_required_fields body = true ∧
   js_truthy (js_get m tid) = true ∧
   post_start_task sid body now w =
     (BadRequest "Task already running for this thread in your session", w0)) ∨
  (has_required_fields body = true ∧
   js_truthy (js_get m tid) = false ∧
   ∃ w', post_start_task sid body now w = (TaskStarted tid sid, w') ∧
         heap w' = <[fresh (dom (heap w)) :=
                       new_MessageSender tid (request_config body) sid now]> (heap w) ∧
         sessionTasks w' =
           <[sid := <[tid := fresh (dom (heap w))]> m]> (sessionTasks w0) ∧
         sessionBrowsers w' = sessionBrowsers w0 ∧
         sockets w' = sockets w ∧ rooms w' = rooms w ∧
         timers w' = timers w ∧ trace w' = trace w).
Proof.
  intros w0 tid m. unfold post_start_task, has_required_fields. cbv zeta.
  change (initSessionTasks sid w) with w0.
  change (default EmptyString (b_threadId body)) with tid.
  change (default ∅ (sessionTasks w0 !! sid)) with m.
  destruct (JsString.truthy_opt (b_cookie body)),
           (JsString.truthy_opt (b_threadId body)),
           (bool_decide (is_Some (b_file body))),
           (JsString.truthy_opt (b_delay body)); cbn [negb orb andb]; auto.
  destruct (js_truthy (js_get m tid)) eqn:Hj; [right; left; done|].
  right. right. repeat split; try done. eexists. split; [reflexivity|]. done.
Qed.

Lemma js_get_undefined {V} (obj : gmap string V) key :
  js_truthy (js_get obj key) = false →
  obj !! key = None ∧ key ∉ object_prototype_keys.
Proof.
  unfold js_get. destruct (obj !! key); [done|].
  case_bool_decide; [done|]. done.
Qed.

Lemma js_get_own {V} (obj : gmap string V) key v :
  obj !! key = Some v → js_get obj key = Own v.
Proof. intros H. unfold js_get. by rewrite H. Qed.

Lemma post_start_task_ok sid body now w :
  world_ok w → world_ok (post_start_task sid body now w).2.
Proof.
  intros Hok0. pose proof (initSessionTasks_ok sid w Hok0) as Hok.
  destruct (post_start_task_cases sid body now w)
    as [(_ & ->)|[(_ & _ & ->)|(_ & Hj & w' & -> & Hh & Hst & Hsb & Hso & Hro & Hti & Htr)]];
    [done|done|]. simpl.
  set (w0 := initSessionTasks sid w) in *.
  set (tid := default EmptyString (b_threadId body)) in *.
  set (a := fresh (dom (heap w))) in *.
  apply js_get_undefined in Hj as [Hnone Hkey].
  assert (Hfresh : heap w !! a = None) by apply fresh_addr.
  assert (Hkeep : ∀ a0 t0, heap w !! a0 = Some t0 → heap w' !! a0 = Some t0).
  { intros a0 t0 H0. rewrite Hh, lookup_insert_ne; [done|]. intros <-. congruence. }
  split.
  - intros sid' m' k a0 Hm Hk. rewrite Hst in Hm.
    destruct (decide (sid = sid')) as [<-|Hne].
    + rewrite lookup_insert_eq in Hm. injection Hm as <-.
      destruct (decide (tid = k)) as [<-|Hnk].
      * rewrite lookup_insert_eq in Hk. injection Hk as <-.
        split; [done|]. eexists. rewrite Hh, lookup_insert_eq. done.
      * rewrite lookup_insert_ne in Hk by done.
        change (init_entry sid (sessionTasks w)) with (sessionTasks w0) in Hk.
        destruct (sessionTasks w0 !! sid) as [m0|] eqn:Hm0; simpl in Hk;
          [|by rewrite lookup_empty in Hk].
        destruct (ok_entries w0 Hok _ _ _ _ Hm0 Hk) as (? & t0 & H0 & ?).
        split; [done|]. exists t0. split; [by apply Hkeep|done].
    + rewrite lookup_insert_ne in Hm by done.
      destruct (ok_entries w0 Hok _ _ _ _ Hm Hk) as (? & t0 & H0 & ?).
      split; [done|]. exists t0. split; [by apply Hkeep|done].
  - intros a0 t0 H0. rewrite Hh in H0.
    destruct (decide (a = a0)) as [<-|Hne].
    + rewrite lookup_insert_eq in H0. by injection H0 as <-.
    + rewrite lookup_insert_ne in H0 by done. by apply (ok_target w Hok0 a0).
  - rewrite Hro, Hso. apply Hok0.
  - intros a0 room rc d Hin. rewrite Htr in Hin. rewrite Hso.
    destruct (ok_emits w Hok0 _ _ _ _ Hin) as (t0 & H0 & ?).
    exists t0. split; [by apply Hkeep|done].
  - intros e a0 Hin Hsrc. rewrite Htr in Hin.
    destruct (ok_src w Hok0 _ _ Hin Hsrc) as [t0 H0]. exists t0. by apply Hkeep.
  - intros a0 t0 H0. rewrite Htr. rewrite Hh in H0.
    destruct (decide (a = a0)) as [<-|Hne].
    + rewrite lookup_insert_eq in H0. injection H0 as <-.
      assert (Hnosrc : ∀ e, e ∈ trace w → src_of e ≠ Some a).
      { intros e Hin Hsrc. destruct (ok_src w Hok0 _ _ Hin Hsrc). congruence. }
      assert (Hsub : submitted a (trace w) = []).
      { clear -Hnosrc. induction (trace w) as [|e tr IH]; [done|]. simpl.
        rewrite IH by (intros; apply Hnosrc; by right).
        specialize (Hnosrc e (list_elem_of_here _ _)).
        destruct e; simpl in *; try done. rewrite decide_False; [done|]. congruence. }
      assert (Hem : emitted a (trace w) = []).
      { clear -Hnosrc. induction (trace w) as [|e tr IH]; [done|]. simpl.
        rewrite IH by (intros; apply Hnosrc; by right).
        specialize (Hnosrc e (list_elem_of_here _ _)).
        destruct e; simpl in *; try done. rewrite decide_False; [done|]. congruence. }
      unfold task_ok. rewrite Hsub, Hem. simpl.
      split; [done|]. split; [done|]. split; [|split; [done|]].
      * intros _. repeat split; try done; [constructor|by left].
      * intros i txt Hi. by destruct i.
    + rewrite lookup_insert_ne in H0 by done. by apply (ok_tasks w Hok0).
  - intros a0 t0 H0. rewrite Hh in H0.
    destruct (decide (a = a0)) as [<-|Hne].
    + rewrite lookup_insert_eq in H0. by injection H0 as <-.
    + rewrite lookup_insert_ne in H0 by done. by apply (ok_phase w Hok0 a0).
Qed.

(** The events of a call of [stop()]. *)
Lemma stop_statuses a new (sts : list string) :
  ev_status <$> emitted a new = sts →
  Forall (fun st => st = "stopping" ∨ st = "stopped") sts →
  Forall (fun d => ev_status d = "stopping" ∨ ev_status d = "stopped") (emitted a new).
Proof. intros <- H. by apply Forall_fmap in H. Qed.

(** The entry a stop-task request finds, when it finds one. *)
Lemma post_stop_task_cases sid tid now w :
  (post_stop_task sid tid now w).2 = w ∨
  ∃ k m a, tid = Some k ∧ sessionTasks w !! sid = Some m ∧ m !! k = Some a ∧
           post_stop_task sid tid now w = (TaskStopped, (stop_call a now w).2).
Proof.
  unfold post_stop_task.
  destruct tid as [k|]; [|by left].
  destruct (sessionTasks w !! sid) as [m|] eqn:Hm; [|by left].
  destruct (JsString.truthy k); [|by left].
  unfold js_get. destruct (m !! k) as [a|] eqn:Ha; [|case_bool_decide; by left].
  right. by exists k, m, a.
Qed.

(** The shape of a call of [stop()] up to its suspension. *)
Lemma stop_call_move a now w t :
  heap w !! a = Some t →
  ∃ w' t' new,
    stop_call a now w = (Normal tt, w') ∧
    step_summary a t w w' t' new ∧
    stop_local t t' ∧ submitted a new = [] ∧
    Forall (fun d => ev_status d = "stopping" ∨ ev_status d = "stopped") (emitted a new) ∧
    count_status "stopping" a new + length (stopCalls t) =
      count_status "stopped" a new + length (stopCalls t').
Proof.
  intros Ht.
  destruct (stop_call_summary a now w t Ht)
    as (w' & t' & new & Heq & Hsum & _ & _ & Ht' & Hsub & Hcase).
  exists w', t', new. split; [done|]. split; [done|].
  split; [exists false, (Some now), (stopCalls t'); split; [done|by right]|].
  split; [done|]. unfold count_status.
  destruct (page t || browser t).
  - destruct Hcase as (Hem & -> & _). split.
    + apply (stop_statuses _ _ _ Hem). constructor; [by left|constructor].
    + rewrite Hem, length_app. simpl. lia.
  - destruct Hcase as (Hem & -> & _). split.
    + apply (stop_statuses _ _ _ Hem).
      constructor; [by right|]. constructor; [by left|constructor].
    + rewrite Hem. simpl. lia.
Qed.

(** The shape of a suspended call of [stop()] that goes on. *)
Lemma stop_resume_move a i o w t :
  heap w !! a = Some t →
  ∃ w' t' new,
    stop_resume a i o w = (Normal tt, w') ∧
    step_summary a t w w' t' new ∧
    stop_local t t' ∧ isRunning t' = isRunning t ∧ submitted a new = [] ∧
    Forall (fun d => ev_status d = "stopping" ∨ ev_status d = "stopped") (emitted a new) ∧
    count_status "stopping" a new + length (stopCalls t) =
      count_status "stopped" a new + length (stopCalls t').
Proof.
  intros Ht.
  destruct (stop_resume_summary a i o w t Ht)
    as (w' & t' & new & Heq & Hsum & Hsub & Hcase).
  exists w', t', new. split; [done|]. split; [done|].
  destruct (stopCalls t !! i) as [c|] eqn:Hc.
  - destruct (cleanup_next t c o) as [c'|].
    + destruct Hcase as (-> & -> & _).
      split; [apply stop_local_calls|]. split; [done|]. split; [done|].
      split; [constructor|]. simpl. by rewrite length_insert.
    + destruct Hcase as (-> & Hem & _).
      split; [apply stop_local_calls|]. split; [done|]. split; [done|]. split.
      * apply (stop_statuses _ _ _ Hem). constructor; [by right|constructor].
      * unfold count_status. rewrite Hem. simpl.
        rewrite length_delete by done.
        apply lookup_lt_Some in Hc. lia.
  - destruct Hcase as (-> & -> & _).
    split; [apply stop_local_refl|]. split; [done|]. split; [done|].
    split; [constructor|done].
Qed.

Lemma stop_call_ok a now w : world_ok w → world_ok (stop_call a now w).2.
Proof.
  intros Hok. destruct (heap w !! a) as [t|] eqn:Ht.
  - destruct (stop_call_move a now w t Ht)
      as (w' & t' & new & -> & Hsum & Hloc & Hsub & Hem & _).
    simpl. apply (summary_preserves a t w w' t' new Hok Ht Hsum).
    + rewrite (ss_trace _ _ _ _ _ _ Hsum).
      apply (task_ok_stop a t); try done. by apply (ok_tasks w Hok).
    + apply (phase_ok_stop t); [by apply (ok_phase w Hok a)|done].
  - unfold stop_call, bind, setThis. by rewrite Ht.
Qed.

Lemma post_stop_task_ok sid tid now w :
  world_ok w → world_ok (post_stop_task sid tid now w).2.
Proof.
  intros Hok.
  destruct (post_stop_task_cases sid tid now w) as [->|(k & m & a & _ & _ & _ & ->)];
    [done|]. by apply stop_call_ok.
Qed.

Lemma stop_resume_ok a i o w : world_ok w → world_ok (stop_resume a i o w).2.
Proof.
  intros Hok. destruct (heap w !! a) as [t|] eqn:Ht.
  - destruct (stop_resume_move a i o w t Ht)
      as (w' & t' & new & -> & Hsum & Hloc & _ & Hsub & Hem & _).
    simpl. apply (summary_preserves a t w w' t' new Hok Ht Hsum).
    + rewrite (ss_trace _ _ _ _ _ _ Hsum).
      apply (task_ok_stop a t); try done. by apply (ok_tasks w Hok).
    + apply (phase_ok_stop t); [by apply (ok_phase w Hok a)|done].
  - unfold stop_resume, bind, getThis. by rewrite Ht.
Qed.

Lemma step_ok a t w w' t' new :
  world_ok w → heap w !! a = Some t →
  step_summary a t w w' t' new → step_local a t t' new →
  world_ok w'.
Proof.
  intros Hok Ht Hsum Hloc.
  apply (summary_preserves a t w w' t' new Hok Ht Hsum).
  - rewrite (ss_trace _ _ _ _ _ _ Hsum).
    apply (task_ok_step a t);
      [by apply (ok_tasks w Hok)|by apply (ok_phase w Hok a)| |done].
    apply (ss_identity _ _ _ _ _ _ Hsum).
  - apply (phase_ok_step a t t' new); [by apply (ok_phase w Hok a)|done].
Qed.

Lemma task_step_ok a o w : world_ok w → world_ok (task_step a o w).2.
Proof.
  intros Hok. destruct (heap w !! a) as [t|] eqn:Ht.
  - destruct (task_step_summary a o w t Ht) as (w' & t' & new & -> & Hsum & Hloc).
    by apply (step_ok a t w w' t' new).
  - unfold task_step, bind, getThis. by rewrite Ht.
Qed.

Lemma resume_ok a o w : world_ok w → world_ok (resume a o w).2.
Proof.
  intros Hok. destruct (heap w !! a) as [t|] eqn:Ht.
  - destruct (resume_summary a o w t Ht) as (w' & t' & new & -> & Hsum & Hloc).
    by apply (step_ok a t w w' t' new).
  - unfold resume, bind, getThis. by rewrite Ht.
Qed.

Lemma initial_world_ok : world_ok initial_world.
Proof. split; simpl; intros *; try (rewrite lookup_empty); try done; intros H; by apply elem_of_nil in H. Qed.

Lemma apply_action_ok act w : world_ok w → world_ok (apply_action act w).
Proof.
  intros Hok. destruct act; simpl.
  - by apply initSessionTasks_ok.
  - by apply post_start_task_ok.
  - by apply post_stop_task_ok.
  - by apply initSessionTasks_ok.
  - done.
  - by apply on_connection_ok.
  - by apply on_disconnect_ok.
  - by apply on_getSessionTasks_ok.
  - by apply sweep_ok.
  - by apply timer_fire_ok.
  - by apply task_step_ok.
  - by apply resume_ok.
  - by apply stop_resume_ok.
Qed.

Lemma run_ok acts w : world_ok w → world_ok (run acts w).
Proof.
  revert w. induction acts as [|act acts IH]; intros w Hok; [done|].
  simpl. apply IH. by apply apply_action_ok.
Qed.


(** ** What a run keeps *)

Lemma same_identity_refl t : same_identity t t.
Proof. by unfold same_identity. Qed.

Lemma same_identity_trans t1 t2 t3 :
  same_identity t1 t2 → same_identity t2 t3 → same_identity t1 t3.
Proof. unfold same_identity. intros (? & ? & ? & ?) (? & ? & ? & ?). repeat split; congruence. Qed.

Global Instance evolves_preorder : PreOrder evolves.
Proof.
  split.
  - intros w. split; [|done|by exists []].
    intros a t Ht. exists t. split; [done|]. split; [apply same_identity_refl|done].
  - intros w1 w2 w3 [Hh1 Hs1 [n1 Ht1]] [Hh2 Hs2 [n2 Ht2]]. split.
    + intros a t Ht. destruct (Hh1 a t Ht) as (t' & Ht' & Hid & Hret).
      destruct (Hh2 a t' Ht') as (t'' & Ht'' & Hid' & Hret').
      exists t''. split; [done|]. split; [by eapply same_identity_trans|].
      intros Hp. destruct (Hret Hp) as (Hp' & Hm' & Hts' & Hci').
      destruct (Hret' Hp') as (Hp'' & Hm'' & Hts'' & Hci'').
      repeat split; congruence.
    + auto.
    + exists (n2 ++ n1)%list. by rewrite Ht2, Ht1, app_assoc.
Qed.

Lemma evolves_same w w' :
  heap w' = heap w → sockets w' = sockets w → trace w' = trace w → evolves w w'.
Proof.
  intros Hh Hs Ht. split; rewrite ?Hh, ?Hs, ?Ht; [|done|by exists []].
  intros a t Ha. exists t. split; [done|]. split; [apply same_identity_refl|done].
Qed.

Lemma evolves_summary a t w w' t' new :
  heap w !! a = Some t →
  step_summary a t w w' t' new →
  (phase t = Returned →
     phase t' = Returned ∧ messages t' = messages t ∧
     totalSent t' = totalSent t ∧ currentIndex t' = currentIndex t) →
  evolves w w'.
Proof.
  intros Ht Hsum Hret. split.
  - intros a0 t0 H0. rewrite (ss_heap _ _ _ _ _ _ Hsum).
    destruct (decide (a0 = a)) as [->|Hne].
    + rewrite lookup_insert_eq. exists t'. rewrite Ht in H0. injection H0 as <-.
      split; [done|]. split; [apply Hsum|done].
    + rewrite lookup_insert_ne by done. exists t0.
      split; [done|]. split; [apply same_identity_refl|done].
  - by rewrite (ss_sockets _ _ _ _ _ _ Hsum).
  - exists new. apply Hsum.
Qed.

Lemma apply_action_evolves act w : world_ok w → evolves w (apply_action act w).
Proof.
  intros Hok. destruct act; simpl; try (by apply evolves_same).
  - (* start-task *)
    destruct (post_start_task_cases sid body now w)
      as [(_ & ->)|[(_ & _ & ->)|(_ & _ & w' & -> & Hh & _ & _ & Hso & _ & _ & Htr)]];
      [by apply evolves_same|by apply evolves_same|]. simpl.
    split; [|by rewrite Hso|exists []; by rewrite Htr].
    intros a t Ht. exists t. rewrite Hh, lookup_insert_ne.
    + split; [done|]. split; [apply same_identity_refl|done].
    + intros E. rewrite <- E, fresh_addr in Ht. done.
  - (* stop-task *)
    destruct (post_stop_task_cases sid tid now w)
      as [->|(k & m & a & _ & Hm & Ha & ->)]; [done|].
    simpl. destruct (ok_entries w Hok _ _ _ _ Hm Ha) as (_ & t & Ht & _).
    destruct (stop_call_move a now w t Ht)
      as (w' & t' & new & -> & Hsum & (r & st & cs & -> & _) & _).
    by apply (evolves_summary a t w w' _ new Ht Hsum).
  - (* connection *)
    split; simpl; [|intros s r Hs|by eexists [_]].
    + intros a t Ht. exists t. split; [done|]. split; [apply same_identity_refl|done].
    + rewrite lookup_insert_ne; [done|]. intros E. rewrite <- E, fresh_socket in Hs. done.
  - (* getSessionTasks *)
    destruct (on_getSessionTasks_summary sock w Hok) as (new & -> & _).
    split; simpl; [|done|by exists new].
    intros a t Ht. exists t. split; [done|]. split; [apply same_identity_refl|done].
  - (* timer *)
    unfold timer_fire. destruct (timers w); by apply evolves_same.
  - (* a stage of a task *)
    destruct (heap w !! a) as [t|] eqn:Ht.
    + destruct (task_step_summary a o w t Ht) as (w' & t' & new & -> & Hsum & Hloc).
      simpl. apply (evolves_summary a t w w' t' new Ht Hsum).
      intros Hp. destruct (sl_returned _ _ _ _ Hloc Hp) as [-> _]. done.
    + unfold task_step, bind, getThis. rewrite Ht. done.
  - (* a task goes on *)
    destruct (heap w !! a) as [t|] eqn:Ht.
    + destruct (resume_summary a o w t Ht) as (w' & t' & new & -> & Hsum & Hloc).
      simpl. apply (evolves_summary a t w w' t' new Ht Hsum).
      intros Hp. destruct (sl_returned _ _ _ _ Hloc Hp) as [-> _]. done.
    + unfold resume, bind, getThis. rewrite Ht. done.
  - (* a call of stop goes on *)
    destruct (heap w !! a) as [t|] eqn:Ht.
    + destruct (stop_resume_move a i o w t Ht)
        as (w' & t' & new & -> & Hsum & (r & st & cs & -> & _) & _).
      by apply (evolves_summary a t w w' _ new Ht Hsum).
    + unfold stop_resume, bind, getThis. rewrite Ht. done.
Qed.

Lemma run_evolves acts w : world_ok w → evolves w (run acts w).
Proof.
  revert w. induction acts as [|act acts IH]; intros w Hok; [done|].
  simpl. transitivity (apply_action act w).
  - by apply apply_action_evolves.
  - apply IH. by apply apply_action_ok.
Qed.

(** ** Strings *)

Module StringFacts.
Import JsString.

Lemma split_segments_free sep s seg : seg ∈ split sep s → mem sep seg = false.
Proof.
  revert seg. induction s as [|c r IH]; simpl; intros seg H.
  - apply list_elem_of_singleton in H. by subst.
  - destruct (Ascii.eqb c sep) eqn:E.
    + apply elem_of_cons in H as [->|H]; [done|]. by apply IH.
    + destruct (split sep r) as [|s0 segs] eqn:Es.
      * apply list_elem_of_singleton in H. subst. simpl. by rewrite E.
      * apply elem_of_cons in H as [->|H].
        -- simpl. rewrite E. simpl. apply IH. left.
        -- apply IH. by right.
Qed.

Lemma split_free sep s : mem sep s = false → split sep s = [s].
Proof.
  induction s as [|c r IH]; simpl; [done|].
  intros H. apply orb_false_iff in H as [H1 H2]. by rewrite H1, (IH H2).
Qed.

Lemma split_app sep s r :
  mem sep s = false → split sep (s +:+ String sep r) = s :: split sep r.
Proof.
  induction s as [|c s IH]; simpl; intros H.
  - by rewrite Ascii.eqb_refl.
  - apply orb_false_iff in H as [H1 H2]. by rewrite H1, (IH H2).
Qed.

Lemma mem_trimStart c s : mem c s = false → mem c (trimStart s) = false.
Proof.
  induction s as [|d r IH]; simpl; [done|]. intros H.
  destruct (is_whitespace d); [|done]. apply orb_false_iff in H as [_ H]. auto.
Qed.

Lemma mem_trimEnd c s : mem c s = false → mem c (trimEnd s) = false.
Proof.
  induction s as [|d r IH]; simpl; [done|]. intros H.
  apply orb_false_iff in H as [H1 H2].
  destruct (is_whitespace d && is_empty (trimEnd r)); simpl; [done|].
  rewrite H1. simpl. auto.
Qed.

Lemma mem_trim c s : mem c s = false → mem c (trim s) = false.
Proof. intros. by apply mem_trimEnd, mem_trimStart. Qed.

End StringFacts.

(** ** Credential strings *)

Lemma parsePair_free pair c :
  c ∈ parsePair pair →
  JsString.mem "=" (cookie_name c) = false ∧
  JsString.mem "=" (cookie_value c) = false.
Proof.
  unfold parsePair.
  destruct (JsString.split "=" (JsString.trim pair)) as [|name [|value rest]] eqn:E;
    try (intros H; by apply elem_of_nil in H).
  destruct (JsString.truthy name && JsString.truthy value);
    [|intros H; by apply elem_of_nil in H].
  intros H. apply list_elem_of_singleton in H. subst c. simpl.
  split; apply StringFacts.mem_trim,
           (StringFacts.split_segments_free "=" (JsString.trim pair)); rewrite E.
  - left.
  - right; left.
Qed.

(** A string that contains '=' begins with a segment free of '=' that an '='
    follows. *)
Lemma first_equals s :
  JsString.mem "=" s = true →
  ∃ name r, JsString.mem "=" name = false ∧ s = name +:+ "=" +:+ r.
Proof.
  induction s as [|c s IH]; simpl; [done|].
  destruct (Ascii.eqb c "=") eqn:E; simpl.
  - intros _. apply Ascii.eqb_eq in E as ->. by exists EmptyString, s.
  - intros H. destruct (IH H) as (name & r & Hn & ->).
    exists (String c name), r. simpl. by rewrite E.
Qed.

(** C10. Every cookie of the result comes from one fragment of the
    credential string between two ';'. A fragment, once trimmed, is split at
    every '=' and only its first two segments are used: a fragment
    [name=value] or [name=value=rest] yields the cookie whose name is
    [name] and whose value is [value], both trimmed, so that [=rest] is
    dropped, unless [name] or [value] is empty, and then it yields nothing;
    a fragment without '=' yields nothing; and every fragment is of one of
    these forms. No value in the result contains '='. *)
Theorem parseCookies_truncates_at_second_equals :
  (∀ cookieString c,
     c ∈ parseCookies cookieString ↔
     ∃ pair, pair ∈ JsString.split ";" cookieString ∧ c ∈ parsePair pair) ∧
  (∀ pair,
     JsString.mem "=" (JsString.trim pair) = false → parsePair pair = []) ∧
  (∀ pair name value,
     JsString.mem "=" name = false → JsString.mem "=" value = false →
     (JsString.trim pair = name +:+ "=" +:+ value ∨
      ∃ rest, JsString.trim pair = name +:+ "=" +:+ value +:+ "=" +:+ rest) →
     parsePair pair =
       if JsString.truthy name && JsString.truthy value
       then [ {| cookie_name := JsString.trim name;
                 cookie_value := JsString.trim value;
                 cookie_domain := ".facebook.com";
                 cookie_path := "/";
                 cookie_httpOnly := false;
                 cookie_secure := true |} ]
       else []) ∧
  (∀ pair,
     JsString.mem "=" (JsString.trim pair) = true →
     ∃ name value,
       JsString.mem "=" name = false ∧ JsString.mem "=" value = false ∧
       (JsString.trim pair = name +:+ "=" +:+ value ∨
        ∃ rest, JsString.trim pair = name +:+ "=" +:+ value +:+ "=" +:+ rest)) ∧
  (∀ cookieString c,
     c ∈ parseCookies cookieString →
     JsString.mem "=" (cookie_value c) = false).
Proof.
  split; [|split; [|split; [|split]]].
  - intros s c. unfold parseCookies. rewrite list_elem_of_bind.
    split; intros (pair & ? & ?); by exists pair.
  - intros pair H. unfold parsePair. by rewrite (StringFacts.split_free _ _ H).
  - intros pair name value Hn Hv [E|[rest E]]; unfold parsePair; rewrite E.
    + change (name +:+ "=" +:+ value) with (name +:+ String "=" value).
      rewrite (StringFacts.split_app _ _ _ Hn), (StringFacts.split_free _ _ Hv). done.
    + change (name +:+ "=" +:+ value +:+ "=" +:+ rest)
        with (name +:+ String "=" (value +:+ String "=" rest)).
      rewrite (StringFacts.split_app _ _ _ Hn), (StringFacts.split_app _ _ _ Hv). done.
  - intros pair H. destruct (first_equals _ H) as (name & r & Hn & E).
    exists name. destruct (JsString.mem "=" r) eqn:Hr.
    + destruct (first_equals _ Hr) as (value & rest & Hv & ->).
      exists value. split; [done|]. split; [done|]. right. by exists rest.
    + exists r. split; [done|]. split; [done|]. by left.
  - intros s c H. unfold parseCookies in H.
    apply list_elem_of_bind in H as (pair & Hc & _).
    by apply parsePair_free in Hc as [_ ?].
Qed.

Lemma parseCookies_truncates_at_second_equals_witness :
  JsString.mem "=" "xs" = false ∧ JsString.mem "=" "ab" = false ∧
  JsString.trim " xs=ab=cd== " = "xs" +:+ "=" +:+ "ab" +:+ "=" +:+ "cd==" ∧
  parsePair " xs=ab=cd== " =
    [ {| cookie_name := "xs"; cookie_value := "ab";
         cookie_domain := ".facebook.com"; cookie_path := "/";
         cookie_httpOnly := false; cookie_secure := true |} ] ∧
  parseCookies "c_user=100; xs=ab=cd== ; junk; =v; n=" =
    [ {| cookie_name := "c_user"; cookie_value := "100";
         cookie_domain := ".facebook.com"; cookie_path := "/";
         cookie_httpOnly := false; cookie_secure := true |};
      {| cookie_name := "xs"; cookie_value := "ab";
         cookie_domain := ".facebook.com"; cookie_path := "/";
         cookie_httpOnly := false; cookie_secure := true |} ].
Proof.
  split; [reflexivity|]. split; [reflexivity|]. split; [reflexivity|].
  split; [|reflexivity].
  apply (proj1 (proj2 (proj2 parseCookies_truncates_at_second_equals))
           " xs=ab=cd== " "xs" "ab"); [reflexivity|reflexivity|].
  right. by exists "cd==".
Defined.

(** ** The send loop *)

(** A task that is in its loop has a message under its cursor. *)
Lemma loop_message w a t :
  world_ok w → heap w !! a = Some t → phase t = InLoop →
  ∃ m, messages t !! currentIndex t = Some m.
Proof.
  intros Hok Ht Hp. destruct (ok_tasks w Hok a t Ht) as (_ & Hcur & Hempty & _).
  assert (Hne : messages t ≠ []).
  { intros He. destruct (Hempty He) as (_ & _ & _ & _ & [?|?]); congruence. }
  apply lookup_lt_is_Some. rewrite (Hcur Hne). apply Nat.mod_upper_bound.
  destruct (messages t); [done|]. simpl. lia.
Qed.

Lemma failed_iteration a o w t m msg :
  heap w !! a = Some t → isRunning t = true →
  messages t !! currentIndex t = Some m →
  failure_message (attempt o) = Some msg →
  ∃ w', sendMessages_step a o w = (Normal tt, w') ∧
    sockets w' = sockets w ∧ rooms w' = rooms w ∧ timers w' = timers w ∧
    if JsString.includes msg "textbox not found" then
      trace w' = terminal_event t w a :: Wait a (Some 5000%Z)
                 :: error_event t w a msg :: trace w ∧
      heap w' = <[a := set_phase Returned t]> (heap w) ∧
      sessionTasks w' = delete_entry (sessionId t) (taskId t) (sessionTasks w) ∧
      sessionBrowsers w' = delete_entry (sessionId t) (taskId t) (sessionBrowsers w)
    else
      trace w' = Wait a (Some 5000%Z) :: error_event t w a msg :: trace w ∧
      heap w' = heap w ∧
      sessionTasks w' = sessionTasks w ∧
      sessionBrowsers w' = sessionBrowsers w.
Proof.
  intros Ht Hr Hm Hf. unfold sendMessages_step. mrun. rewrite Hr.
  unfold send_try, read_message, send_message, send_catch, send_failed. mrun. rewrite Hm. mrun.
  rewrite type_and_send_outcome.
  destruct (attempt o) as [| |msg']; simpl in Hf; [done| |]; injection Hf as <-; mrun.
  - eexists. split; [reflexivity|]. simpl. done.
  - destruct (JsString.includes msg' "textbox not found"); mrun;
      (eexists; split; [reflexivity|]; simpl; done).
Qed.

Lemma sent_iteration a o w t m :
  heap w !! a = Some t → isRunning t = true →
  messages t !! currentIndex t = Some m → attempt o = Sent →
  ∃ w' d, sendMessages_step a o w = (Normal tt, w') ∧
    trace w' = Wait a (JsNumber.times1000 (cfg_delay (config t)))
               :: Emit a (sessionId t) (room_members (sessionId t) w) d
               :: Submit a (final_message t m) :: trace w ∧
    ev_status d = "active" ∧
    ev_totalSent d = totalSent t + 1 ∧
    ev_currentIndex d = (currentIndex t + 1) `mod` length (messages t) ∧
    heap w' =
      <[a := set_currentIndex ((currentIndex t + 1) `mod` length (messages t))
               (set_totalSent (totalSent t + 1) t)]> (heap w) ∧
    sessionTasks w' = sessionTasks w.
Proof.
  intros Ht Hr Hm Ho. unfold sendMessages_step. mrun. rewrite Hr.
  unfold send_try, read_message, send_message, send_catch, send_failed. mrun. rewrite Hm. mrun.
  rewrite type_and_send_outcome, Ho. mrun.
  eexists _, _. split; [reflexivity|]. simpl. rewrite insert_insert_eq. done.
Qed.

(** In the loop, a step of [start()] is an iteration of [sendMessages]. *)
Lemma task_step_in_loop a o w t :
  heap w !! a = Some t → phase t = InLoop →
  task_step a o w = sendMessages_step a o w.
Proof.
  intros Ht Hp. unfold task_step. mrun. rewrite Hp.
  unfold sendMessages_step. mrun.
  destruct (isRunning t); mrun; [|done].
  unfold send_try, read_message, send_message, send_catch, send_failed. mrun.
  destruct (messages t !! currentIndex t); mrun; [|done].
  rewrite type_and_send_outcome. destruct (attempt o) as [| |msg]; mrun; try done.
  destruct (JsString.includes msg "textbox not found"); mrun; done.
Qed.

(** Once [start()] has settled, the task sends nothing more. *)
Lemma returned_sends_nothing acts w a t :
  world_ok w → heap w !! a = Some t → phase t = Returned →
  submitted a (trace (run acts w)) = submitted a (trace w) ∧
  ∃ t', heap (run acts w) !! a = Some t' ∧ phase t' = Returned ∧
        totalSent t' = totalSent t ∧ currentIndex t' = currentIndex t.
Proof.
  intros Hok Ht Hp.
  destruct (run_evolves acts w Hok) as [Hh _ [new Htr]].
  destruct (Hh a t Ht) as (t' & Ht' & _ & Hret).
  destruct (Hret Hp) as (Hp' & _ & Hts & Hci).
  split; [|by exists t'].
  pose proof (ok_tasks _ (run_ok acts w Hok) a t' Ht') as (Hn' & _).
  pose proof (ok_tasks w Hok a t Ht) as (Hn & _).
  rewrite Htr, submitted_app in *. rewrite length_app in Hn'.
  destruct (submitted a new); [done|]. simpl in Hn'. lia.
Qed.

Lemma registered_delete_entry sid tid w w' :
  sessionTasks w' = delete_entry sid tid (sessionTasks w) →
  registered sid tid w' = None.
Proof.
  intros E. unfold registered, delete_entry in *. rewrite E.
  destruct (sessionTasks w !! sid) as [m|] eqn:Hm.
  - rewrite lookup_insert_eq. simpl. apply lookup_delete_eq.
  - by rewrite Hm.
Qed.

(** C7. In the send loop, a failure whose message contains
    "textbox not found" (the error thrown when the input field is missing
    has such a message) makes the task emit the error event, wait, emit the
    terminal error event, leave the loop and run [cleanup]: its entry is
    removed and nothing is sent afterwards, so the message is not retried.
    Any other failure leaves the task, its flag, its phase and the registry
    as they were: the loop goes on. *)
Theorem fatal_failure_ends_the_loop acts a t o msg :
  let w := run acts initial_world in
  let w' := (sendMessages_step a o w).2 in
  heap w !! a = Some t → phase t = InLoop → isRunning t = true →
  failure_message (attempt o) = Some msg →
  failure_message TextboxMissing = Some "Message textbox not found" ∧
  JsString.includes "Message textbox not found" "textbox not found" = true ∧
  if JsString.includes msg "textbox not found" then
    trace w' = terminal_event t w a :: Wait a (Some 5000%Z)
               :: error_event t w a msg :: trace w ∧
    heap w' !! a = Some (set_phase Returned t) ∧
    registered (sessionId t) (taskId t) w' = None ∧
    ∀ acts', submitted a (trace (run acts' w')) = submitted a (trace w)
  else
    trace w' = Wait a (Some 5000%Z) :: error_event t w a msg :: trace w ∧
    heap w' = heap w ∧ sessionTasks w' = sessionTasks w.
Proof.
  intros w w' Ht Hp Hr Hf. split; [done|]. split; [done|].
  assert (Hok : world_ok w) by apply run_ok, initial_world_ok.
  destruct (loop_message w a t Hok Ht Hp) as [m Hm].
  destruct (failed_iteration a o w t m msg Ht Hr Hm Hf) as (w1 & Heq & _ & _ & _ & Hcase).
  assert (Hok' : world_ok w').
  { unfold w'. rewrite <- (task_step_in_loop a o w t Ht Hp). by apply task_step_ok. }
  unfold w' in *. rewrite Heq in *. simpl in *.
  destruct (JsString.includes msg "textbox not found").
  - destruct Hcase as (Htr & Hh & Hst & _).
    split; [done|]. split; [by rewrite Hh, lookup_insert_eq|].
    split; [by eapply registered_delete_entry|].
    intros acts'.
    destruct (returned_sends_nothing acts' w1 a (set_phase Returned t)) as [-> _];
      [done|by rewrite Hh, lookup_insert_eq|done|].
    by rewrite Htr.
  - destruct Hcase as (Htr & Hh & Hst & _). done.
Qed.

Lemma fatal_failure_ends_the_loop_witness :
  (∃ t, heap (Example.looping "1") !! 0 = Some t ∧
        phase t = InLoop ∧ isRunning t = true) ∧
  failure_message (attempt Example.no_textbox) = Some "Message textbox not found" ∧
  registered Example.session1 "1000"
    (sendMessages_step 0 Example.no_textbox (Example.looping "1")).2 = None.
Proof.
  assert (Hw : ∃ t, heap (Example.looping "1") !! 0 = Some t ∧
                    phase t = InLoop ∧ isRunning t = true ∧
                    sessionId t = Example.session1 ∧ taskId t = "1000").
  { eexists. split; [vm_compute; reflexivity|]. repeat split; vm_compute; reflexivity. }
  destruct Hw as (t & Ht & Hp & Hr & Hs & Hk).
  pose proof (fatal_failure_ends_the_loop
              (Example.looping_acts "1")
              0 t Example.no_textbox "Message textbox not found"
              Ht Hp Hr eq_refl) as (_ & _ & H).
  change (JsString.includes "Message textbox not found" "textbox not found")
    with true in H.
  destruct H as (_ & _ & Hreg & _). rewrite Hs, Hk in Hreg.
  split; [exists t; split; [exact Ht|split; [exact Hp|exact Hr]]|].
  split; [reflexivity|exact Hreg].
Defined.

(** C6 (as the program has it). In the send loop, a failure whose message
    does not contain "textbox not found" makes the task emit an error event
    and wait 5000 ms; the fields of the task (cursor, sent count, running
    flag, phase) and the registry are unchanged, so the loop goes on and
    the next successful iteration sends the same message. The wait is
    always 5000 ms: it is longer than the wait between two messages only
    when the configured delay is below 5 seconds. *)
Theorem transient_failure_retries_same_message acts a t o msg :
  let w := run acts initial_world in
  let w' := (sendMessages_step a o w).2 in
  heap w !! a = Some t → phase t = InLoop → isRunning t = true →
  failure_message (attempt o) = Some msg →
  JsString.includes msg "textbox not found" = false →
  trace w' = Wait a (Some 5000%Z) :: error_event t w a msg :: trace w ∧
  heap w' = heap w ∧ sessionTasks w' = sessionTasks w ∧
  (∀ d, cfg_delay (config t) = Some d →
        ((d * 1000 < 5000)%Z ↔ (d < 5)%Z)) ∧
  ∀ o2, attempt o2 = Sent →
    ∃ m, messages t !! currentIndex t = Some m ∧
         waits a (trace (sendMessages_step a o2 w').2) =
           JsNumber.times1000 (cfg_delay (config t)) :: waits a (trace w') ∧
         submitted a (trace (sendMessages_step a o2 w').2) =
           final_message t m :: submitted a (trace w).
Proof.
  intros w w' Ht Hp Hr Hf Hinc.
  assert (Hok : world_ok w) by apply run_ok, initial_world_ok.
  destruct (loop_message w a t Hok Ht Hp) as [m Hm].
  destruct (failed_iteration a o w t m msg Ht Hr Hm Hf) as (w1 & Heq & _ & _ & _ & Hcase).
  unfold w' in *. rewrite Heq in *. simpl in *. rewrite Hinc in Hcase.
  destruct Hcase as (Htr & Hh & Hst & _).
  split; [done|]. split; [done|]. split; [done|]. split; [intros; lia|].
  intros o2 Ho2. exists m. split; [done|].
  destruct (sent_iteration a o2 w1 t m) as (w2 & d & -> & Htr2 & _); try done.
  { by rewrite Hh. }
  simpl. rewrite Htr2, Htr. simpl. rewrite !decide_True by done. done.
Qed.

Lemma transient_failure_retries_same_message_witness :
  (∃ t, heap (Example.looping "1") !! 0 = Some t ∧
        phase t = InLoop ∧ isRunning t = true) ∧
  failure_message (attempt Example.timed_out) =
    Some "Waiting failed: 10000ms exceeded" ∧
  JsString.includes "Waiting failed: 10000ms exceeded" "textbox not found" = false ∧
  heap (sendMessages_step 0 Example.timed_out (Example.looping "1")).2 =
    heap (Example.looping "1").
Proof.
  assert (Hw : ∃ t, heap (Example.looping "1") !! 0 = Some t ∧
                    phase t = InLoop ∧ isRunning t = true).
  { eexists. split; [vm_compute; reflexivity|]. repeat split; vm_compute; reflexivity. }
  destruct Hw as (t & Ht & Hp & Hr).
  pose proof (transient_failure_retries_same_message
              (Example.looping_acts "1")
              0 t Example.timed_out "Waiting failed: 10000ms exceeded"
              Ht Hp Hr eq_refl eq_refl) as (_ & Hh & _).
  split; [exists t; split; [exact Ht|split; [exact Hp|exact Hr]]|].
  split; [reflexivity|]. split; [reflexivity|exact Hh].
Defined.

(** C6 does not hold as stated: with a configured delay of 10 seconds the
    wait after a failure (5000 ms) is shorter than the wait after a message
    (10000 ms). *)
Lemma backoff_shorter_than_configured_delay :
  let w := Example.looping "10" in
  let failed := (sendMessages_step 0 Example.timed_out w).2 in
  let sent := (sendMessages_step 0 Example.sent w).2 in
  head (waits 0 (trace failed)) = Some (Some 5000%Z) ∧
  head (waits 0 (trace sent)) = Some (Some 10000%Z) ∧
  (5000 < 10000)%Z.
Proof. by vm_compute. Qed.

(** ** Stopping and cleaning up *)


Lemma count_status_app st a tr1 tr2 :
  count_status st a (tr1 ++ tr2) = count_status st a tr1 + count_status st a tr2.
Proof.
  unfold count_status. by rewrite emitted_app, fmap_app, List.filter_app, length_app.
Qed.





(** ** Sessions *)

Lemma registered_Some sid tid w a :
  registered sid tid w = Some a ↔
  ∃ m, sessionTasks w !! sid = Some m ∧ m !! tid = Some a.
Proof.
  unfold registered. destruct (sessionTasks w !! sid) as [m|]; simpl.
  - split; [eauto|]. by intros (m' & [= <-] & ?).
  - split; [done|]. by intros (m' & ? & _).
Qed.

(** A registered task belongs to the session and has the key under which it
    is registered, and its key is its target. *)
Lemma registered_owner w sid k a :
  world_ok w → registered sid k w = Some a →
  (k ∉ object_prototype_keys) ∧
  ∃ t, heap w !! a = Some t ∧ sessionId t = sid ∧ taskId t = k ∧
       cfg_threadId (config t) = k.
Proof.
  intros Hok Hr. apply registered_Some in Hr as (m & Hm & Hk).
  destruct (ok_entries w Hok _ _ _ _ Hm Hk) as (Hkey & t & Ht & Hs & Hti).
  split; [done|]. exists t. repeat split; try done.
  by rewrite (ok_target w Hok a t Ht).
Qed.

(** The objects read for a listing are registered under the session. *)
Lemma listed_registered sid w k a :
  (k, a) ∈ listed sid (initSessionTasks sid w) → registered sid k w = Some a.
Proof.
  unfold listed. simpl. intros Hin.
  destruct (init_entry sid (sessionTasks w) !! sid) as [m|] eqn:Hm; simpl in Hin.
  - apply elem_of_map_to_list in Hin. apply registered_Some.
    exists m. split; [|done]. by eapply init_entry_lookup.
  - rewrite map_to_list_empty in Hin. by apply elem_of_nil in Hin.
Qed.

(** The object created by a start-task request that succeeds. *)
Lemma post_start_task_created sid body now w tid :
  (post_start_task sid body now w).1 = TaskStarted tid sid →
  let w1 := (post_start_task sid body now w).2 in
  let a := fresh (dom (heap w)) in
  tid = default EmptyString (b_threadId body) ∧
  has_required_fields body = true ∧
  heap w !! a = None ∧
  heap w1 !! a = Some (new_MessageSender tid (request_config body) sid now) ∧
  registered sid tid w1 = Some a.
Proof.
  intros Hresp.
  destruct (post_start_task_cases sid body now w)
    as [(_ & E)|[(_ & _ & E)|(Hreq & _ & w' & E & Hh & Hst & _)]];
    rewrite E in *; simpl in *; try done.
  injection Hresp as <-.
  split; [done|]. split; [done|]. split; [apply fresh_addr|].
  split; [by rewrite Hh, lookup_insert_eq|].
  unfold registered. rewrite Hst, lookup_insert_eq. simpl. apply lookup_insert_eq.
Qed.

(** C1. A task created under session [sid1] is never read for the listing
    of another session [sid2], whose rows all come from tasks of [sid2];
    and every status event of the task goes to the room [sid1], whose
    members are sockets of session [sid1], so that no socket of [sid2]
    receives it. This holds whatever happens before and after the creation,
    in particular when [sid2] uses the same key. *)
Theorem session_isolation acts0 sid1 body now tid acts sid2 :
  let w0 := run acts0 initial_world in
  let a := fresh (dom (heap w0)) in
  let w := run acts (post_start_task sid1 body now w0).2 in
  (post_start_task sid1 body now w0).1 = TaskStarted tid sid1 →
  sid1 ≠ sid2 →
  (∃ t, heap w !! a = Some t ∧ sessionId t = sid1 ∧ taskId t = tid) ∧
  (∀ k a', (k, a') ∈ listed sid2 (initSessionTasks sid2 w) →
     a' ≠ a ∧ ∃ t', heap w !! a' = Some t' ∧ sessionId t' = sid2 ∧ taskId t' = k) ∧
  (∀ row, row ∈ listing sid2 w →
     ts_sessionId row = sid2 ∧
     ∃ a' t', a' ≠ a ∧ heap w !! a' = Some t' ∧ sessionId t' = sid2 ∧
              taskId t' = ts_taskId row ∧ ts_isRunning row = isRunning t' ∧
              ts_totalSent row = totalSent t' ∧
              ts_currentIndex row = currentIndex t' ∧
              ts_totalMessages row = length (messages t')) ∧
  (∀ room rc d, Emit a room rc d ∈ trace w →
     room = sid1 ∧ ev_sessionId d = sid1 ∧
     (∀ sock, sock ∈ rc → sockets w !! sock = Some sid1) ∧
     (∀ sock, sockets w !! sock = Some sid2 → sock ∉ rc) ∧
     (∀ sock, sock ∈ room_members sid2 w → sock ∉ rc)).
Proof.
  intros w0 a w Hresp Hne.
  assert (Hok0 : world_ok w0) by apply run_ok, initial_world_ok.
  destruct (post_start_task_created sid1 body now w0 tid Hresp)
    as (_ & _ & _ & Hnew & _).
  assert (Hok1 : world_ok (post_start_task sid1 body now w0).2)
    by by apply post_start_task_ok.
  assert (Hok : world_ok w) by by apply run_ok.
  destruct (run_evolves acts _ Hok1) as [Hh _ _].
  destruct (Hh _ _ Hnew) as (t & Ht & (Hk & Hs & _) & _). fold a w in Ht.
  simpl in Hk, Hs.
  assert (Hlist : ∀ k a', (k, a') ∈ listed sid2 (initSessionTasks sid2 w) →
            a' ≠ a ∧ ∃ t', heap w !! a' = Some t' ∧ sessionId t' = sid2 ∧ taskId t' = k).
  { intros k a' Hin. apply listed_registered in Hin.
    destruct (registered_owner w sid2 k a' Hok Hin) as (_ & t' & Ht' & Hs' & Hk' & _).
    split; [|by exists t']. intros ->. congruence. }
  split; [by exists t|]. split; [exact Hlist|]. split.
  - intros row Hrow. unfold listing, get_active_tasks in Hrow. simpl in Hrow.
    apply list_elem_of_bind in Hrow as ([k a'] & Hrow & Hin).
    destruct (Hlist k a' Hin) as (Hna & t' & Ht' & Hs' & Hk').
    unfold summary in Hrow. simpl in Hrow.
    change (heap (initSessionTasks sid2 w)) with (heap w) in Hrow.
    rewrite Ht' in Hrow. apply list_elem_of_singleton in Hrow as ->. simpl.
    split; [done|]. by exists a', t'.
  - intros room rc d Hin.
    destruct (ok_emits w Hok _ _ _ _ Hin) as (t0 & Ht0 & -> & Hd & Hrc).
    rewrite Ht in Ht0. injection Ht0 as <-.
    split; [done|]. split; [congruence|]. rewrite Hs in Hrc.
    split; [exact Hrc|]. split.
    + intros sock Hsock Hmem. specialize (Hrc _ Hmem). congruence.
    + intros sock Hsock Hmem. specialize (Hrc _ Hmem).
      unfold room_members in Hsock. apply elem_of_elements in Hsock.
      destruct (rooms w !! sid2) as [members|] eqn:Hr; simpl in Hsock;
        [|by apply not_elem_of_empty in Hsock].
      pose proof (ok_rooms w Hok _ _ _ Hr Hsock). congruence.
Qed.

Lemma session_isolation_witness :
  (post_start_task Example.session1 (Example.body "1000" "1") 1
     (run Example.isolation_before initial_world)).1
    = TaskStarted "1000" Example.session1 ∧
  Example.session1 ≠ Example.session2 ∧
  ∃ t,
    heap (run Example.isolation_after
            (post_start_task Example.session1 (Example.body "1000" "1") 1
               (run Example.isolation_before initial_world)).2)
      !! fresh (dom (heap (run Example.isolation_before initial_world))) = Some t ∧
    sessionId t = Example.session1 ∧ taskId t = "1000".
Proof.
  assert (H1 : (post_start_task Example.session1 (Example.body "1000" "1") 1
                  (run Example.isolation_before initial_world)).1
               = TaskStarted "1000" Example.session1)
    by (vm_compute; reflexivity).
  assert (H2 : Example.session1 ≠ Example.session2)
    by (intros E; vm_compute in E; discriminate E).
  split; [exact H1|]. split; [exact H2|].
  exact (proj1 (session_isolation Example.isolation_before Example.session1
                  (Example.body "1000" "1") 1 "1000" Example.isolation_after
                  Example.session2 H1 H2)).
Defined.

(** In that run the listing of [session2] shows its own task only, and the
    events of the task of [session1] went to the socket of [session1]. *)
Lemma two_sessions_one_key_example :
  let w := run Example.isolation_after
             (post_start_task Example.session1 (Example.body "1000" "1") 1
                (run Example.isolation_before initial_world)).2 in
  listing Example.session2 w =
    [ {| ts_taskId := "1000"; ts_isRunning := true; ts_totalSent := 1;
         ts_currentIndex := 1; ts_totalMessages := 2;
         ts_sessionId := Example.session2 |} ] ∧
  listing Example.session1 w = [] ∧
  sockets w = {[ 0 := Example.session2; 1 := Example.session1 ]} ∧
  Forall (fun e => match e with
                   | Emit 1 room rc _ => room = Example.session1 ∧ (rc = [1] ∨ rc = [])
                   | Emit _ room rc _ => room = Example.session2 ∧ rc = [0]
                   | _ => True
                   end) (trace w).
Proof.
  cbv zeta. split; [vm_compute; reflexivity|]. split; [vm_compute; reflexivity|].
  split; [vm_compute; reflexivity|].
  vm_compute. repeat constructor; auto.
Qed.

(** ** Keys *)

Lemma init_entry_id sid (obj : gmap string (gmap string addr)) m :
  obj !! sid = Some m → init_entry sid obj = obj.
Proof. intros H. unfold init_entry. by rewrite H. Qed.

(** A request for a key that is registered is rejected and changes neither
    the store nor the task maps. *)
Lemma post_start_task_duplicate sid body now w a :
  registered sid (default EmptyString (b_threadId body)) w = Some a →
  (∃ msg, (post_start_task sid body now w).1 = BadRequest msg ∧
          (has_required_fields body = true →
           msg = "Task already running for this thread in your session")) ∧
  heap (post_start_task sid body now w).2 = heap w ∧
  sessionTasks (post_start_task sid body now w).2 = sessionTasks w.
Proof.
  intros Hr. apply registered_Some in Hr as (m & Hm & Hk).
  assert (Hst : sessionTasks (initSessionTasks sid w) = sessionTasks w).
  { simpl. by eapply init_entry_id. }
  destruct (post_start_task_cases sid body now w)
    as [(Hreq & E)|[(_ & _ & E)|(_ & Hj & _)]].
  - rewrite E. simpl. split; [|split; [done|exact Hst]].
    eexists. split; [done|]. intros. congruence.
  - rewrite E. simpl. split; [|split; [done|exact Hst]]. eexists. by split.
  - rewrite Hst, Hm in Hj. simpl in Hj. by rewrite (js_get_own _ _ _ Hk) in Hj.
Qed.

(** A well-formed request for a key that is neither registered nor the name
    of an inherited property is accepted. *)
Lemma post_start_task_accepts sid body now w :
  has_required_fields body = true →
  registered sid (default EmptyString (b_threadId body)) w = None →
  default EmptyString (b_threadId body) ∉ object_prototype_keys →
  (post_start_task sid body now w).1 =
    TaskStarted (default EmptyString (b_threadId body)) sid.
Proof.
  intros Hreq Hr Hkey.
  destruct (post_start_task_cases sid body now w)
    as [(Hreq' & _)|[(_ & Hj & _)|(_ & _ & w' & -> & _)]]; [congruence| |done].
  exfalso. revert Hj. unfold js_get.
  destruct (init_entry_present sid (sessionTasks w)) as (m & Hm & Hcase).
  simpl. rewrite Hm. simpl.
  assert (Hnone : m !! default EmptyString (b_threadId body) = None).
  { destruct Hcase as [Hw|[_ ->]]; [|apply lookup_empty].
    unfold registered in Hr. by rewrite Hw in Hr. }
  rewrite Hnone. by rewrite bool_decide_eq_false_2.
Qed.

(** C2. While a key is registered in a session, a start-task request of
    that session for the key is rejected before anything is created: the
    store and the task maps are unchanged, and the message of a request
    that has all its fields is the duplicate-key message. After the
    [cleanup] of the registered task the key is free, and the same request,
    if it has all its fields, succeeds and registers a new object. *)
Theorem duplicate_key_rejected_until_cleanup acts sid body now a o :
  let w := run acts initial_world in
  let tid := default EmptyString (b_threadId body) in
  let rejected := post_start_task sid body now w in
  let w1 := (cleanup a o w).2 in
  let accepted := post_start_task sid body now w1 in
  registered sid tid w = Some a →
  (∃ msg, rejected.1 = BadRequest msg ∧
          (has_required_fields body = true →
           msg = "Task already running for this thread in your session")) ∧
  heap rejected.2 = heap w ∧ sessionTasks rejected.2 = sessionTasks w ∧
  registered sid tid w1 = None ∧
  (has_required_fields body = true →
     accepted.1 = TaskStarted tid sid ∧
     ∃ a', a' ≠ a ∧ registered sid tid accepted.2 = Some a' ∧
           heap accepted.2 !! a' =
             Some (new_MessageSender tid (request_config body) sid now)).
Proof.
  intros w tid rejected w1 accepted Hr.
  assert (Hok : world_ok w) by apply run_ok, initial_world_ok.
  destruct (post_start_task_duplicate sid body now w a Hr) as (Hrej & Hh & Hst).
  split; [exact Hrej|]. split; [exact Hh|]. split; [exact Hst|].
  destruct (registered_owner w sid tid a Hok Hr) as (Hkey & t & Ht & Hs & Hk & _).
  assert (Hw1 : w1 = unregister sid tid w).
  { unfold w1. rewrite (cleanup_ok a o t w Ht). simpl. by rewrite Hs, Hk. }
  assert (Hnone : registered sid tid w1 = None).
  { apply (registered_delete_entry sid tid w). by rewrite Hw1. }
  split; [exact Hnone|]. intros Hreq.
  pose proof (post_start_task_accepts sid body now w1 Hreq Hnone Hkey) as Hacc.
  split; [exact Hacc|].
  destruct (post_start_task_created sid body now w1 tid Hacc)
    as (_ & _ & Hfresh & Hnew & Hreg).
  exists (fresh (dom (heap w1))). split; [|by split].
  intros E. rewrite E, Hw1 in Hfresh. simpl in Hfresh. congruence.
Qed.

Lemma duplicate_key_rejected_until_cleanup_witness :
  registered Example.session1 "1000" (Example.looping "1") = Some 0 ∧
  (post_start_task Example.session1 (Example.body "1000" "5") 9
     (Example.looping "1")).1
    = BadRequest "Task already running for this thread in your session" ∧
  registered Example.session1
    (default EmptyString (b_threadId (Example.body "1000" "5")))
    (cleanup 0 Example.sent (Example.looping "1")).2 = None ∧
  (post_start_task Example.session1 (Example.body "1000" "5") 9
     (cleanup 0 Example.sent (Example.looping "1")).2).1
    = TaskStarted "1000" Example.session1.
Proof.
  assert (H : registered Example.session1 "1000" (Example.looping "1") = Some 0)
    by (vm_compute; reflexivity).
  split; [exact H|]. split; [vm_compute; reflexivity|].
  split; [|vm_compute; reflexivity].
  exact (proj1 (proj2 (proj2 (proj2
    (duplicate_key_rejected_until_cleanup (Example.looping_acts "1")
       Example.session1 (Example.body "1000" "5") 9 0 Example.sent H))))).
Defined.

(** A key that names a property of [Object.prototype] is never accepted:
    the test [sessionTasks[sessionId][threadId]] finds the inherited
    property, and the request is answered as a duplicate although nothing is
    registered. *)
Remark inherited_key_is_taken :
  let w := run [GetIndex Example.session1] initial_world in
  registered Example.session1 "constructor" w = None ∧
  (post_start_task Example.session1 (Example.body "constructor" "1") 0 w).1
    = BadRequest "Task already running for this thread in your session" ∧
  (post_stop_task Example.session1 (Some "constructor") 0 w).1
    = ServerError.
Proof. cbv zeta. repeat split; vm_compute; reflexivity. Qed.

(** C9 does not hold as stated. The key of a task is its target
    ([const taskId = threadId]): no run creates, in one session, two tasks
    that have one target and two keys, and a second request for the target
    of a registered task is rejected. *)
Lemma no_two_keys_for_one_target :
  (¬ ∃ acts a1 a2 t1 t2,
       heap (run acts initial_world) !! a1 = Some t1 ∧
       heap (run acts initial_world) !! a2 = Some t2 ∧
       sessionId t1 = sessionId t2 ∧
       cfg_threadId (config t1) = cfg_threadId (config t2) ∧
       taskId t1 ≠ taskId t2) ∧
  (let w := Example.looping "1" in
   let second := post_start_task Example.session1 (Example.body "1000" "30") 9 w in
   registered Example.session1 "1000" w = Some 0 ∧
   second.1 = BadRequest "Task already running for this thread in your session" ∧
   size (heap second.2) = 1).
Proof.
  split.
  - intros (acts & a1 & a2 & t1 & t2 & Ht1 & Ht2 & _ & E & Hne).
    assert (Hok : world_ok (run acts initial_world)) by apply run_ok, initial_world_ok.
    pose proof (ok_target _ Hok a1 t1 Ht1). pose proof (ok_target _ Hok a2 t2 Ht2).
    congruence.
  - cbv zeta. repeat split; vm_compute; reflexivity.
Qed.

(** C9 (as the program has it). The key of every task is its target
    identifier, so two tasks that have the same target have the same key.
    Uniqueness is enforced on that key: two registered tasks of one session
    with the same target are one and the same entry, and a start-task
    request for the target of a registered task is rejected and creates
    nothing. *)
Theorem task_key_is_target acts sid k a t :
  let w := run acts initial_world in
  heap w !! a = Some t →
  taskId t = cfg_threadId (config t) ∧
  (∀ a' t', heap w !! a' = Some t' →
     cfg_threadId (config t') = cfg_threadId (config t) → taskId t' = taskId t) ∧
  (registered sid k w = Some a →
     k = cfg_threadId (config t) ∧ sessionId t = sid ∧
     (∀ k' a' t', registered sid k' w = Some a' → heap w !! a' = Some t' →
        cfg_threadId (config t') = cfg_threadId (config t) → k' = k ∧ a' = a) ∧
     (∀ body now,
        b_threadId body = Some (cfg_threadId (config t)) →
        (∃ msg, (post_start_task sid body now w).1 = BadRequest msg) ∧
        heap (post_start_task sid body now w).2 = heap w ∧
        sessionTasks (post_start_task sid body now w).2 = sessionTasks w)).
Proof.
  intros w Ht.
  assert (Hok : world_ok w) by apply run_ok, initial_world_ok.
  pose proof (ok_target w Hok a t Ht) as Htarget.
  split; [done|]. split.
  { intros a' t' Ht' E. pose proof (ok_target w Hok a' t' Ht'). congruence. }
  intros Hr.
  destruct (registered_owner _ sid k a Hok Hr) as (_ & t0 & Ht0 & Hs & Hk & E0).
  rewrite Ht in Ht0. injection Ht0 as <-.
  split; [done|]. split; [done|]. split.
  - intros k' a' t' Hr' Ht' E.
    destruct (registered_owner _ sid k' a' Hok Hr') as (_ & t1 & Ht1 & _ & _ & E1).
    rewrite Ht' in Ht1. injection Ht1 as <-.
    assert (k' = k) as -> by congruence. split; [done|]. congruence.
  - intros body now Hb.
    assert (Hr' : registered sid (default EmptyString (b_threadId body)) w = Some a).
    { rewrite Hb. simpl. by rewrite E0. }
    destruct (post_start_task_duplicate sid body now w a Hr') as ((msg & Hm & _) & Hh & Hst).
    split; [by exists msg|done].
Qed.

Lemma task_key_is_target_witness :
  ∃ t, heap (Example.looping "1") !! 0 = Some t ∧
       taskId t = cfg_threadId (config t).
Proof.
  assert (Hw : ∃ t, heap (Example.looping "1") !! 0 = Some t).
  { eexists. vm_compute. reflexivity. }
  destruct Hw as [t Ht]. exists t. split; [exact Ht|].
  exact (proj1 (task_key_is_target (Example.looping_acts "1") Example.session1
                  "1000" 0 t Ht)).
Defined.

(** ** The sweep *)

(** C3 does not hold of the program. A session is empty when the sweep
    runs, so a timer is set; a task is started in the session before the
    timer fires; the timer then deletes the session although it holds the
    task. The task object lives on and will run, but the session no longer
    lists it and a stop request no longer finds it. *)
Theorem sweep_deletes_session_with_new_task :
  let before := run Example.grace_acts initial_world in
  let after := apply_action TimerFire before in
  timers before = [Example.session1] ∧
  registered Example.session1 "1000" before = Some 0 ∧
  sessionTasks after !! Example.session1 = None ∧
  registered Example.session1 "1000" after = None ∧
  (∃ t, heap after !! 0 = Some t ∧ phase t = InInit ∧
        sessionId t = Example.session1 ∧ taskId t = "1000") ∧
  listing Example.session1 after = [] ∧
  (post_stop_task Example.session1 (Some "1000") 9 after).1
    = BadRequest "Task not found in your session".
Proof.
  cbv zeta. split; [vm_compute; reflexivity|]. split; [vm_compute; reflexivity|].
  split; [vm_compute; reflexivity|]. split; [vm_compute; reflexivity|].
  split; [eexists; split; [vm_compute; reflexivity|]; repeat split; vm_compute; reflexivity|].
  split; vm_compute; reflexivity.
Qed.

(** ** Replay *)

(** [K] iterations that succeed one after the other send [K] messages. *)
Lemma replicate_sent a o K w t :
  attempt o = Sent →
  world_ok w → heap w !! a = Some t → phase t = InLoop → isRunning t = true →
  let w' := run (replicate K (TaskStep a o)) w in
  world_ok w' ∧
  length (submitted a (trace w')) = length (submitted a (trace w)) + K ∧
  ∃ t', heap w' !! a = Some t' ∧ phase t' = InLoop ∧ isRunning t' = true ∧
        messages t' = messages t.
Proof.
  intros Ho. revert w t. induction K as [|K IH]; intros w t Hok Ht Hp Hr.
  - simpl. split; [done|]. split; [lia|]. by exists t.
  - simpl.
    destruct (loop_message w a t Hok Ht Hp) as [m Hm].
    destruct (sent_iteration a o w t m Ht Hr Hm Ho)
      as (w1 & d & Heq & Htr & _ & _ & _ & Hh & _).
    assert (Hstep : (task_step a o w).2 = w1).
    { by rewrite (task_step_in_loop a o w t Ht Hp), Heq. }
    rewrite Hstep.
    assert (Hok1 : world_ok w1) by (rewrite <- Hstep; by apply task_step_ok).
    set (t1 := set_currentIndex ((currentIndex t + 1) `mod` length (messages t))
                 (set_totalSent (totalSent t + 1) t)) in *.
    assert (Ht1 : heap w1 !! a = Some t1) by (by rewrite Hh, lookup_insert_eq).
    destruct (IH w1 t1 Hok1 Ht1 Hp Hr) as (Hok' & Hlen & t' & Ht' & Hp' & Hr' & Hm').
    split; [done|]. split.
    + rewrite Hlen, Htr. simpl. rewrite decide_True by done. simpl. lia.
    + exists t'. by rewrite Hm'.
Qed.

(** C4. In every state of every run, a task with [N ≥ 1] messages that has
    sent [M] messages has sent count [M] and cursor [M mod N], and its
    [i]-th send (counted from 0) was the message at index [i mod N]; a task
    that is in its loop reaches every count: [K] further successful
    iterations make the count [M + K] and the cursor [(M + K) mod N]. In
    particular, with the messages "hi" and "there", after three sends the
    count is 3, the cursor is 1, the texts sent are "hi", "there", "hi",
    and the last event reports message 3 as "hi". *)
Theorem circular_replay :
  (∀ acts a t,
     let w := run acts initial_world in
     let N := length (messages t) in
     let M := length (submitted a (trace w)) in
     heap w !! a = Some t → (1 ≤ N)%nat →
     totalSent t = M ∧ currentIndex t = M `mod` N ∧
     (∀ i txt, rev (submitted a (trace w)) !! i = Some txt →
        ∃ m, messages t !! (i `mod` N) = Some m ∧ txt = final_message t m) ∧
     (phase t = InLoop → isRunning t = true →
      ∀ K o, attempt o = Sent →
        ∃ t', heap (run (replicate K (TaskStep a o)) w) !! a = Some t' ∧
              totalSent t' = M + K ∧ currentIndex t' = (M + K) `mod` N)) ∧
  (let w := run Example.three_sends_acts initial_world in
   ∃ t, heap w !! 0 = Some t ∧
        messages t = ["hi"; "there"] ∧
        totalSent t = 3 ∧ currentIndex t = 1 ∧
        rev (submitted 0 (trace w)) = ["hi"; "there"; "hi"] ∧
        ev_message <$> head (emitted 0 (trace w)) =
          Some ("Message 3 sent. Current: "
                +:+ JsString.dquote +:+ "hi" +:+ JsString.dquote)).
Proof.
  split.
  - intros acts a t w N M Ht HN.
    assert (Hok : world_ok w) by apply run_ok, initial_world_ok.
    destruct (ok_tasks w Hok a t Ht) as (Htot & Hcur & _ & _ & Htxt).
    assert (Hne : messages t ≠ []).
    { intros E. unfold N in HN. rewrite E in HN. simpl in HN. lia. }
    split; [exact Htot|]. split; [by rewrite (Hcur Hne), Htot|].
    split; [exact Htxt|].
    intros Hp Hr K o Ho.
    destruct (replicate_sent a o K w t Ho Hok Ht Hp Hr)
      as (Hok' & Hlen & t' & Ht' & _ & _ & Hm').
    exists t'. split; [exact Ht'|].
    destruct (ok_tasks _ Hok' a t' Ht') as (Htot' & Hcur' & _).
    rewrite Hm' in Hcur'. rewrite (Hcur' Hne), Htot', Hlen. done.
  - cbv zeta. eexists. split; [vm_compute; reflexivity|].
    repeat split; vm_compute; reflexivity.
Qed.

Lemma circular_replay_witness :
  ∃ t, heap (run Example.three_sends_acts initial_world) !! 0 = Some t ∧
       (1 ≤ length (messages t))%nat ∧
       length (submitted 0 (trace (run Example.three_sends_acts initial_world))) = 3 ∧
       totalSent t =
         length (submitted 0 (trace (run Example.three_sends_acts initial_world))) ∧
       currentIndex t =
         length (submitted 0 (trace (run Example.three_sends_acts initial_world)))
         `mod` length (messages t).
Proof.
  assert (Hw : ∃ t, heap (run Example.three_sends_acts initial_world) !! 0 = Some t ∧
                    (1 ≤ length (messages t))%nat).
  { eexists. split; [vm_compute; reflexivity|]. vm_compute. lia. }
  destruct Hw as (t & Ht & HN). exists t.
  split; [exact Ht|]. split; [exact HN|]. split; [vm_compute; reflexivity|].
  pose proof (proj1 circular_replay Example.three_sends_acts 0 t Ht HN)
    as (Htot & Hcur & _).
  split; [exact Htot|exact Hcur].
Defined.

(** ** Initialization *)

(** The event of an initialization that found no message. *)
Lemma init_empty a o w t content :
  heap w !! a = Some t → o_readFile o = inl content → normalize content = [] →
  init a o w =
    (Normal false,
     upd_trace (cons (no_messages_event t w a))
       (upd_heap (insert a (set_messages [] t)) w)).
Proof.
  intros Ht Hread Hn. unfold init, init_try, init_catch, init_read.
  rewrite Hread. mrun. rewrite Hn. mrun. done.
Qed.

Lemma start_init_empty a o w t content :
  heap w !! a = Some t → phase t = InInit →
  o_readFile o = inl content → normalize content = [] →
  task_step a o w =
    (Normal tt,
     upd_heap (insert a (set_phase Returned (set_messages [] t)))
       (upd_trace (cons (no_messages_event t w a)) w)).
Proof.
  intros Ht Hp Hread Hn. unfold task_step. mrun. rewrite Hp.
  unfold start_init, bind. rewrite (init_empty a o w t content Ht Hread Hn).
  simpl. mrun. unfold upd_heap, upd_trace. simpl. by rewrite insert_insert_eq.
Qed.

(** C5. When the file read by [init] holds no message after normalization,
    [init] returns false after emitting one "error" event, [start] returns
    at once, and from then on, whatever happens, the task emits no "active"
    event, sends nothing, is not running and never enters its loop. *)
Theorem empty_message_list_is_rejected acts a t o content acts' :
  let w := run acts initial_world in
  let w1 := (task_step a o w).2 in
  let w2 := run acts' w1 in
  heap w !! a = Some t → phase t = InInit →
  o_readFile o = inl content → normalize content = [] →
  ((init a o w).1 = Normal false ∧
   trace (init a o w).2 = no_messages_event t w a :: trace w) ∧
  trace w1 = no_messages_event t w a :: trace w ∧
  no_active (emitted a (trace w2)) ∧
  submitted a (trace w2) = [] ∧
  ∃ t2, heap w2 !! a = Some t2 ∧ phase t2 = Returned ∧
        isRunning t2 = false ∧ messages t2 = [].
Proof.
  intros w w1 w2 Ht Hp Hread Hn.
  assert (Hok : world_ok w) by apply run_ok, initial_world_ok.
  assert (Hok1 : world_ok w1) by by apply task_step_ok.
  assert (Hok2 : world_ok w2) by by apply run_ok.
  split; [by rewrite (init_empty a o w t content Ht Hread Hn)|].
  assert (Hw1 : w1 = upd_heap (insert a (set_phase Returned (set_messages [] t)))
                       (upd_trace (cons (no_messages_event t w a)) w)).
  { unfold w1. by rewrite (start_init_empty a o w t content Ht Hp Hread Hn). }
  split; [by rewrite Hw1|].
  assert (Ht1 : heap w1 !! a = Some (set_phase Returned (set_messages [] t))).
  { rewrite Hw1. simpl. apply lookup_insert_eq. }
  destruct (run_evolves acts' w1 Hok1) as [Hh _ _].
  destruct (Hh _ _ Ht1) as (t2 & Ht2 & _ & Hret).
  destruct (Hret eq_refl) as (Hp2 & Hm2 & _). simpl in Hm2.
  destruct (ok_tasks w2 Hok2 a t2 Ht2) as (Htot & _ & Hempty & _).
  destruct (Hempty Hm2) as (_ & Hz & Hr & Hna & _).
  split; [exact Hna|]. split.
  - rewrite Hz in Htot. symmetry in Htot. by apply length_zero_iff_nil in Htot.
  - by exists t2.
Qed.

Lemma empty_message_list_is_rejected_witness :
  (∃ t, heap (run Example.blank_acts_before initial_world) !! 0 = Some t ∧
        phase t = InInit) ∧
  (∃ content, o_readFile Example.blank_file = inl content ∧ normalize content = []) ∧
  no_active
    (emitted 0
       (trace (run Example.blank_acts_after
                 (task_step 0 Example.blank_file
                    (run Example.blank_acts_before initial_world)).2))) ∧
  ev_status <$>
    emitted 0
      (trace (run Example.blank_acts_after
                (task_step 0 Example.blank_file
                   (run Example.blank_acts_before initial_world)).2))
    = ["stopped"; "stopping"; "error"].
Proof.
  assert (Hw : ∃ t, heap (run Example.blank_acts_before initial_world) !! 0 = Some t ∧
                    phase t = InInit).
  { eexists. split; vm_compute; reflexivity. }
  assert (Hc : ∃ content, o_readFile Example.blank_file = inl content ∧
                          normalize content = []).
  { eexists. split; [reflexivity|]. vm_compute. reflexivity. }
  split; [exact Hw|]. split; [exact Hc|].
  destruct Hw as (t & Ht & Hp). destruct Hc as (content & Hread & Hn).
  split; [|vm_compute; reflexivity].
  exact (proj1 (proj2 (proj2
    (empty_message_list_is_rejected Example.blank_acts_before 0 t
       Example.blank_file content Example.blank_acts_after Ht Hp Hread Hn)))).
Defined.

(** * Further properties of the code *)

(** ** Splitting and trimming *)

Module SplitFacts.
Import JsString.

Lemma split_nonempty sep s : split sep s ≠ [].
Proof.
  destruct s as [|c r]; simpl; [done|].
  destruct (Ascii.eqb c sep); [done|]. by destruct (split sep r).
Qed.

(** Splitting a string that has a separator in the middle. *)
Lemma split_append sep s r :
  split sep (s +:+ String sep r) = (split sep s ++ split sep r)%list.
Proof.
  induction s as [|c s IH]; simpl.
  - by rewrite Ascii.eqb_refl.
  - destruct (Ascii.eqb c sep); [by rewrite IH|].
    rewrite IH. pose proof (split_nonempty sep s) as Hne.
    by destruct (split sep s).
Qed.

(** A character that is not in a string is in none of its segments. *)
Lemma split_segments_mem c sep s seg :
  mem c s = false → seg ∈ split sep s → mem c seg = false.
Proof.
  revert seg. induction s as [|d r IH]; simpl; intros seg Hc H.
  - apply list_elem_of_singleton in H. by subst.
  - apply orb_false_iff in Hc as [Hd Hr].
    destruct (Ascii.eqb d sep).
    + apply elem_of_cons in H as [->|H]; [done|]. by apply IH.
    + destruct (split sep r) as [|s0 segs] eqn:Es.
      * apply list_elem_of_singleton in H. subst. simpl. by rewrite Hd.
      * apply elem_of_cons in H as [->|H].
        -- simpl. rewrite Hd. simpl. apply IH; [done|left].
        -- apply IH; [done|by right].
Qed.

(** The first segment begins as the string does. *)
Lemma split_head sep s c r rest :
  split sep s = String c r :: rest → ∃ s', s = String c s'.
Proof.
  destruct s as [|d s']; simpl; [done|].
  destruct (Ascii.eqb d sep); [done|].
  destruct (split sep s'); intros [= -> _]; eauto.
Qed.

Lemma trimStart_head s c r : trimStart s = String c r → is_whitespace c = false.
Proof.
  induction s as [|d s IH]; simpl; [done|].
  destruct (is_whitespace d) eqn:E; [done|]. by intros [= <- _].
Qed.

Lemma trimEnd_cons c r :
  is_whitespace c = false → trimEnd (String c r) = String c (trimEnd r).
Proof. intros H. simpl. by rewrite H. Qed.

Lemma trimStart_cons c r :
  is_whitespace c = false → trimStart (String c r) = String c r.
Proof. intros H. simpl. by rewrite H. Qed.

Lemma trim_cons c r :
  is_whitespace c = false → trim (String c r) = String c (trimEnd r).
Proof. intros H. unfold trim. by rewrite trimStart_cons, trimEnd_cons. Qed.

Lemma trim_cons_whitespace c r :
  is_whitespace c = true → trim (String c r) = trim r.
Proof. intros H. unfold trim. simpl. by rewrite H. Qed.

(** A trimmed string does not begin with white space. *)
Lemma trim_head s c r : trim s = String c r → is_whitespace c = false.
Proof.
  unfold trim. destruct (trimStart s) as [|d x] eqn:E; [done|].
  pose proof (trimStart_head _ _ _ E) as Hd.
  rewrite (trimEnd_cons _ _ Hd). by intros [= <- _].
Qed.

Lemma trimEnd_idem s : trimEnd (trimEnd s) = trimEnd s.
Proof.
  induction s as [|c r IH]; simpl; [done|].
  destruct (is_whitespace c && is_empty (trimEnd r)) eqn:E; simpl; [done|].
  by rewrite IH, E.
Qed.

(** Trimming twice is trimming once. *)
Lemma trim_idem s : trim (trim s) = trim s.
Proof.
  unfold trim. destruct (trimStart s) as [|c x] eqn:E; [done|].
  pose proof (trimStart_head _ _ _ E) as Hc.
  rewrite (trimEnd_cons _ _ Hc), (trimStart_cons _ _ Hc), (trimEnd_cons _ _ Hc).
  by rewrite trimEnd_idem.
Qed.

Lemma trim_empty_iff c r :
  trim (String c r) = EmptyString ↔ is_whitespace c = true ∧ trim r = EmptyString.
Proof.
  destruct (is_whitespace c) eqn:E.
  - rewrite (trim_cons_whitespace _ _ E). split; [done|by intros [_ ?]].
  - rewrite (trim_cons _ _ E). split; [done|by intros [? _]].
Qed.

End SplitFacts.

(** ** The credential string *)

(** A fragment without '=' gives no cookie. *)
Lemma parsePair_no_equals pair :
  JsString.mem "=" pair = false → parsePair pair = [].
Proof.
  intros Hfree. unfold parsePair.
  by rewrite (StringFacts.split_free "=" _ (StringFacts.mem_trim _ _ Hfree)).
Qed.

(** X1. [parseCookies] reads the fragments between ';' one by one: the
    cookies of [s1;s2] are those of [s1] followed by those of [s2]. *)
Theorem parseCookies_concat s1 s2 :
  parseCookies (s1 +:+ ";" +:+ s2) = (parseCookies s1 ++ parseCookies s2)%list.
Proof.
  unfold parseCookies. cbv zeta.
  change (";" +:+ s2) with (String ";" s2).
  rewrite SplitFacts.split_append. apply bind_app.
Qed.

(** X2. Every cookie [parseCookies] returns has a name that is not empty;
    its name and its value carry no white space at either end and neither
    ';' nor '='; its other attributes are the fixed ones. *)
Theorem parseCookies_cookie_shape cookieString c :
  c ∈ parseCookies cookieString →
  cookie_name c ≠ EmptyString ∧
  JsString.trim (cookie_name c) = cookie_name c ∧
  JsString.trim (cookie_value c) = cookie_value c ∧
  JsString.mem ";" (cookie_name c) = false ∧
  JsString.mem ";" (cookie_value c) = false ∧
  JsString.mem "=" (cookie_name c) = false ∧
  JsString.mem "=" (cookie_value c) = false ∧
  cookie_domain c = ".facebook.com" ∧ cookie_path c = "/" ∧
  cookie_httpOnly c = false ∧ cookie_secure c = true.
Proof.
  unfold parseCookies. cbv zeta. intros H.
  apply list_elem_of_bind in H as (pair & Hc & Hpair).
  pose proof (StringFacts.split_segments_free _ _ _ Hpair) as Hsemi.
  apply StringFacts.mem_trim in Hsemi.
  unfold parsePair in Hc.
  destruct (JsString.split "=" (JsString.trim pair)) as [|name [|value rest]] eqn:E;
    try (by apply elem_of_nil in Hc).
  destruct (JsString.truthy name) eqn:Hn; [|by apply elem_of_nil in Hc].
  destruct (JsString.truthy value) eqn:Hv; [|by apply elem_of_nil in Hc].
  apply list_elem_of_singleton in Hc. subst c. simpl.
  assert (Hin1 : name ∈ JsString.split "=" (JsString.trim pair)) by (rewrite E; left).
  assert (Hin2 : value ∈ JsString.split "=" (JsString.trim pair))
    by (rewrite E; right; left).
  destruct name as [|c0 r0]; [done|].
  destruct (SplitFacts.split_head _ _ _ _ _ E) as [s' Hs'].
  pose proof (SplitFacts.trim_head _ _ _ Hs') as Hc0.
  split; [by rewrite (SplitFacts.trim_cons _ _ Hc0)|].
  split; [apply SplitFacts.trim_idem|]. split; [apply SplitFacts.trim_idem|].
  split; [by eapply StringFacts.mem_trim, SplitFacts.split_segments_mem|].
  split; [by eapply StringFacts.mem_trim, SplitFacts.split_segments_mem|].
  split; [by eapply StringFacts.mem_trim, StringFacts.split_segments_free|].
  split; [by eapply StringFacts.mem_trim, StringFacts.split_segments_free|].
  done.
Qed.

Lemma parseCookies_cookie_shape_witness :
  ∃ c, c ∈ parseCookies " c_user = 100 ; xs=a=b" ∧ cookie_name c = "c_user" ∧
       cookie_name c ≠ EmptyString ∧ cookie_value c = "100".
Proof.
  exists (make_cookie "c_user " " 100 ").
  assert (H : make_cookie "c_user " " 100 " ∈ parseCookies " c_user = 100 ; xs=a=b")
    by (vm_compute; left).
  split; [exact H|]. split; [reflexivity|].
  split; [exact (proj1 (parseCookies_cookie_shape _ _ H))|reflexivity].
Defined.

(** The value of a cookie can be empty, although an empty value segment is
    skipped: the test is made before the value is trimmed. *)
Example parseCookies_blank_value :
  cookie_value <$> parseCookies "a= =b" = [EmptyString].
Proof. reflexivity. Qed.

(** X3. A credential string without '=' gives no cookie at all; the empty
    string is one. *)
Theorem parseCookies_without_equals cookieString :
  JsString.mem "=" cookieString = false → parseCookies cookieString = [].
Proof.
  intros H. unfold parseCookies. cbv zeta.
  assert (Hall : Forall (fun pair => JsString.mem "=" pair = false)
                   (JsString.split ";" cookieString)).
  { apply Forall_forall. intros pair. by apply SplitFacts.split_segments_mem. }
  induction Hall as [|pair pairs Hp _ IH]; [done|].
  by rewrite bind_cons, (parsePair_no_equals _ Hp), IH.
Qed.

Lemma parseCookies_without_equals_witness :
  parseCookies EmptyString = [] ∧ parseCookies "c_user; xs ;" = [].
Proof.
  split; apply parseCookies_without_equals; reflexivity.
Defined.

(** ** The message file *)

Lemma normalize_cons_line line segs :
  List.filter (fun msg => (0 <? String.length msg)%nat)
    (map JsString.trim (line :: segs)) =
  ((if JsString.is_empty (JsString.trim line) then [] else [JsString.trim line]) ++
   List.filter (fun msg => (0 <? String.length msg)%nat) (map JsString.trim segs))%list.
Proof. simpl. by destruct (JsString.trim line). Qed.

(** X4. Every message [init] keeps is a line of the file, trimmed: it is not
    empty, carries no white space at either end and no line feed. *)
Theorem normalize_message_shape fileContent msg :
  msg ∈ normalize fileContent →
  msg ≠ EmptyString ∧ JsString.trim msg = msg ∧
  JsString.mem (ascii_of_nat 10) msg = false ∧
  ∃ line, line ∈ JsString.split (ascii_of_nat 10) fileContent ∧
          msg = JsString.trim line.
Proof.
  unfold normalize. intros H.
  apply list_elem_of_In, filter_In in H as [H Hlen].
  apply list_elem_of_In, list_elem_of_fmap in H as (line & -> & Hline).
  split; [by destruct (JsString.trim line)|].
  split; [apply SplitFacts.trim_idem|].
  split; [by eapply StringFacts.mem_trim, StringFacts.split_segments_free|].
  by exists line.
Qed.

Lemma normalize_message_shape_witness :
  "there" ∈ normalize Example.hi_there ∧ JsString.trim "there" = "there".
Proof.
  assert (H : "there" ∈ normalize Example.hi_there) by (vm_compute; right; left).
  split; [exact H|].
  exact (proj1 (proj2 (normalize_message_shape _ _ H))).
Defined.

(** X5. The messages of a file are those of its lines, in order: the
    messages of [a], a line feed, [b] are those of [a] followed by those of
    [b]. *)
Theorem normalize_concat a b :
  normalize (a +:+ String (ascii_of_nat 10) b) = (normalize a ++ normalize b)%list.
Proof.
  unfold normalize. by rewrite SplitFacts.split_append, map_app, List.filter_app.
Qed.

(** X6. The file gives no message, so that [init] fails, exactly when it
    holds nothing but white space and line terminators. *)
Theorem normalize_empty_iff fileContent :
  normalize fileContent = [] ↔ all_whitespace fileContent = true.
Proof.
  unfold normalize.
  induction fileContent as [|c r IH]; [done|].
  cbn [JsString.split all_whitespace].
  destruct (Ascii.eqb c (ascii_of_nat 10)) eqn:Ec.
  - apply Ascii.eqb_eq in Ec. subst c.
    rewrite normalize_cons_line. simpl. by rewrite IH.
  - pose proof (SplitFacts.split_nonempty (ascii_of_nat 10) r) as Hne.
    destruct (JsString.split (ascii_of_nat 10) r) as [|seg segs]; [done|].
    rewrite normalize_cons_line in *. rewrite andb_true_iff, <- IH.
    destruct (JsString.trim (String c seg)) as [|c1 x1] eqn:E1.
    + apply SplitFacts.trim_empty_iff in E1 as [Hc Hseg]. rewrite Hseg. simpl.
      split; [by split|by intros [_ ?]].
    + simpl. split; [done|]. intros [Hc Hrest].
      destruct (JsString.trim seg) as [|c2 x2] eqn:E2; [|done].
      assert (JsString.trim (String c seg) = EmptyString)
        by (by apply SplitFacts.trim_empty_iff).
      congruence.
Qed.

(** ** The registry *)

Lemma registered_init_entry sid sid' k w w' :
  sessionTasks w' = init_entry sid (sessionTasks w) →
  registered sid' k w' = registered sid' k w.
Proof.
  intros E. unfold registered. rewrite E. unfold init_entry.
  destruct (sessionTasks w !! sid) eqn:Hs; [done|].
  destruct (decide (sid = sid')) as [<-|Hne].
  - by rewrite lookup_insert_eq, Hs.
  - by rewrite lookup_insert_ne.
Qed.

Lemma init_entry_idem sid (obj : gmap string (gmap string addr)) :
  init_entry sid (init_entry sid obj) = init_entry sid obj.
Proof.
  unfold init_entry. destruct (obj !! sid) eqn:E; [by rewrite E|].
  by rewrite lookup_insert_eq.
Qed.

Lemma init_entry_is_Some sid sid' (obj : gmap string (gmap string addr)) :
  is_Some (init_entry sid obj !! sid') ↔ sid' = sid ∨ is_Some (obj !! sid').
Proof.
  unfold init_entry. destruct (obj !! sid) eqn:E.
  - split; [auto|]. intros [->|?]; [by rewrite E|done].
  - rewrite lookup_insert_is_Some. split; intros [?|?]; auto.
    + destruct H; auto.
    + destruct (decide (sid = sid')); auto.
Qed.

(** X7. [initSessionTasks] gives the session a task map and a browser map
    when it has none, registers nothing and removes nothing, and leaves the
    maps of a session that has them as they are; calling it twice is
    calling it once. *)
Theorem initSessionTasks_creates_missing_maps sid w :
  let w' := initSessionTasks sid w in
  is_Some (sessionTasks w' !! sid) ∧ is_Some (sessionBrowsers w' !! sid) ∧
  (∀ sid' k, registered sid' k w' = registered sid' k w) ∧
  (∀ sid' m, sessionTasks w !! sid' = Some m → sessionTasks w' !! sid' = Some m) ∧
  (∀ sid', is_Some (sessionTasks w' !! sid') ↔
           sid' = sid ∨ is_Some (sessionTasks w !! sid')) ∧
  heap w' = heap w ∧ trace w' = trace w ∧ timers w' = timers w ∧
  initSessionTasks sid w' = w'.
Proof.
  cbv zeta. split; [apply init_entry_is_Some; by left|].
  split; [apply init_entry_is_Some; by left|].
  split; [intros; by apply (registered_init_entry sid)|].
  split.
  { intros sid' m Hm. simpl. unfold init_entry.
    destruct (sessionTasks w !! sid) eqn:E; [done|].
    rewrite lookup_insert_ne; [done|]. intros ->. congruence. }
  split; [intros; apply init_entry_is_Some|].
  split; [done|]. split; [done|]. split; [done|].
  unfold initSessionTasks, upd_sessionBrowsers, upd_sessionTasks. simpl.
  by rewrite !init_entry_idem.
Qed.

Lemma registered_delete_entry_other sid k sid' k' w w' :
  sessionTasks w' = delete_entry sid k (sessionTasks w) →
  (sid', k') ≠ (sid, k) →
  registered sid' k' w' = registered sid' k' w.
Proof.
  intros E Hne. unfold registered. rewrite E. unfold delete_entry.
  destruct (sessionTasks w !! sid) as [m|] eqn:Hs; [|done].
  destruct (decide (sid = sid')) as [<-|Hns].
  - rewrite lookup_insert_eq, Hs. simpl.
    rewrite lookup_delete_ne; [done|]. intros ->. by destruct Hne.
  - by rewrite lookup_insert_ne.
Qed.

Lemma delete_entry_is_Some sid k sid' (obj : gmap string (gmap string addr)) :
  is_Some (delete_entry sid k obj !! sid') ↔ is_Some (obj !! sid').
Proof.
  unfold delete_entry. destruct (obj !! sid) eqn:E; [|done].
  rewrite lookup_insert_is_Some. split.
  - intros [<-|[_ ?]]; [by rewrite E|done].
  - intros H. destruct (decide (sid = sid')); auto.
Qed.

(** X8. [cleanup] never throws, whatever closing the page and the browser
    does. It deletes the entry under the session and the key of the task,
    whatever object that entry holds, and no other entry; it deletes no
    session map, assigns no field and emits nothing. *)
Theorem cleanup_deletes_one_entry a o w t :
  heap w !! a = Some t →
  let w' := (cleanup a o w).2 in
  (cleanup a o w).1 = Normal tt ∧
  registered (sessionId t) (taskId t) w' = None ∧
  (∀ sid k, (sid, k) ≠ (sessionId t, taskId t) →
     registered sid k w' = registered sid k w) ∧
  (∀ sid, is_Some (sessionTasks w' !! sid) ↔ is_Some (sessionTasks w !! sid)) ∧
  heap w' = heap w ∧ trace w' = trace w ∧
  sockets w' = sockets w ∧ rooms w' = rooms w ∧ timers w' = timers w.
Proof.
  intros Ht. cbv zeta. rewrite (cleanup_ok a o t w Ht). simpl.
  split; [done|]. split; [by apply (registered_delete_entry _ _ w)|].
  split; [intros; by apply (registered_delete_entry_other (sessionId t) (taskId t))|].
  split; [intros; apply delete_entry_is_Some|done].
Qed.

Lemma cleanup_deletes_one_entry_witness :
  registered Example.session1 "1000" (Example.looping "1") = Some 0 ∧
  registered Example.session1 "1000"
    (cleanup 0 Example.timed_out (Example.looping "1")).2 = None ∧
  is_Some (sessionTasks (cleanup 0 Example.timed_out (Example.looping "1")).2
             !! Example.session1).
Proof.
  assert (Hw : ∃ t, heap (Example.looping "1") !! 0 = Some t ∧
                    sessionId t = Example.session1 ∧ taskId t = "1000").
  { eexists. split; [vm_compute; reflexivity|]. split; reflexivity. }
  destruct Hw as (t & Ht & Hs & Hk).
  pose proof (cleanup_deletes_one_entry 0 Example.timed_out _ t Ht) as H.
  cbv zeta in H. rewrite Hs, Hk in H.
  split; [vm_compute; reflexivity|]. split; [exact (proj1 (proj2 H))|].
  apply (proj1 (proj2 (proj2 (proj2 H)))). vm_compute. eauto.
Defined.

(** ** The sweep and its timers *)

Lemma count_app sid (l1 l2 : list string) :
  length (List.filter (String.eqb sid) (l1 ++ l2)) =
  length (List.filter (String.eqb sid) l1) + length (List.filter (String.eqb sid) l2).
Proof. by rewrite List.filter_app, length_app. Qed.

(** How often a session occurs among the sessions of a list of entries whose
    map is empty. *)
Lemma count_empty_sessions sid (entries : list (string * gmap string addr)) :
  NoDup entries.*1 →
  let f := fun '(sid, m) =>
             if (size (m : gmap string addr) =? 0)%nat then Some sid else None in
  let n := length (List.filter (String.eqb sid) (omap f entries)) in
  ((sid, ∅) ∈ entries → n = 1) ∧ ((sid, ∅) ∉ entries → n = 0).
Proof.
  intros Hnd f. induction entries as [|[s m] entries IH].
  - simpl. split; [intros H; by apply elem_of_nil in H|done].
  - apply NoDup_cons in Hnd as [Hs Hnd]. destruct (IH Hnd) as [IH1 IH0]. clear IH.
    assert (Hfst : (sid, ∅) ∈ entries → sid ≠ s).
    { intros Hin ->. apply Hs. apply list_elem_of_fmap. by exists (s, ∅). }
    assert (Hcons : omap f ((s, m) :: entries) =
              if (size m =? 0)%nat then s :: omap f entries else omap f entries).
    { simpl. by destruct (size m =? 0)%nat. }
    cbv zeta. rewrite Hcons. clear Hcons.
    destruct (size m =? 0)%nat eqn:Hm.
    + apply Nat.eqb_eq, map_size_empty_iff in Hm. subst m.
      cbn [List.filter]. destruct (String.eqb sid s) eqn:Es.
      * apply String.eqb_eq in Es. subst s. cbn [length].
        split; [|intros H; destruct H; left].
        intros _. rewrite IH0; [done|]. intros Hin. by apply Hfst in Hin.
      * apply String.eqb_neq in Es. split.
        -- intros Hin. apply elem_of_cons in Hin as [[= ?]|Hin]; [done|auto].
        -- intros Hin. apply IH0. intros Hc. apply Hin. by right.
    + apply Nat.eqb_neq in Hm. split.
      * intros Hin. apply elem_of_cons in Hin as [[= _ <-]|Hin]; [|auto].
        by rewrite map_size_empty in Hm.
      * intros Hin. apply IH0. intros Hc. apply Hin. by right.
Qed.

(** X9. A sweep changes nothing but the timers. It sets one more timer for
    every session whose task map is empty at that moment, also when timers
    for the session are pending already, and none for the other sessions:
    an empty session gathers one timer for every sweep. *)
Theorem sweep_sets_one_timer_per_empty_session w sid :
  sessionTasks (sweep w) = sessionTasks w ∧
  sessionBrowsers (sweep w) = sessionBrowsers w ∧
  heap (sweep w) = heap w ∧ trace (sweep w) = trace w ∧
  pending sid (sweep w) =
    pending sid w + (if decide (sessionTasks w !! sid = Some ∅) then 1 else 0) ∧
  ∀ n, sessionTasks w !! sid = Some ∅ →
       pending sid (Nat.iter n sweep w) = pending sid w + n.
Proof.
  assert (Hone : ∀ w0, pending sid (sweep w0) =
            pending sid w0 + (if decide (sessionTasks w0 !! sid = Some ∅) then 1 else 0)).
  { intros w0. unfold pending, sweep. cbv zeta. simpl. rewrite count_app.
    destruct (count_empty_sessions sid (map_to_list (sessionTasks w0)))
      as [H1 H0]; [apply NoDup_fst_map_to_list|].
    f_equal. destruct (decide (sessionTasks w0 !! sid = Some ∅)) as [E|E].
    - apply H1. by apply elem_of_map_to_list.
    - apply H0. intros Hin. by apply elem_of_map_to_list in Hin. }
  repeat split; try done.
  intros n Hempty. induction n as [|n IH]; simpl; [lia|].
  rewrite Hone, IH. rewrite decide_True; [lia|].
  clear IH. induction n as [|n IH]; [done|]. done.
Qed.

(** ** What the handlers do to the registry *)

Lemma stop_unknown a now o w : heap w !! a = None → (stop a now o w).2 = w.
Proof. intros H. unfold stop, bind, setThis. by rewrite H. Qed.

Lemma task_step_unknown a o w : heap w !! a = None → (task_step a o w).2 = w.
Proof. intros H. unfold task_step, bind, getThis. by rewrite H. Qed.

Lemma resume_unknown a o w : heap w !! a = None → (resume a o w).2 = w.
Proof. intros H. unfold resume, bind, getThis. by rewrite H. Qed.

Lemma stop_resume_unknown a i o w : heap w !! a = None → (stop_resume a i o w).2 = w.
Proof. intros H. unfold stop_resume, bind, getThis. by rewrite H. Qed.

Lemma stop_call_unknown a now w : heap w !! a = None → (stop_call a now w).2 = w.
Proof. intros H. unfold stop_call, bind, setThis. by rewrite H. Qed.

(** A step of the code of an object leaves the registries or deletes the
    entry of the key of the object. *)
Lemma summary_registry act a t w w' t' new :
  step_summary a t w w' t' new → registry_effect act w w'.
Proof.
  intros Hsum. destruct (ss_registry _ _ _ _ _ _ Hsum) as [[? ?]|[? ?]];
    [by apply reg_same|by apply (reg_delete _ _ _ (sessionId t) (taskId t))].
Qed.

Lemma emit_running_registry entries w :
  sessionTasks (emit_running entries w).2 = sessionTasks w ∧
  sessionBrowsers (emit_running entries w).2 = sessionBrowsers w.
Proof.
  revert w. induction entries as [|[k a] rest IH]; intros w; [done|].
  simpl. unfold bind, getThis. destruct (heap w !! a) as [t|] eqn:Ht; [|done].
  destruct (isRunning t).
  - rewrite (emitStatus_ok _ _ _ _ _ Ht). exact (IH (upd_trace _ w)).
  - apply IH.
Qed.

(** Every handler and every step of a task changes the registries in one of
    five ways. *)
Lemma apply_action_registry act w : registry_effect act w (apply_action act w).
Proof.
  destruct act; simpl; try (by apply reg_same); try (by apply (reg_init _ _ _ sid)).
  - (* start-task *)
    destruct (post_start_task_cases sid body now w)
      as [(_ & ->)|[(_ & _ & ->)|(Hreq & Hj & w' & -> & _ & Hst & Hsb & _)]];
      [by apply (reg_init _ _ _ sid)|by apply (reg_init _ _ _ sid)|].
    apply js_get_undefined in Hj as [Hnone Hkey]. simpl in Hst, Hsb, Hnone |- *.
    destruct (init_entry_present sid (sessionTasks w)) as (m & Hm & Hcase).
    rewrite Hm in Hst, Hnone. simpl in Hst, Hnone.
    apply (reg_add _ _ _ sid body now); try done.
    + unfold registered. by destruct Hcase as [->|[-> ->]].
    + rewrite Hst. destruct Hcase as [Hw|[Hw ->]]; rewrite Hw; simpl.
      * unfold init_entry. by rewrite Hw.
      * unfold init_entry. rewrite Hw. by rewrite insert_insert_eq.
  - (* stop-task *)
    destruct (post_stop_task_cases sid tid now w)
      as [->|(k & m & a & _ & _ & _ & ->)]; [by apply reg_same|].
    simpl. destruct (heap w !! a) as [t|] eqn:Ht.
    + destruct (stop_call_move a now w t Ht) as (w' & t' & new & -> & Hsum & _).
      by eapply summary_registry.
    + rewrite (stop_call_unknown _ _ _ Ht). by apply reg_same.
  - (* getSessionTasks *)
    unfold on_getSessionTasks.
    destruct (sockets w !! sock) as [sid|]; [|by apply reg_same].
    destruct (sessionTasks w !! sid) as [m|]; [|by apply reg_same].
    apply reg_same; apply emit_running_registry.
  - (* the timer *)
    unfold timer_fire. destruct (timers w) as [|sid rest] eqn:Hti; [by apply reg_same|].
    apply (reg_drop _ _ _ sid); [done|by rewrite Hti|done|done].
  - (* a stage of a task *)
    destruct (heap w !! a) as [t|] eqn:Ht.
    + destruct (task_step_summary a o w t Ht) as (w' & t' & new & -> & Hsum & _).
      by eapply summary_registry.
    + rewrite (task_step_unknown _ _ _ Ht). by apply reg_same.
  - (* a task goes on *)
    destruct (heap w !! a) as [t|] eqn:Ht.
    + destruct (resume_summary a o w t Ht) as (w' & t' & new & -> & Hsum & _).
      by eapply summary_registry.
    + rewrite (resume_unknown _ _ _ Ht). by apply reg_same.
  - (* a call of stop goes on *)
    destruct (heap w !! a) as [t|] eqn:Ht.
    + destruct (stop_resume_move a i o w t Ht) as (w' & t' & new & -> & Hsum & _).
      by eapply summary_registry.
    + rewrite (stop_resume_unknown _ _ _ _ Ht). by apply reg_same.
Qed.

(** X10. The map of a session is deleted by the callback of a timer of
    the sweep and by nothing else: after any other handler, and after any
    step of a task, a session that had a task map has one. *)
Theorem session_map_deleted_only_by_timer act w sid :
  is_Some (sessionTasks w !! sid) →
  sessionTasks (apply_action act w) !! sid = None →
  act = TimerFire ∧ head (timers w) = Some sid.
Proof.
  intros Hsome Hnone.
  destruct (apply_action_registry act w)
    as [E _|s E _|s body now _ _ _ _ E _|s k E _|s Hact Hhead E _];
    rewrite E in Hnone.
  - rewrite Hnone in Hsome. by destruct Hsome.
  - assert (is_Some (init_entry s (sessionTasks w) !! sid)) as [m Hm]
      by (apply init_entry_is_Some; by right).
    congruence.
  - destruct (decide (s = sid)) as [->|Hne].
    + by rewrite lookup_insert_eq in Hnone.
    + rewrite lookup_insert_ne in Hnone by done.
      rewrite Hnone in Hsome. by destruct Hsome.
  - assert (is_Some (delete_entry s k (sessionTasks w) !! sid)) as [m Hm]
      by by apply delete_entry_is_Some.
    congruence.
  - split; [done|]. rewrite Hhead. f_equal.
    destruct (decide (s = sid)) as [->|Hne]; [done|].
    rewrite lookup_delete_ne in Hnone by done.
    rewrite Hnone in Hsome. by destruct Hsome.
Qed.

Lemma session_map_deleted_only_by_timer_witness :
  is_Some (sessionTasks (run Example.grace_acts initial_world) !! Example.session1) ∧
  sessionTasks (apply_action TimerFire (run Example.grace_acts initial_world))
    !! Example.session1 = None ∧
  head (timers (run Example.grace_acts initial_world)) = Some Example.session1.
Proof.
  assert (H1 : is_Some (sessionTasks (run Example.grace_acts initial_world)
                          !! Example.session1)) by (vm_compute; eauto).
  assert (H2 : sessionTasks (apply_action TimerFire (run Example.grace_acts initial_world))
                 !! Example.session1 = None) by (vm_compute; reflexivity).
  split; [exact H1|]. split; [exact H2|].
  exact (proj2 (session_map_deleted_only_by_timer TimerFire _ _ H1 H2)).
Defined.

Lemma dom_init_entry sid (obj : gmap string (gmap string addr)) :
  dom (init_entry sid obj) = {[sid]} ∪ dom obj.
Proof.
  unfold init_entry. destruct (obj !! sid) eqn:E; [|by rewrite dom_insert_L].
  apply elem_of_dom_2 in E. apply set_eq. intros x.
  rewrite elem_of_union, elem_of_singleton. split; [auto|by intros [->|?]].
Qed.

Lemma dom_delete_entry sid k (obj : gmap string (gmap string addr)) :
  dom (delete_entry sid k obj) = dom obj.
Proof.
  unfold delete_entry. destruct (obj !! sid) eqn:E; [|done].
  rewrite dom_insert_L. apply elem_of_dom_2 in E. apply set_eq. intros x.
  rewrite elem_of_union, elem_of_singleton. split; [by intros [->|?]|auto].
Qed.

Lemma browsers_unused_step act w :
  browsers_unused w → browsers_unused (apply_action act w).
Proof.
  intros [Hdom Hempty].
  destruct (apply_action_registry act w)
    as [E1 E2|s E1 E2|s body now _ _ _ _ E1 E2|s k E1 E2|s _ _ E1 E2];
    split; rewrite ?E1, ?E2.
  - done.
  - done.
  - by rewrite !dom_init_entry, Hdom.
  - intros sid m. unfold init_entry. destruct (sessionBrowsers w !! s) eqn:E; [apply Hempty|].
    destruct (decide (s = sid)) as [->|Hne].
    + rewrite lookup_insert_eq. by intros [= <-].
    + rewrite lookup_insert_ne by done. apply Hempty.
  - by rewrite dom_init_entry, dom_insert_L, Hdom.
  - intros sid m. unfold init_entry. destruct (sessionBrowsers w !! s) eqn:E; [apply Hempty|].
    destruct (decide (s = sid)) as [->|Hne].
    + rewrite lookup_insert_eq. by intros [= <-].
    + rewrite lookup_insert_ne by done. apply Hempty.
  - by rewrite !dom_delete_entry.
  - intros sid m. unfold delete_entry.
    destruct (sessionBrowsers w !! s) as [m0|] eqn:E; [|apply Hempty].
    destruct (decide (s = sid)) as [->|Hne].
    + rewrite lookup_insert_eq. intros [= <-].
      rewrite (Hempty _ _ E). apply delete_empty.
    + rewrite lookup_insert_ne by done. apply Hempty.
  - by rewrite !dom_delete_L, Hdom.
  - intros sid m Hm. apply lookup_delete_Some in Hm as [_ Hm]. by apply (Hempty sid).
Qed.

(** X11. [sessionBrowsers] is never given a browser: in every state of
    every run it has a map for exactly the sessions that have a task map,
    and every one of these maps is empty; the browser of a task is only
    held by the task itself. *)
Theorem sessionBrowsers_holds_no_browser acts :
  let w := run acts initial_world in
  dom (sessionBrowsers w) = dom (sessionTasks w) ∧
  ∀ sid m, sessionBrowsers w !! sid = Some m → m = ∅.
Proof.
  cbv zeta. change (browsers_unused (run acts initial_world)).
  assert (Hrun : ∀ w, browsers_unused w → browsers_unused (run acts w)).
  { induction acts as [|act acts IH]; intros w Hw; [done|].
    simpl. apply IH. by apply browsers_unused_step. }
  apply Hrun. split; [done|]. intros sid m Hm. simpl in Hm.
  by rewrite lookup_empty in Hm.
Qed.

(** ** The entries of the registry *)

(** An entry found after a handler or a step was there before, unless a
    start-task request has just made it. *)
Lemma registry_effect_entries act w w' sid k a :
  registry_effect act w w' → registered sid k w' = Some a →
  registered sid k w = Some a ∨
  ∃ body now, act = PostStartTask sid body now ∧
              k = default EmptyString (b_threadId body) ∧
              has_required_fields body = true ∧ a = fresh (dom (heap w)).
Proof.
  intros [E _|s E _|s body now Hact Hreq _ _ E _|s k0 E _|s _ _ E _] Hr.
  - left. unfold registered in *. by rewrite E in Hr.
  - left. by rewrite (registered_init_entry s _ _ w w' E) in Hr.
  - unfold registered in Hr. rewrite E in Hr.
    destruct (decide (s = sid)) as [->|Hne].
    + rewrite lookup_insert_eq in Hr. simpl in Hr.
      destruct (decide (default EmptyString (b_threadId body) = k)) as [<-|Hnk].
      * rewrite lookup_insert_eq in Hr. injection Hr as <-. right. by exists body, now.
      * rewrite lookup_insert_ne in Hr by done. left. unfold registered.
        destruct (sessionTasks w !! sid); simpl in Hr |- *;
          [done|by rewrite lookup_empty in Hr].
    + rewrite lookup_insert_ne in Hr by done. by left.
  - left. apply registered_Some in Hr as (m & Hm & Hk). rewrite E in Hm.
    apply registered_Some. by eapply delete_entry_lookup.
  - left. unfold registered in *. rewrite E in Hr.
    destruct (decide (s = sid)) as [->|Hne].
    + by rewrite lookup_delete_eq in Hr.
    + by rewrite lookup_delete_ne in Hr.
Qed.

Lemma required_fields_threadId body :
  has_required_fields body = true →
  JsString.truthy (default EmptyString (b_threadId body)) = true.
Proof.
  unfold has_required_fields. intros H.
  apply andb_true_iff in H as [H _]. apply andb_true_iff in H as [H _].
  apply andb_true_iff in H as [_ H]. by destruct (b_threadId body).
Qed.

(** The key of every entry is a string that is not empty. *)
Lemma registered_key_truthy acts sid k a :
  registered sid k (run acts initial_world) = Some a → JsString.truthy k = true.
Proof.
  assert (Hrun : ∀ w, (∀ sid k a, registered sid k w = Some a → JsString.truthy k = true) →
            ∀ sid k a, registered sid k (run acts w) = Some a → JsString.truthy k = true).
  { induction acts as [|act acts IH]; intros w Hw; [done|].
    simpl. apply IH. intros sid' k' a' Hr.
    destruct (registry_effect_entries act w _ sid' k' a' (apply_action_registry act w) Hr)
      as [Hold|(body & now & _ & -> & Hreq & _)]; [by eapply Hw|].
    by apply required_fields_threadId. }
  apply Hrun. intros sid' k' a'. unfold registered. simpl. by rewrite lookup_empty.
Qed.

Lemma default_init_entry sid (obj : gmap string (gmap string addr)) :
  default ∅ (init_entry sid obj !! sid) = default ∅ (obj !! sid).
Proof.
  unfold init_entry. destruct (obj !! sid) eqn:E; [by rewrite E|].
  by rewrite lookup_insert_eq.
Qed.

(** ** The start-task and stop-task requests *)

(** The duplicate test of the handler, in terms of the registry. *)
Lemma duplicate_test sid tid w :
  js_truthy (js_get (default ∅ (sessionTasks (initSessionTasks sid w) !! sid)) tid) =
  bool_decide (is_Some (registered sid tid w)) || bool_decide (tid ∈ object_prototype_keys).
Proof.
  simpl. rewrite default_init_entry. unfold js_get, registered.
  destruct (sessionTasks w !! sid) as [m|]; simpl.
  - destruct (m !! tid); simpl; [done|]. by case_bool_decide.
  - rewrite lookup_empty. by case_bool_decide.
Qed.

(** X12. The answer to a start-task request. A request that lacks the
    cookie, the thread, the file or the delay, or has an empty string for
    one of them, is refused for its fields, before the key is looked at.
    Otherwise it is refused as a duplicate when its key is registered in
    the session or names a property every object inherits, and accepted if
    not; what the fields hold is not examined. A refused request only makes
    sure that the session has its maps. An accepted one adds one object,
    not running and without messages, registers it under its key, and
    emits nothing. *)
Theorem start_task_response sid body now w :
  let tid := default EmptyString (b_threadId body) in
  let r := post_start_task sid body now w in
  r.1 =
    (if negb (has_required_fields body)
     then BadRequest "Missing required fields"
     else if bool_decide (is_Some (registered sid tid w))
             || bool_decide (tid ∈ object_prototype_keys)
          then BadRequest "Task already running for this thread in your session"
          else TaskStarted tid sid) ∧
  (r.1 ≠ TaskStarted tid sid → r.2 = initSessionTasks sid w) ∧
  (r.1 = TaskStarted tid sid →
     heap r.2 = <[fresh (dom (heap w)) :=
                    new_MessageSender tid (request_config body) sid now]> (heap w) ∧
     heap w !! fresh (dom (heap w)) = None ∧
     registered sid tid r.2 = Some (fresh (dom (heap w))) ∧
     (∀ sid' k, (sid', k) ≠ (sid, tid) → registered sid' k r.2 = registered sid' k w) ∧
     trace r.2 = trace w ∧ timers r.2 = timers w).
Proof.
  cbv zeta.
  destruct (post_start_task_cases sid body now w)
    as [(Hreq & E)|[(Hreq & Hj & E)|(Hreq & Hj & w' & E & Hh & Hst & _ & _ & _ & Hti & Htr)]];
    cbv zeta in *; rewrite E, Hreq; simpl.
  - done.
  - rewrite duplicate_test in Hj. rewrite Hj. done.
  - rewrite duplicate_test in Hj. rewrite Hj.
    split; [done|]. split; [done|]. intros _.
    split; [done|]. split; [apply fresh_addr|].
    split; [unfold registered; rewrite Hst, lookup_insert_eq; simpl; apply lookup_insert_eq|].
    split; [|done]. intros sid' k Hne. unfold registered. rewrite Hst.
    destruct (decide (sid = sid')) as [<-|Hns].
    + rewrite lookup_insert_eq. simpl. rewrite lookup_insert_ne.
      * simpl. rewrite default_init_entry. by destruct (sessionTasks w !! sid).
      * intros <-. by destruct Hne.
    + rewrite lookup_insert_ne by done.
      apply (registered_init_entry sid sid' k w (initSessionTasks sid w)). done.
Qed.

(** A stop-task request for a registered key calls [stop()] on the object
    that is registered. *)
Lemma post_stop_task_registered w sid k a now :
  world_ok w → registered sid k w = Some a → JsString.truthy k = true →
  ∃ t, heap w !! a = Some t ∧ sessionId t = sid ∧ taskId t = k ∧
       post_stop_task sid (Some k) now w = (TaskStopped, (stop_call a now w).2).
Proof.
  intros Hok Hr Hk.
  destruct (registered_owner w sid k a Hok Hr) as (_ & t & Ht & Hs & Hti & _).
  apply registered_Some in Hr as (m & Hm & Ha).
  exists t. split; [done|]. split; [done|]. split; [done|].
  unfold post_stop_task. by rewrite Hm, Hk, (js_get_own _ _ _ Ha).
Qed.

(** The handles of a task tell whether a call of [stop()] is suspended. *)
Lemma handles_by_phase t :
  handles_ok t →
  (phase t = InInit → page t || browser t = false) ∧
  (starting (phase t) = false → phase t ≠ Returned → page t = true).
Proof.
  unfold handles_ok. destruct (phase t); simpl; intros H; split; try done;
    try (by destruct H as [-> ->]); by destruct H as [_ ->].
Qed.

(** X13. The answer to a stop-task request, in every state of every run.
    When the key is registered in the session of the request, [stop()] is
    called on that object and the request is answered as a success without
    waiting for the call to return: the task is no longer running, has its
    stop time, and has emitted "stopping"; no other entry of the registry
    changes. A task that holds neither a page nor a browser, as before its
    file is read, has lost its entry by then, and "stopped" is emitted
    before any other code runs. A task that holds a page, as every task
    does once [init] is over and until [start()] returns, or a browser, is
    still registered and has not emitted "stopped": the call is suspended
    where it closes the page or the browser. In every other case the
    request changes nothing: no task of another session can be stopped,
    whatever key is sent. *)
Theorem stop_task_response acts sid tid now :
  let w := run acts initial_world in
  let r := post_stop_task sid tid now w in
  match tid ≫= (fun k => registered sid k w) with
  | Some a =>
      r.1 = TaskStopped ∧
      ∃ k t t',
        tid = Some k ∧ heap w !! a = Some t ∧ sessionId t = sid ∧ taskId t = k ∧
        heap r.2 = <[a := t']> (heap w) ∧
        t' = set_stopCalls (stopCalls t')
               (set_stopTime (Some now) (set_isRunning false t)) ∧
        (∀ sid' k', (sid', k') ≠ (sid, k) →
           registered sid' k' r.2 = registered sid' k' w) ∧
        (phase t = InInit → page t || browser t = false) ∧
        (starting (phase t) = false → phase t ≠ Returned → page t = true) ∧
        if page t || browser t then
          registered sid k r.2 = Some a ∧
          stopCalls t' =
            (stopCalls t ++ [if page t then ClosingPage else ClosingBrowser])%list ∧
          ev_status <$> emitted a (trace r.2) =
            "stopping" :: (ev_status <$> emitted a (trace w))
        else
          registered sid k r.2 = None ∧
          stopCalls t' = stopCalls t ∧
          ev_status <$> emitted a (trace r.2) =
            "stopped" :: "stopping" :: (ev_status <$> emitted a (trace w))
  | None =>
      r.2 = w ∧ r.1 ≠ TaskStopped ∧
      (r.1 = BadRequest "Task not found in your session" ∨
       ∃ k, tid = Some k ∧ k ∈ object_prototype_keys)
  end.
Proof.
  cbv zeta. set (w := run acts initial_world).
  assert (Hok : world_ok w) by apply run_ok, initial_world_ok.
  destruct tid as [k|]; [|simpl; by auto].
  change (Some k ≫= (fun k => registered sid k w)) with (registered sid k w).
  destruct (registered sid k w) as [a|] eqn:Hr.
  - pose proof (registered_key_truthy acts sid k a Hr) as Hk.
    destruct (post_stop_task_registered w sid k a now Hok Hr Hk)
      as (t & Ht & Hs & Hti & Heq).
    destruct (stop_call_summary a now w t Ht)
      as (w' & t' & new & Hcall & Hsum & _ & _ & Ht' & _ & Hcase).
    rewrite Heq, Hcall. simpl. split; [done|]. exists k, t, t'.
    split; [done|]. split; [done|]. split; [done|]. split; [done|].
    split; [apply Hsum|]. split; [done|].
    destruct (handles_by_phase t (proj1 (ok_phase w Hok a t Ht))) as [Hh1 Hh2].
    split.
    { intros sid' k' Hne. destruct (ss_registry _ _ _ _ _ _ Hsum) as [[E _]|[E _]].
      - unfold registered. by rewrite E.
      - apply (registered_delete_entry_other (sessionId t) (taskId t)); [done|].
        by rewrite Hs, Hti. }
    split; [done|]. split; [done|].
    rewrite (ss_trace _ _ _ _ _ _ Hsum), emitted_app, fmap_app.
    destruct (page t || browser t).
    + destruct Hcase as (-> & Hc & Hst & _).
      split; [|done]. unfold registered in *. by rewrite Hst.
    + destruct Hcase as (-> & Hc & Hst & _).
      split; [|done]. apply (registered_delete_entry sid k w). by rewrite Hst, Hs, Hti.
  - unfold post_stop_task, registered in *.
    destruct (sessionTasks w !! sid) as [m|]; simpl in Hr; [|by auto].
    destruct (JsString.truthy k); [|by auto].
    unfold js_get. rewrite Hr. case_bool_decide; simpl; [|by auto].
    split; [done|]. split; [done|]. right. by exists k.
Qed.

(** ** Listings and reports *)

Lemma summary_keys sid w (entries : list (string * addr)) :
  Forall (fun entry => is_Some (heap w !! entry.2)) entries →
  ts_taskId <$> (entries ≫= summary sid w) = entries.*1.
Proof.
  induction 1 as [|[k a] entries [t Ht] _ IH]; [done|].
  rewrite bind_cons, fmap_app, IH. unfold summary. simpl in *. by rewrite Ht.
Qed.

(** X14. In every state of every run the listing of [/active-tasks] has one
    row for every key registered in the session, and no other row, and the
    count [/session-info] gives is the number of these rows; tasks are
    counted whether they run or not. [/session-info] changes nothing. *)
Theorem session_info_counts_listing acts sid :
  let w := run acts initial_world in
  get_session_info sid w = (SessionInfo sid (length (listing sid w)), w) ∧
  NoDup (ts_taskId <$> listing sid w) ∧
  (∀ k, k ∈ ts_taskId <$> listing sid w ↔ is_Some (registered sid k w)).
Proof.
  cbv zeta. set (w := run acts initial_world).
  assert (Hok : world_ok w) by apply run_ok, initial_world_ok.
  set (m := default ∅ (sessionTasks w !! sid)).
  assert (Hkeys : ts_taskId <$> listing sid w = (map_to_list m).*1).
  { unfold listing, get_active_tasks, listed. simpl. rewrite default_init_entry.
    apply summary_keys. apply Forall_forall. intros [k a] Hin. simpl.
    apply elem_of_map_to_list in Hin. unfold m in Hin.
    destruct (sessionTasks w !! sid) as [m0|] eqn:Hm; simpl in Hin;
      [|by rewrite lookup_empty in Hin].
    destruct (ok_entries w Hok _ _ _ _ Hm Hin) as (_ & t & Ht & _). eauto. }
  split; [|split].
  - unfold get_session_info. f_equal. f_equal.
    rewrite <- (length_fmap ts_taskId), Hkeys, length_fmap.
    symmetry. apply length_map_to_list.
  - rewrite Hkeys. apply NoDup_fst_map_to_list.
  - intros k. rewrite Hkeys, list_elem_of_fmap. unfold registered, m. split.
    + intros ([k' a] & -> & Hin). apply elem_of_map_to_list in Hin. simpl.
      destruct (sessionTasks w !! sid); simpl in *; [eauto|by rewrite lookup_empty in Hin].
    + intros [a Ha]. exists (k, a). split; [done|]. apply elem_of_map_to_list.
      by destruct (sessionTasks w !! sid).
Qed.

(** [emit_running] computes every report in the state it starts from. *)
Lemma emit_running_reports entries w :
  Forall (fun entry => is_Some (heap w !! entry.2)) entries →
  emit_running entries w =
    (Normal tt, upd_trace (fun tr => rev (omap (report_of w) entries) ++ tr)%list w).
Proof.
  intros Hall. revert w Hall. induction entries as [|[k a] rest IH]; intros w Hall.
  - simpl. unfold ret. by destruct w.
  - apply Forall_cons in Hall as [[t Ht] Hall]. simpl in Ht.
    assert (Hrep : report_of w (k, a) =
              if isRunning t
              then Some (Emit a (sessionId t) (room_members (sessionId t) w)
                           (status_data t "active"
                              ("Task running - " +:+ pretty (totalSent t)
                               +:+ " messages sent")))
              else None).
    { unfold report_of. simpl. by rewrite Ht. }
    cbn [emit_running omap list_omap]. rewrite Hrep. mrun.
    destruct (isRunning t) eqn:Hr; mrun.
    + rewrite IH by done. f_equal. unfold upd_trace. simpl. f_equal.
      rewrite <- app_assoc. done.
    + by rewrite IH.
Qed.

(** X15. What [getSessionTasks] does, in every state of every run: for
    every task registered in the session of the asking socket that is
    running, and for no other, one event with status "active" is sent to
    the room of the session, so to all its sockets and not only to the one
    that asked; the status "stopped" is never sent. Every event is computed
    from the state at the request, and nothing but the trace changes. *)
Theorem getSessionTasks_reports_running_tasks acts sock sid :
  let w := run acts initial_world in
  sockets w !! sock = Some sid →
  on_getSessionTasks sock w =
    upd_trace (fun tr => rev (omap (report_of w) (listed sid w)) ++ tr)%list w ∧
  ∀ e, e ∈ omap (report_of w) (listed sid w) ↔
       ∃ a t, registered sid (taskId t) w = Some a ∧ heap w !! a = Some t ∧
              isRunning t = true ∧
              e = Emit a sid (room_members sid w)
                    (status_data t "active"
                       ("Task running - " +:+ pretty (totalSent t)
                        +:+ " messages sent")).
Proof.
  cbv zeta. set (w := run acts initial_world). intros Hsock.
  assert (Hok : world_ok w) by apply run_ok, initial_world_ok.
  split.
  - unfold on_getSessionTasks, listed. rewrite Hsock.
    destruct (sessionTasks w !! sid) as [m|] eqn:Hm; simpl.
    + rewrite emit_running_reports; [done|].
      apply Forall_forall. intros [k a] Hin. apply elem_of_map_to_list in Hin.
      destruct (ok_entries w Hok _ _ _ _ Hm Hin) as (_ & t & Ht & _). simpl. eauto.
    + rewrite map_to_list_empty. by destruct w.
  - intros e. rewrite list_elem_of_omap. split.
    + intros ([k a] & Hin & Hrep). apply elem_of_map_to_list in Hin.
      assert (Hr : registered sid k w = Some a).
      { unfold registered. destruct (sessionTasks w !! sid); simpl in *;
          [done|by rewrite lookup_empty in Hin]. }
      destruct (registered_owner w sid k a Hok Hr) as (_ & t & Ht & Hs & Hk & _).
      unfold report_of in Hrep. simpl in Hrep. rewrite Ht in Hrep. simpl in Hrep.
      destruct (isRunning t) eqn:Hrun; [|done]. injection Hrep as <-.
      exists a, t. by rewrite Hk, Hs.
    + intros (a & t & Hr & Ht & Hrun & ->).
      destruct (registered_owner w sid _ a Hok Hr) as (_ & t0 & Ht0 & Hs & _).
      assert (t0 = t) as -> by congruence.
      exists (taskId t, a). split.
      * apply elem_of_map_to_list. unfold registered in Hr.
        by destruct (sessionTasks w !! sid).
      * unfold report_of. simpl. rewrite Ht. simpl. by rewrite Hrun, Hs.
Qed.

(** ** Initialization and the loading of the pages *)

Ltac world_eq :=
  unfold upd_heap, upd_trace, room_members; simpl; rewrite ?insert_insert_eq;
  reflexivity.

(** [init] in full: it never throws; it returns false with one "error"
    event when a step of its [try] block fails, and true without any event
    when none does. *)
Lemma init_outcome a o w t :
  heap w !! a = Some t →
  ∃ t1,
    match init_failure o with
    | Some msg =>
        init a o w =
          (Normal false,
           upd_trace (cons (Emit a (sessionId t) (room_members (sessionId t) w)
                              (status_data t1 "error"
                                 ("Initialization failed: " +:+ msg))))
             (upd_heap (insert a t1) w))
    | None =>
        init a o w = (Normal true, upd_heap (insert a t1) w) ∧
        messages t1 ≠ [] ∧ browser t1 = true ∧ page t1 = true ∧
        ∃ content, o_readFile o = inl content ∧ messages t1 = normalize content
    end ∧
    taskId t1 = taskId t ∧ sessionId t1 = sessionId t ∧ config t1 = config t ∧
    startTime t1 = startTime t ∧ stopTime t1 = stopTime t ∧
    phase t1 = phase t ∧ isRunning t1 = isRunning t ∧
    totalSent t1 = totalSent t ∧ currentIndex t1 = currentIndex t.
Proof.
  intros H. unfold init_failure, init, init_try, init_catch, init_read, init_launch,
    init_newPage, init_viewport. mrun.
  destruct (o_readFile o) as [content|err]; mrun.
  { destruct (normalize content) as [|m0 ms] eqn:Hn; mrun.
    { eexists. split; [f_equal; world_eq|done]. }
    destruct (o_remove o); mrun.
    { eexists. split; [f_equal; world_eq|done]. }
    destruct (o_launch o); mrun.
    { eexists. split; [f_equal; world_eq|done]. }
    destruct (o_newPage o); mrun.
    { eexists. split; [f_equal; world_eq|done]. }
    destruct (o_setViewport o); mrun.
    { eexists. split; [f_equal; world_eq|done]. }
    destruct (o_setUserAgent o); mrun.
    { eexists. split; [f_equal; world_eq|done]. }
    eexists.
    split; [split; [f_equal; world_eq|simpl; repeat split; try done; by exists content]
           |done]. }
  exists t. split; [|done]. f_equal. unfold upd_heap, upd_trace. simpl.
  by rewrite insert_id.
Qed.

(** X16. [init] never throws. It returns false exactly when a step of its
    [try] block fails: the file cannot be read, it holds no message, or a
    call that follows rejects; the first failure decides, and one "error"
    event carries its message. It returns true, without any event, with the
    messages of the file, a browser and a page. In both cases it leaves the
    registry, the running flag and the counters as they are. *)
Theorem init_fails_at_first_error a o w t :
  heap w !! a = Some t →
  let r := init a o w in
  r.1 = Normal (bool_decide (init_failure o = None)) ∧
  (∃ t1, heap r.2 = <[a := t1]> (heap w) ∧
         taskId t1 = taskId t ∧ sessionId t1 = sessionId t ∧ config t1 = config t ∧
         isRunning t1 = isRunning t ∧ phase t1 = phase t ∧
         totalSent t1 = totalSent t ∧ currentIndex t1 = currentIndex t ∧
         match init_failure o with
         | Some msg =>
             trace r.2 =
               Emit a (sessionId t) (room_members (sessionId t) w)
                 (status_data t1 "error" ("Initialization failed: " +:+ msg))
               :: trace w
         | None =>
             trace r.2 = trace w ∧ browser t1 = true ∧ page t1 = true ∧
             messages t1 ≠ [] ∧
             ∃ content, o_readFile o = inl content ∧ messages t1 = normalize content
         end) ∧
  sessionTasks r.2 = sessionTasks w ∧ sessionBrowsers r.2 = sessionBrowsers w ∧
  sockets r.2 = sockets w ∧ rooms r.2 = rooms w ∧ timers r.2 = timers w.
Proof.
  intros Ht. cbv zeta.
  destruct (init_outcome a o w t Ht)
    as (t1 & Hcase & Hk & Hs & Hc & _ & _ & Hp & Hr & Hts & Hci).
  destruct (init_failure o) as [msg|].
  - rewrite Hcase. simpl. split; [done|]. split; [|done]. by exists t1.
  - destruct Hcase as (Heq & Hm & Hb & Hpg & Hcontent). rewrite Heq. simpl.
    split; [done|]. split; [|done]. by exists t1.
Qed.

Lemma init_fails_at_first_error_witness :
  init_failure Example.blank_file = Some "No valid messages found in file" ∧
  (∃ t, heap (run Example.blank_acts_before initial_world) !! 0 = Some t) ∧
  (init 0 Example.blank_file (run Example.blank_acts_before initial_world)).1 =
    Normal false.
Proof.
  split; [vm_compute; reflexivity|].
  assert (Hw : ∃ t, heap (run Example.blank_acts_before initial_world) !! 0 = Some t).
  { eexists. vm_compute. reflexivity. }
  split; [exact Hw|]. destruct Hw as [t Ht].
  exact (proj1 (init_fails_at_first_error 0 Example.blank_file _ t Ht)).
Defined.

(** The first step of [start()]. *)
Lemma start_init_step a o w t :
  heap w !! a = Some t → phase t = InInit →
  ∃ w1 t1 d,
    task_step a o w = (Normal tt, w1) ∧
    heap w1 = <[a := t1]> (heap w) ∧
    trace w1 = Emit a (sessionId t) (room_members (sessionId t) w) d :: trace w ∧
    sessionTasks w1 = sessionTasks w ∧ sessionBrowsers w1 = sessionBrowsers w ∧
    sockets w1 = sockets w ∧ rooms w1 = rooms w ∧ timers w1 = timers w ∧
    same_identity t t1 ∧ stopTime t1 = stopTime t ∧
    totalSent t1 = totalSent t ∧ currentIndex t1 = currentIndex t ∧
    match init_failure o with
    | Some msg =>
        phase t1 = Returned ∧ isRunning t1 = isRunning t ∧
        ev_status d = "error" ∧ ev_message d = "Initialization failed: " +:+ msg
    | None =>
        phase t1 = InNavigate ∧ isRunning t1 = true ∧ messages t1 ≠ [] ∧
        ev_status d = "starting"
    end.
Proof.
  intros Ht Hp.
  destruct (init_outcome a o w t Ht)
    as (t1 & Hcase & Hk & Hs & Hc & Hst & Hstop & Hp1 & Hr & Hts & Hci).
  unfold task_step. mrun. rewrite Hp. unfold start_init, start_running, bind.
  destruct (init_failure o) as [msg|].
  - rewrite Hcase. mrun.
    eexists _, _, _. split; [reflexivity|]. simpl. rewrite insert_insert_eq.
    repeat split; done.
  - destruct Hcase as (Heq & Hm & _). rewrite Heq. mrun. rewrite Hs.
    eexists _, _, _. split; [reflexivity|]. simpl. rewrite !insert_insert_eq.
    repeat split; done.
Qed.

(** X17. A task whose initialization fails is not removed from the
    registry: [start()] returns without calling [cleanup]. The task stays
    registered, not running and with nothing sent, it is still listed, and
    a start-task request of the session for the same thread is refused
    although nothing runs. *)
Theorem failed_init_stays_registered acts sid k a t o msg :
  let w := run acts initial_world in
  let w1 := (task_step a o w).2 in
  registered sid k w = Some a → heap w !! a = Some t → phase t = InInit →
  init_failure o = Some msg →
  registered sid k w1 = Some a ∧
  (∃ t1, heap w1 !! a = Some t1 ∧ phase t1 = Returned ∧ isRunning t1 = false ∧
         totalSent t1 = 0) ∧
  (∃ d, trace w1 = Emit a sid (room_members sid w) d :: trace w ∧
        ev_status d = "error" ∧
        ev_message d = "Initialization failed: " +:+ msg) ∧
  (∃ row, row ∈ listing sid w1 ∧ ts_taskId row = k ∧ ts_isRunning row = false) ∧
  (∀ body now, b_threadId body = Some k →
     ∃ m, (post_start_task sid body now w1).1 = BadRequest m).
Proof.
  intros w w1 Hr Ht Hp Hfail.
  assert (Hok : world_ok w) by apply run_ok, initial_world_ok.
  destruct (registered_owner w sid k a Hok Hr) as (_ & t0 & Ht0 & Hs & Hk & _).
  assert (t0 = t) as -> by congruence.
  destruct (ok_tasks w Hok a t Ht) as (_ & _ & Hempty & Hinit & _).
  destruct (Hempty (Hinit Hp)) as (_ & Hts & Hrun & _).
  destruct (start_init_step a o w t Ht Hp)
    as (w' & t1 & d & Heq & Hh & Htr & Hst & _ & _ & _ & _ & _ & _ & Hts1 & _ & Hcase).
  rewrite Hfail in Hcase. destruct Hcase as (Hp1 & Hr1 & Hd1 & Hd2).
  assert (Hw1 : w1 = w') by (unfold w1; by rewrite Heq). rewrite Hw1.
  assert (Hr' : registered sid k w' = Some a) by (unfold registered; by rewrite Hst).
  assert (Ht1 : heap w' !! a = Some t1) by (by rewrite Hh, lookup_insert_eq).
  split; [done|].
  split; [exists t1; repeat split; congruence|].
  split; [exists d; by rewrite Htr, Hs|].
  split.
  - eexists. split.
    + unfold listing, get_active_tasks. simpl. apply list_elem_of_bind.
      exists (k, a). split.
      * unfold summary. simpl. rewrite Ht1. left.
      * unfold listed. simpl. rewrite default_init_entry. apply elem_of_map_to_list.
        unfold registered in Hr'. by destruct (sessionTasks w' !! sid).
    + simpl. split; [done|congruence].
  - intros body now Hb.
    destruct (post_start_task_duplicate sid body now w' a) as ((m & Hm & _) & _).
    { by rewrite Hb. }
    by exists m.
Qed.

Lemma failed_init_stays_registered_witness :
  registered Example.session1 "1000" (run Example.blank_acts_before initial_world)
    = Some 0 ∧
  init_failure Example.blank_file = Some "No valid messages found in file" ∧
  registered Example.session1 "1000"
    (task_step 0 Example.blank_file (run Example.blank_acts_before initial_world)).2
    = Some 0.
Proof.
  assert (Hr : registered Example.session1 "1000"
                 (run Example.blank_acts_before initial_world) = Some 0)
    by (vm_compute; reflexivity).
  assert (Hw : ∃ t, heap (run Example.blank_acts_before initial_world) !! 0 = Some t ∧
                    phase t = InInit).
  { eexists. split; vm_compute; reflexivity. }
  assert (Hf : init_failure Example.blank_file = Some "No valid messages found in file")
    by (vm_compute; reflexivity).
  split; [exact Hr|]. split; [exact Hf|]. destruct Hw as (t & Ht & Hp).
  exact (proj1 (failed_init_stays_registered Example.blank_acts_before
                  Example.session1 "1000" 0 t Example.blank_file _ Hr Ht Hp Hf)).
Defined.

(** ** The loading of the pages *)

Lemma first_rejection_app l1 l2 :
  first_rejection (l1 ++ l2) =
  match first_rejection l1 with
  | Some msg => Some msg
  | None => first_rejection l2
  end.
Proof. induction l1 as [|[msg|] l1 IH]; simpl; done. Qed.

(** The cookies are set in order up to the first rejection. *)
Lemma setCookies_first_rejection o cs w :
  setCookies o cs w =
  match first_rejection (o_setCookie o <$> cs) with
  | Some msg => (Throw msg, w)
  | None => (Normal tt, w)
  end.
Proof.
  induction cs as [|c cs IH]; simpl; [done|].
  unfold bind, await. destruct (o_setCookie o c); simpl; [done|]. apply IH.
Qed.

(** The second step of [start()], field by field. *)
Lemma start_navigate_step a o w t :
  heap w !! a = Some t → phase t = InNavigate →
  ∃ w1 t1 d,
    task_step a o w = (Normal tt, w1) ∧
    heap w1 = <[a := t1]> (heap w) ∧
    trace w1 = Emit a (sessionId t) (room_members (sessionId t) w) d :: trace w ∧
    sockets w1 = sockets w ∧ rooms w1 = rooms w ∧ timers w1 = timers w ∧
    match navigate_failure o (cfg_cookie (config t)) with
    | Some msg =>
        d = status_data t "error" ("Failed to start: " +:+ msg) ∧
        t1 = set_phase Returned (set_isRunning false t) ∧
        sessionTasks w1 = delete_entry (sessionId t) (taskId t) (sessionTasks w) ∧
        sessionBrowsers w1 = delete_entry (sessionId t) (taskId t) (sessionBrowsers w)
    | None =>
        d = status_data t "active"
              "Connected to Facebook. Starting message sending..." ∧
        t1 = set_phase InLoop t ∧
        sessionTasks w1 = sessionTasks w ∧ sessionBrowsers w1 = sessionBrowsers w
    end.
Proof.
  intros Ht Hp. unfold navigate_failure, task_step. mrun. rewrite Hp.
  unfold start_navigate, navigate_try, start_catch, start_failed. mrun.
  destruct (o_gotoHome o) as [msg|]; mrun.
  { eexists _, _, _. split; [reflexivity|]. simpl. by rewrite insert_insert_eq. }
  rewrite setCookies_first_rejection, first_rejection_app.
  destruct (first_rejection (o_setCookie o <$> parseCookies (cfg_cookie (config t))))
    as [msg|]; mrun.
  { eexists _, _, _. split; [reflexivity|]. simpl. by rewrite insert_insert_eq. }
  destruct (o_gotoThread o) as [msg|]; mrun.
  { eexists _, _, _. split; [reflexivity|]. simpl. by rewrite insert_insert_eq. }
  eexists _, _, _. split; [reflexivity|]. done.
Qed.

(** X18. The second step of [start()]. The home page is visited, the
    cookies of the credential string are set one after the other, the
    conversation is visited; the first of these calls that rejects ends the
    step, and the calls after it are not made. On a failure the task emits
    "error" with the message, is no longer running, and [cleanup] removes
    its entry, so that its key is free again. Otherwise it emits "active"
    and enters the send loop, still registered. *)
Theorem navigation_outcome a o w t :
  heap w !! a = Some t → phase t = InNavigate →
  let w1 := (task_step a o w).2 in
  (task_step a o w).1 = Normal tt ∧
  match navigate_failure o (cfg_cookie (config t)) with
  | Some msg =>
      trace w1 =
        Emit a (sessionId t) (room_members (sessionId t) w)
          (status_data t "error" ("Failed to start: " +:+ msg)) :: trace w ∧
      heap w1 !! a = Some (set_phase Returned (set_isRunning false t)) ∧
      registered (sessionId t) (taskId t) w1 = None ∧
      (∀ sid k, (sid, k) ≠ (sessionId t, taskId t) →
         registered sid k w1 = registered sid k w)
  | None =>
      trace w1 =
        Emit a (sessionId t) (room_members (sessionId t) w)
          (status_data t "active"
             "Connected to Facebook. Starting message sending...") :: trace w ∧
      heap w1 !! a = Some (set_phase InLoop t) ∧
      (∀ sid k, registered sid k w1 = registered sid k w)
  end.
Proof.
  intros Ht Hp. cbv zeta.
  destruct (start_navigate_step a o w t Ht Hp)
    as (w1 & t1 & d & -> & Hh & Htr & _ & _ & _ & Hcase).
  simpl. split; [done|].
  destruct (navigate_failure o (cfg_cookie (config t))) as [msg|].
  - destruct Hcase as (-> & -> & Hst & _).
    split; [done|]. split; [by rewrite Hh, lookup_insert_eq|].
    split; [by apply (registered_delete_entry _ _ w)|].
    intros sid k Hne.
    by apply (registered_delete_entry_other (sessionId t) (taskId t)).
  - destruct Hcase as (-> & -> & Hst & _).
    split; [done|]. split; [by rewrite Hh, lookup_insert_eq|].
    intros sid k. unfold registered. by rewrite Hst.
Qed.

Lemma navigation_outcome_witness :
  (∃ t, heap (run Example.isolation_before initial_world) !! 0 = Some t ∧
        phase t = InNavigate) ∧
  (task_step 0 Example.sent (run Example.isolation_before initial_world)).1 = Normal tt.
Proof.
  assert (Hw : ∃ t, heap (run Example.isolation_before initial_world) !! 0 = Some t ∧
                    phase t = InNavigate).
  { eexists. split; vm_compute; reflexivity. }
  split; [exact Hw|]. destruct Hw as (t & Ht & Hp).
  exact (proj1 (navigation_outcome 0 Example.sent _ t Ht Hp)).
Defined.

(** ** One task among the others *)

Lemma task_move_same a t : task_move a t t [].
Proof. by apply tm_idle. Qed.

(** A step taken by another object. *)
Lemma task_move_other a b t new :
  Forall (fun e => src_of e = Some b) new → a ≠ b → task_move a t t new.
Proof.
  intros Hsrc Hne. apply tm_idle; [done|by apply (submitted_other a b)|].
  by rewrite (emitted_other a b).
Qed.

(** Every handler and every step moves a task in one of three ways. *)
Lemma apply_action_task act w a t :
  world_ok w → heap w !! a = Some t →
  ∃ t' new,
    heap (apply_action act w) !! a = Some t' ∧
    trace (apply_action act w) = (new ++ trace w)%list ∧
    task_move a t t' new.
Proof.
  intros Hok Ht.
  assert (Hsame : ∀ w', heap w' = heap w → trace w' = trace w →
            ∃ t' new, heap w' !! a = Some t' ∧ trace w' = (new ++ trace w)%list ∧
                      task_move a t t' new).
  { intros w' Hh Htr. exists t, []. rewrite Hh, Htr. split; [done|].
    split; [done|apply task_move_same]. }
  assert (Hsummary : ∀ b tb w' tb' new,
            heap w !! b = Some tb → step_summary b tb w w' tb' new → b ≠ a →
            ∃ t' new, heap w' !! a = Some t' ∧ trace w' = (new ++ trace w)%list ∧
                      task_move a t t' new).
  { intros b tb w' tb' new Hb Hsum Hne. exists t, new.
    rewrite (ss_heap _ _ _ _ _ _ Hsum), lookup_insert_ne by done.
    split; [done|]. split; [apply Hsum|].
    apply (task_move_other a b); [|done].
    eapply Forall_impl; [apply Hsum|]. intros e. apply own_event_src. }
  assert (Hstep : ∀ b tb w' tb' new,
            heap w !! b = Some tb → step_summary b tb w w' tb' new →
            step_local b tb tb' new →
            ∃ t' new, heap w' !! a = Some t' ∧ trace w' = (new ++ trace w)%list ∧
                      task_move a t t' new).
  { intros b tb w' tb' new Hb Hsum Hloc.
    destruct (decide (b = a)) as [->|Hne]; [|by eapply Hsummary].
    assert (tb = t) as -> by congruence.
    exists tb', new. rewrite (ss_heap _ _ _ _ _ _ Hsum), lookup_insert_eq.
    split; [done|]. split; [apply Hsum|]. apply tm_step; [done|apply Hsum]. }
  assert (Hstop : ∀ b tb w' tb' new,
            heap w !! b = Some tb → step_summary b tb w w' tb' new →
            stop_local tb tb' → submitted b new = [] →
            Forall (fun d => ev_status d = "stopping" ∨ ev_status d = "stopped")
              (emitted b new) →
            count_status "stopping" b new + length (stopCalls tb) =
              count_status "stopped" b new + length (stopCalls tb') →
            ∃ t' new, heap w' !! a = Some t' ∧ trace w' = (new ++ trace w)%list ∧
                      task_move a t t' new).
  { intros b tb w' tb' new Hb Hsum Hloc Hsub Hem Hbal.
    destruct (decide (b = a)) as [->|Hne]; [|by eapply Hsummary].
    assert (tb = t) as -> by congruence.
    exists tb', new. rewrite (ss_heap _ _ _ _ _ _ Hsum), lookup_insert_eq.
    split; [done|]. split; [apply Hsum|]. by apply tm_stop. }
  destruct act; simpl; try (by apply Hsame).
  - (* start-task *)
    destruct (post_start_task_cases sid body now w)
      as [(_ & ->)|[(_ & _ & ->)|(_ & _ & w' & -> & Hh & _ & _ & _ & _ & _ & Htr)]];
      [by apply Hsame|by apply Hsame|]. simpl.
    exists t, []. rewrite Hh, Htr, lookup_insert_ne.
    + split; [done|]. split; [done|apply task_move_same].
    + intros E. rewrite <- E, fresh_addr in Ht. done.
  - (* stop-task *)
    destruct (post_stop_task_cases sid tid now w)
      as [->|(k & m & b & _ & Hm & Hb & ->)]; [by apply Hsame|].
    simpl. destruct (ok_entries w Hok _ _ _ _ Hm Hb) as (_ & tb & Htb & _).
    destruct (stop_call_move b now w tb Htb)
      as (w' & tb' & new & -> & Hsum & Hloc & Hsub & Hem & Hbal).
    by eapply Hstop.
  - (* connection *)
    exists t, [SessionInfoSent (fresh (dom (sockets w))) sid].
    split; [done|]. split; [done|]. by apply tm_idle.
  - (* getSessionTasks *)
    destruct (on_getSessionTasks_summary sock w Hok) as (new & -> & Hnew).
    exists t, new. split; [done|]. split; [done|].
    rewrite Forall_forall in Hnew. apply tm_idle; [done| |].
    + clear -Hnew. induction new as [|e new IH]; [done|]. simpl.
      rewrite IH by (intros; apply Hnew; by right).
      destruct (Hnew e) as (a' & t' & msg & -> & _); [left|done].
    + apply Forall_forall. intros d Hd. unfold emitted in Hd.
      apply list_elem_of_omap in Hd as (e & Hin & Hd).
      destruct (Hnew _ Hin) as (a' & t' & msg & -> & Ht' & Hr'). simpl in Hd.
      destruct (decide (a' = a)) as [->|]; [|done]. injection Hd as <-.
      split; [done|congruence].
  - (* the timer *)
    unfold timer_fire. destruct (timers w); by apply Hsame.
  - (* a stage of a task *)
    rename a0 into b. destruct (heap w !! b) as [tb|] eqn:Htb.
    + destruct (task_step_summary b o w tb Htb) as (w' & tb' & new & -> & Hsum & Hloc).
      by eapply Hstep.
    + rewrite (task_step_unknown _ _ _ Htb). by apply Hsame.
  - (* a task goes on *)
    rename a0 into b. destruct (heap w !! b) as [tb|] eqn:Htb.
    + destruct (resume_summary b o w tb Htb) as (w' & tb' & new & -> & Hsum & Hloc).
      by eapply Hstep.
    + rewrite (resume_unknown _ _ _ Htb). by apply Hsame.
  - (* a call of stop goes on *)
    rename a0 into b. destruct (heap w !! b) as [tb|] eqn:Htb.
    + destruct (stop_resume_move b i o w tb Htb)
        as (w' & tb' & new & -> & Hsum & Hloc & _ & Hsub & Hem & Hbal).
      by eapply Hstop.
    + rewrite (stop_resume_unknown _ _ _ _ Htb). by apply Hsame.
Qed.

(** ** Stopping a task *)

(** What a handler or a step does to a task that is past its
    initialization and not running: the task stays so, and sends the
    message of the iteration it is in, or nothing. *)
Lemma stopped_task_move a t t' new :
  task_move a t t' new → isRunning t = false → starting (phase t) = false →
  isRunning t' = false ∧ starting (phase t') = false ∧ config t' = config t ∧
  ((submitted a new = [] ∧ ∀ m, phase t' = InSend m → phase t = InSend m) ∨
   (∃ m, phase t = InSend m ∧ submitted a new = [final_message t m] ∧
         ∀ m', phase t' ≠ InSend m')).
Proof.
  intros [-> Hs _|[_ _ Hfw _ _ _ Hsend Hcap Hr _ _] Hid|(r & st & cs & -> & Hr) Hs _ _]
    Hrun Hp.
  - split_and!; try done. by left.
  - assert (Hr1 : isRunning t' = false).
    { destruct (isRunning t') eqn:E; [|done].
      destruct (Hr eq_refl) as [?|?]; congruence. }
    split; [done|]. split; [auto|]. split; [apply Hid|].
    destruct Hsend as [(Hs & _)|(m & Hs & _ & _ & [Hq|(_ & Hq & _)] & Hno)];
      [|by right; exists m|by rewrite Hrun in Hq].
    left. split; [done|]. intros m Hq. destruct (Hcap m Hq) as (_ & E & _).
    by rewrite Hrun in E.
  - split_and!; try done; [simpl; destruct Hr; congruence|by left].
Qed.

Lemma stopped_task_run acts w a t :
  world_ok w → heap w !! a = Some t →
  isRunning t = false → starting (phase t) = false →
  ∃ t', heap (run acts w) !! a = Some t' ∧
        isRunning t' = false ∧ starting (phase t') = false ∧ config t' = config t ∧
        ((submitted a (trace (run acts w)) = submitted a (trace w) ∧
          ∀ m, phase t' = InSend m → phase t = InSend m) ∨
         (∃ m, phase t = InSend m ∧
               submitted a (trace (run acts w)) =
                 final_message t m :: submitted a (trace w) ∧
               ∀ m', phase t' ≠ InSend m')).
Proof.
  revert w t. induction acts as [|act acts IH]; intros w t Hok Ht Hrun Hp.
  - simpl. exists t. split_and!; try done. by left.
  - simpl.
    destruct (apply_action_task act w a t Hok Ht) as (t1 & new & Ht1 & Htr & Hmove).
    destruct (stopped_task_move a t t1 new Hmove Hrun Hp) as (Hr1 & Hp1 & Hc1 & Hcase1).
    destruct (IH _ t1 (apply_action_ok act w Hok) Ht1 Hr1 Hp1)
      as (t' & Ht' & Hr' & Hp' & Hc' & Hcase).
    exists t'. split_and!; try congruence.
    rewrite Htr, submitted_app in Hcase.
    assert (Hfm : ∀ m, final_message t1 m = final_message t m).
    { intros m. unfold final_message. by rewrite Hc1. }
    destruct Hcase1 as [(Hs1 & Hq1)|(m & Hq & Hs1 & Hno1)]; rewrite Hs1 in Hcase;
      destruct Hcase as [(Hs & Hq')|(m' & Hq' & Hs & Hno)]; simpl in *.
    + left. split; [done|]. auto.
    + right. exists m'. split; [auto|]. by rewrite <- Hfm.
    + right. exists m. split; [done|]. split; [done|].
      intros m' E. by apply (Hno1 m'), Hq'.
    + by destruct (Hno1 m').
Qed.

Lemma post_stop_task_unregistered sid k now w :
  registered sid k w = None → k ∉ object_prototype_keys →
  post_stop_task sid (Some k) now w =
    (BadRequest "Task not found in your session", w).
Proof.
  intros Hr Hk. unfold post_stop_task, registered in *.
  destruct (sessionTasks w !! sid) as [m|]; simpl in Hr; [|done].
  destruct (JsString.truthy k); [|done].
  unfold js_get. rewrite Hr. by rewrite bool_decide_eq_false_2.
Qed.

(** X19. A stop-task request for a task whose [init] is over ends its
    sending, but not at once: the task is never running again, and it
    sends nothing more when the request comes between two iterations of the
    loop; when the request comes while the task is inside an iteration,
    after the test of the loop, the message of that iteration can still be
    sent, and nothing after it. *)
Theorem stop_ends_the_sending acts sid k a t now acts' :
  let w := run acts initial_world in
  let w2 := run acts' (post_stop_task sid (Some k) now w).2 in
  registered sid k w = Some a → heap w !! a = Some t →
  starting (phase t) = false →
  ∃ t2, heap w2 !! a = Some t2 ∧ isRunning t2 = false ∧
        totalSent t2 = length (submitted a (trace w2)) ∧
        ((submitted a (trace w2) = submitted a (trace w) ∧
          totalSent t2 = totalSent t) ∨
         (∃ m, phase t = InSend m ∧ messages t !! currentIndex t = Some m ∧
               submitted a (trace w2) = final_message t m :: submitted a (trace w) ∧
               totalSent t2 = totalSent t + 1)).
Proof.
  intros w w2 Hr Ht Hp.
  assert (Hok : world_ok w) by apply run_ok, initial_world_ok.
  pose proof (registered_key_truthy acts sid k a Hr) as Hk.
  destruct (post_stop_task_registered w sid k a now Hok Hr Hk)
    as (t0 & Ht0 & _ & _ & Heq).
  assert (t0 = t) as -> by congruence.
  destruct (stop_call_summary a now w t Ht)
    as (w1 & t1 & new & Hcall & Hsum & Hr1 & _ & Ht1 & Hsub & _).
  assert (Hok1 : world_ok w1).
  { pose proof (stop_call_ok a now w Hok) as H. by rewrite Hcall in H. }
  assert (Hh1 : heap w1 !! a = Some t1)
    by (by rewrite (ss_heap _ _ _ _ _ _ Hsum), lookup_insert_eq).
  assert (Hp1 : phase t1 = phase t) by (by rewrite Ht1).
  assert (Hfm : ∀ m, final_message t1 m = final_message t m) by (by rewrite Ht1).
  unfold w2. rewrite Heq, Hcall. simpl.
  destruct (stopped_task_run acts' w1 a t1 Hok1 Hh1 Hr1) as
    (t2 & Ht2 & Hr2 & _ & _ & Hcase); [by rewrite Hp1|].
  exists t2. split; [done|]. split; [done|].
  pose proof (ok_tasks _ (run_ok acts' w1 Hok1) a t2 Ht2) as (Htot2 & _).
  pose proof (ok_tasks w Hok a t Ht) as (Htot & _).
  split; [done|].
  rewrite (ss_trace _ _ _ _ _ _ Hsum), submitted_app, Hsub in Hcase. simpl in Hcase.
  destruct Hcase as [(Hs & _)|(m & Hq & Hs & _)].
  - left. split; [done|]. by rewrite Htot2, Hs.
  - right. exists m. rewrite Hp1 in Hq. split; [done|].
    split; [by apply (ok_phase w Hok a t Ht)|].
    split; [by rewrite Hs, Hfm|]. rewrite Htot2, Hs, Htot. simpl. lia.
Qed.

Lemma stop_ends_the_sending_witness :
  registered Example.session1 "1000"
    (run Scenario.typing_acts initial_world) = Some 0 ∧
  (∃ t, heap (run Scenario.typing_acts initial_world) !! 0 = Some t ∧
        phase t = InSend "hi" ∧ isRunning t = true) ∧
  submitted 0
    (trace (run [Resume 0 Example.sent; Resume 0 Example.sent; Resume 0 Example.sent]
              (post_stop_task Example.session1 (Some "1000") 7
                 (run Scenario.typing_acts initial_world)).2)) = ["hi"] ∧
  ∃ t2, heap (run [Resume 0 Example.sent; Resume 0 Example.sent; Resume 0 Example.sent]
                (post_stop_task Example.session1 (Some "1000") 7
                   (run Scenario.typing_acts initial_world)).2) !! 0
          = Some t2 ∧ isRunning t2 = false.
Proof.
  assert (Hr : registered Example.session1 "1000"
                 (run Scenario.typing_acts initial_world) = Some 0)
    by (vm_compute; reflexivity).
  assert (Hw : ∃ t, heap (run Scenario.typing_acts initial_world) !! 0 = Some t ∧
                    phase t = InSend "hi" ∧ isRunning t = true).
  { eexists. split; [vm_compute; reflexivity|]. split; vm_compute; reflexivity. }
  split; [exact Hr|]. split; [exact Hw|]. split; [vm_compute; reflexivity|].
  destruct Hw as (t & Ht & Hp & _).
  assert (Hs : starting (phase t) = false) by (by rewrite Hp).
  destruct (stop_ends_the_sending Scenario.typing_acts Example.session1
              "1000" 0 t 7
              [Resume 0 Example.sent; Resume 0 Example.sent; Resume 0 Example.sent]
              Hr Ht Hs) as (t2 & Ht2 & Hr2 & _).
  exists t2. split; [exact Ht2|exact Hr2].
Defined.



(** X21. [cleanup] deletes the entry of the key, not the entry of the
    object. A task that was stopped while it waited in its loop calls
    [cleanup] once more when the wait is over; when the same thread has
    been started again in the meantime, this removes the entry of the new
    task, which runs on but is no longer listed and can no longer be
    stopped. *)
Theorem ended_task_evicts_successor a b o w t :
  heap w !! a = Some t → phase t = InLoop → isRunning t = false →
  registered (sessionId t) (taskId t) w = Some b → b ≠ a →
  let w1 := (task_step a o w).2 in
  registered (sessionId t) (taskId t) w1 = None ∧
  heap w1 !! b = heap w !! b ∧ trace w1 = trace w ∧
  (taskId t ∉ object_prototype_keys →
   ∀ now, post_stop_task (sessionId t) (Some (taskId t)) now w1 =
            (BadRequest "Task not found in your session", w1)).
Proof.
  intros Ht Hp Hrun Hr Hne. cbv zeta.
  assert (Hstep : task_step a o w =
            (Normal tt, upd_heap (insert a (set_phase Returned t))
                          (unregister (sessionId t) (taskId t) w))).
  { rewrite (task_step_in_loop a o w t Ht Hp).
    unfold sendMessages_step. mrun. rewrite Hrun. by mrun. }
  rewrite Hstep. cbn [snd].
  set (w1 := upd_heap _ _).
  assert (Hnone : registered (sessionId t) (taskId t) w1 = None)
    by by apply (registered_delete_entry _ _ w).
  split; [done|]. split; [by apply lookup_insert_ne|]. split; [done|].
  intros Hkey now. by apply post_stop_task_unregistered.
Qed.

Lemma ended_task_evicts_successor_witness :
  registered Example.session1 "1000" (run Scenario.restart_acts initial_world) = Some 1 ∧
  (∃ t1, heap (run Scenario.restart_acts initial_world) !! 1 = Some t1 ∧
         isRunning t1 = true ∧ phase t1 = InLoop) ∧
  registered Example.session1 "1000"
    (task_step 0 Example.sent (run Scenario.restart_acts initial_world)).2 = None.
Proof.
  assert (Hw : ∃ t, heap (run Scenario.restart_acts initial_world) !! 0 = Some t ∧
                    phase t = InLoop ∧ isRunning t = false ∧
                    sessionId t = Example.session1 ∧ taskId t = "1000").
  { eexists. split; [vm_compute; reflexivity|]. repeat split; vm_compute; reflexivity. }
  assert (Hr : registered Example.session1 "1000"
                 (run Scenario.restart_acts initial_world) = Some 1)
    by (vm_compute; reflexivity).
  split; [exact Hr|].
  split; [eexists; split; [vm_compute; reflexivity|split; vm_compute; reflexivity]|].
  destruct Hw as (t & Ht & Hp & Hrun & Hs & Hk).
  rewrite <- Hs, <- Hk in Hr |- *.
  refine (proj1 (ended_task_evicts_successor 0 1 Example.sent _ t Ht Hp Hrun Hr _)).
  discriminate.
Defined.

(** ** The calls of [stop()] *)

Lemma emitted_unknown a tr :
  (∀ e, e ∈ tr → src_of e ≠ Some a) → emitted a tr = [].
Proof.
  induction tr as [|e tr IH]; intros H; [done|].
  simpl. rewrite IH by (intros; apply H; by right).
  destruct e; try done. rewrite decide_False; [done|].
  intros ->. by apply (H (Emit a room recipients data)); [left|].
Qed.

(** An object that an action creates has no call of [stop()] on it, and
    the action adds no effect. *)
Lemma apply_action_created act w a t' :
  world_ok w → heap w !! a = None → heap (apply_action act w) !! a = Some t' →
  stopCalls t' = [] ∧ trace (apply_action act w) = trace w.
Proof.
  intros Hok Hnone.
  assert (Hsame : ∀ w', heap w' = heap w →
            heap w' !! a = Some t' → stopCalls t' = [] ∧ trace w' = trace w).
  { intros w' E. rewrite E, Hnone. done. }
  assert (Hsum : ∀ b tb w' tb' new,
            heap w !! b = Some tb → step_summary b tb w w' tb' new →
            heap w' !! a = Some t' → stopCalls t' = [] ∧ trace w' = trace w).
  { intros b tb w' tb' new Hb Hs. rewrite (ss_heap _ _ _ _ _ _ Hs).
    rewrite lookup_insert_ne by congruence. by rewrite Hnone. }
  destruct act; simpl; try (by apply Hsame); try (intros H; congruence).
  - destruct (post_start_task_cases sid body now w)
      as [(_ & ->)|[(_ & _ & ->)|(_ & _ & w' & -> & Hh & _ & _ & _ & _ & _ & Htr)]];
      [by apply Hsame|by apply Hsame|]. simpl. rewrite Hh.
    destruct (decide (fresh (dom (heap w)) = a)) as [<-|Hne].
    + rewrite lookup_insert_eq. by intros [= <-].
    + rewrite lookup_insert_ne by done. by rewrite Hnone.
  - destruct (post_stop_task_cases sid tid now w)
      as [->|(k & m & b & _ & Hm & Hb & ->)]; [by apply Hsame|].
    simpl. destruct (ok_entries w Hok _ _ _ _ Hm Hb) as (_ & tb & Htb & _).
    destruct (stop_call_summary b now w tb Htb) as (w' & tb' & new & -> & Hs & _).
    by eapply Hsum.
  - destruct (on_getSessionTasks_summary sock w Hok) as (new & -> & _).
    by apply Hsame.
  - unfold timer_fire. destruct (timers w); by apply Hsame.
  - rename a0 into b. destruct (heap w !! b) as [tb|] eqn:Htb.
    + destruct (task_step_summary b o w tb Htb) as (w' & tb' & new & -> & Hs & _).
      by eapply Hsum.
    + rewrite (task_step_unknown _ _ _ Htb). by apply Hsame.
  - rename a0 into b. destruct (heap w !! b) as [tb|] eqn:Htb.
    + destruct (resume_summary b o w tb Htb) as (w' & tb' & new & -> & Hs & _).
      by eapply Hsum.
    + rewrite (resume_unknown _ _ _ Htb). by apply Hsame.
  - rename a0 into b. destruct (heap w !! b) as [tb|] eqn:Htb.
    + destruct (stop_resume_summary b i o w tb Htb) as (w' & tb' & new & -> & Hs & _).
      by eapply Hsum.
    + rewrite (stop_resume_unknown _ _ _ _ Htb). by apply Hsame.
Qed.

Lemma count_status_none st a new :
  Forall (fun d => ev_status d ≠ st) (emitted a new) → count_status st a new = 0.
Proof.
  intros Hall. unfold count_status.
  induction Hall as [|d ds Hd _ IH]; [done|]. simpl.
  destruct (String.eqb st (ev_status d)) eqn:E; [|done].
  apply String.eqb_eq in E. congruence.
Qed.

(** What a move of a task does to the balance of its calls of [stop()]. *)
Lemma task_move_balance a t t' new tr :
  task_move a t t' new → stop_balance a t tr → stop_balance a t' (new ++ tr).
Proof.
  unfold stop_balance. rewrite !count_status_app.
  intros [-> _ Hall|Hloc _|_ _ _ Hbal] H.
  - rewrite !(count_status_none _ a new); [done| |].
    + eapply Forall_impl; [exact Hall|]. simpl. intros d [-> _]. done.
    + eapply Forall_impl; [exact Hall|]. simpl. intros d [-> _]. done.
  - destruct (sl_stops _ _ _ _ Hloc) as [-> _].
    rewrite !(count_status_none _ a new); [done| |].
    + eapply Forall_impl; [exact (sl_status _ _ _ _ Hloc)|]. simpl. by intros d [_ ?].
    + eapply Forall_impl; [exact (sl_status _ _ _ _ Hloc)|]. simpl. by intros d [? _].
  - lia.
Qed.

Lemma apply_action_balance act w :
  world_ok w →
  (∀ a t, heap w !! a = Some t → stop_balance a t (trace w)) →
  ∀ a t, heap (apply_action act w) !! a = Some t →
         stop_balance a t (trace (apply_action act w)).
Proof.
  intros Hok Hall a t' Ht'.
  destruct (heap w !! a) as [t|] eqn:Ht.
  - destruct (apply_action_task act w a t Hok Ht) as (t'' & new & Ht'' & -> & Hmove).
    assert (t'' = t') as -> by congruence.
    apply (task_move_balance a t); [done|by apply Hall].
  - destruct (apply_action_created act w a t' Hok Ht Ht') as [Hc ->].
    unfold stop_balance, count_status. rewrite Hc, emitted_unknown; [done|].
    intros e He Hsrc. destruct (ok_src w Hok e a He Hsrc) as [? ?]. congruence.
Qed.

Lemma run_balance acts w :
  world_ok w →
  (∀ a t, heap w !! a = Some t → stop_balance a t (trace w)) →
  ∀ a t, heap (run acts w) !! a = Some t → stop_balance a t (trace (run acts w)).
Proof.
  revert w. induction acts as [|act acts IH]; intros w Hok Hall; [done|].
  simpl. apply IH; [by apply apply_action_ok|by apply apply_action_balance].
Qed.

(** X27. The calls of [stop()] on a task, in every state of every run,
    however the requests and the moves of the tasks are interleaved: the
    task has emitted "stopping" once for every call, and "stopped" once for
    every call that has returned; the other calls are suspended where they
    close the page or the browser. So the number of "stopping" events of a
    task is the number of its "stopped" events plus the number of its
    suspended calls. *)
Theorem stop_calls_emit_in_pairs acts a t :
  let w := run acts initial_world in
  heap w !! a = Some t →
  count_status "stopping" a (trace w) =
    count_status "stopped" a (trace w) + length (stopCalls t).
Proof.
  intros w Ht. apply (run_balance acts initial_world); [apply initial_world_ok| |done].
  intros a' t' H. simpl in H. by rewrite lookup_empty in H.
Qed.

Lemma stop_calls_emit_in_pairs_witness :
  ∃ t, heap (run Scenario.twice_acts initial_world) !! 0 = Some t ∧
       stopCalls t = [ClosingPage] ∧
       (post_stop_task Example.session1 (Some "1000") 8
          (run (Example.looping_acts "1" ++
                [TaskStep 0 Example.sent;
                 PostStopTask Example.session1 (Some "1000") 7])
             initial_world)).1 = TaskStopped ∧
       count_status "stopped" 0 (trace (run Scenario.twice_acts initial_world)) = 1 ∧
       count_status "stopping" 0 (trace (run Scenario.twice_acts initial_world)) =
         count_status "stopped" 0 (trace (run Scenario.twice_acts initial_world)) +
         length (stopCalls t).
Proof.
  eexists. split; [vm_compute; reflexivity|].
  split; [reflexivity|]. split; [vm_compute; reflexivity|].
  split; [vm_compute; reflexivity|].
  apply (stop_calls_emit_in_pairs Scenario.twice_acts 0). vm_compute. reflexivity.
Defined.

(** ** The effects of a task *)

Lemma counters_zero n : counters_ok n 0 0.
Proof. split; [done|]. intros _. symmetry. apply Nat.Div0.mod_0_l. Qed.

Lemma counters_next n cur tot :
  counters_ok n cur tot → n ≠ 0 → counters_ok n ((cur + 1) `mod` n) (tot + 1).
Proof.
  intros [_ H] Hn. split; [done|]. intros _. rewrite (H Hn).
  apply Nat.Div0.add_mod_idemp_l.
Qed.

Lemma task_ok_counters a t tr :
  task_ok a t tr → counters_ok (length (messages t)) (currentIndex t) (totalSent t).
Proof.
  intros (_ & Hcur & Hempty & _). split.
  - intros Hn. apply length_zero_iff_nil in Hn. by destruct (Hempty Hn) as (? & ? & _).
  - intros Hn. apply Hcur. intros E. by rewrite E in Hn.
Qed.

Lemma effect_ok_identity t t' e :
  same_identity t t' → effect_ok t e → effect_ok t' e.
Proof.
  intros (Hk & Hs & Hc & Hst). destruct e; simpl; try done.
  - intros (-> & ? & ? & ? & ? & ? & ? & ?). unfold event_ok.
    rewrite Hk, Hs, Hc, Hst. done.
  - by rewrite Hc.
Qed.

(** The event [emitStatus] sends for an object whose identity is that of
    [t]. *)
Lemma emit_ok t t0 a rc st msg :
  st ∈ statuses →
  taskId t0 = taskId t → sessionId t0 = sessionId t → config t0 = config t →
  startTime t0 = startTime t → cfg_threadId (config t) = taskId t →
  counters_ok (length (messages t0)) (currentIndex t0) (totalSent t0) →
  effect_ok t (Emit a (sessionId t) rc (status_data t0 st msg)).
Proof.
  intros Hst Hk Hs Hc Hti Htgt Hcnt. simpl. split; [done|].
  unfold event_ok. simpl. rewrite Hk, Hs, Hc, Hti. done.
Qed.

Ltac status_tac :=
  unfold statuses;
  solve [ repeat first [ apply list_elem_of_here | apply list_elem_of_further ] ].

Ltac emit_tac Htgt cnt :=
  apply emit_ok; simpl;
  [ status_tac | reflexivity | reflexivity | reflexivity | reflexivity
  | exact Htgt | cnt ].

Ltac effect_tac Htgt cnt :=
  first [ emit_tac Htgt cnt | simpl; first [ done | by left | by right ] ].

Ltac effects_tac Htgt cnt :=
  repeat (apply Forall_cons; split; [effect_tac Htgt cnt|]); apply Forall_nil_2.

Tactic Notation "close_effects" open_constr(n) constr(Htgt) tactic(cnt) :=
  eexists n; split; [reflexivity|]; effects_tac Htgt cnt.

(** The effects of a move of [start()] to its next suspension. *)
Lemma resume_effects a o w t :
  heap w !! a = Some t → task_ok a t (trace w) → phase_ok t →
  cfg_threadId (config t) = taskId t →
  ∃ new, trace (resume a o w).2 = (new ++ trace w)%list ∧
         Forall (effect_ok t) new.
Proof.
  intros H Hta [_ Hread] Htgt. pose proof (task_ok_counters _ _ _ Hta) as Hcnt.
  destruct Hta as (_ & _ & Hempty & Hinit & _).
  unfold resume. mrun.
  destruct (phase t) eqn:Hp.
  - (* the file is read *)
    destruct (Hempty (Hinit eq_refl)) as (Hc0 & Ht0 & _).
    assert (Hz : ∀ n, counters_ok n (currentIndex t) (totalSent t)).
    { intros n. rewrite Hc0, Ht0. apply counters_zero. }
    unfold init_part, init_read, init_catch. mrun.
    destruct (o_readFile o) as [content|err]; mrun;
      [|close_effects [_] Htgt (apply Hz)].
    destruct (normalize content) as [|m0 ms] eqn:Hn; mrun;
      [close_effects [_] Htgt (apply Hz)|close_effects [] Htgt (apply Hz)].
  - (* the browser is launched *)
    unfold init_part, init_launch, init_catch. mrun.
    destruct (o_remove o); mrun; [close_effects [_] Htgt (exact Hcnt)|].
    destruct (o_launch o); mrun;
      [close_effects [_] Htgt (exact Hcnt)|close_effects [] Htgt (exact Hcnt)].
  - (* the page is opened *)
    unfold init_part, init_newPage, init_catch. mrun.
    destruct (o_newPage o); mrun;
      [close_effects [_] Htgt (exact Hcnt)|close_effects [] Htgt (exact Hcnt)].
  - (* the page is set up *)
    unfold init_part, init_viewport, init_catch, start_running. mrun.
    destruct (o_setViewport o); mrun; [close_effects [_] Htgt (exact Hcnt)|].
    destruct (o_setUserAgent o); mrun; close_effects [_] Htgt (exact Hcnt).
  - (* loading the pages *)
    unfold navigate_try, start_caught, start_failed, cleanup_called. mrun.
    destruct (o_gotoHome o); mrun.
    { mstep'. destruct (page t), (browser t); mrun;
        close_effects [_] Htgt (exact Hcnt). }
    destruct (setCookies_ok o (parseCookies (cfg_cookie (config t))) w) as [r ->].
    destruct r; mrun.
    2:{ mstep'. destruct (page t), (browser t); mrun;
          close_effects [_] Htgt (exact Hcnt). }
    destruct (o_gotoThread o); mrun.
    { mstep'. destruct (page t), (browser t); mrun;
        close_effects [_] Htgt (exact Hcnt). }
    close_effects [_] Htgt (exact Hcnt).
  - (* the test of the loop *)
    unfold loop_test, cleanup_called, loop_failed, send_failed, read_message. mrun.
    destruct (isRunning t) eqn:Hr; mrun.
    + destruct (messages t !! currentIndex t) as [m|] eqn:Hm; mrun;
        [close_effects [] Htgt (exact Hcnt)|close_effects [_;_] Htgt (exact Hcnt)].
    + mstep'. destruct (page t), (browser t); mrun;
        close_effects [] Htgt (exact Hcnt).
  - (* the calls into the page have settled *)
    assert (Hlen : length (messages t) ≠ 0).
    { intros E. apply length_zero_iff_nil in E.
      pose proof (Hread _ eq_refl) as Hm. by rewrite E in Hm. }
    pose proof (counters_next _ _ _ Hcnt Hlen) as Hnext.
    unfold loop_send, send_message, loop_failed, send_failed. mrun.
    rewrite type_and_send_outcome. destruct (attempt o) as [| |msg]; mrun.
    + close_effects [_;_;_] Htgt (exact Hnext).
    + close_effects [_;_] Htgt (exact Hcnt).
    + destruct (JsString.includes msg "textbox not found");
        close_effects [_;_] Htgt (exact Hcnt).
  - (* the loop is left *)
    unfold loop_break, cleanup_called. mrun. mstep'.
    destruct (page t), (browser t); mrun; close_effects [_] Htgt (exact Hcnt).
  - (* cleanup goes on *)
    mstep'. unfold cleanup_next.
    destruct c, (o_closePage o), (browser t); mrun;
      close_effects [] Htgt (exact Hcnt).
  - close_effects [] Htgt (exact Hcnt).
Qed.

(** The effects of a stage of [start()]. *)
Lemma task_step_effects a o w t :
  heap w !! a = Some t → task_ok a t (trace w) → phase_ok t →
  cfg_threadId (config t) = taskId t →
  ∃ new, trace (task_step a o w).2 = (new ++ trace w)%list ∧
         Forall (effect_ok t) new.
Proof.
  intros H Hta Hpa Htgt.
  pose proof (resume_effects a o w t H Hta Hpa Htgt) as Hresume.
  pose proof (task_ok_counters _ _ _ Hta) as Hcnt.
  destruct Hta as (_ & _ & Hempty & Hinit & _).
  unfold task_step. mrun.
  destruct (phase t) eqn:Hp; try exact Hresume; clear Hresume.
  - (* inside init *)
    destruct (Hempty (Hinit eq_refl)) as (Hc0 & Ht0 & _).
    assert (Hz : ∀ n, counters_ok n (currentIndex t) (totalSent t)).
    { intros n. rewrite Hc0, Ht0. apply counters_zero. }
    unfold start_init, start_running, init, init_try, init_catch, init_read,
      init_launch, init_newPage, init_viewport. mrun.
    destruct (o_readFile o) as [content|err]; mrun;
      [|close_effects [_] Htgt (apply Hz)].
    destruct (normalize content) as [|m0 ms] eqn:Hn; mrun;
      [close_effects [_] Htgt (apply Hz)|].
    destruct (o_remove o); mrun; [close_effects [_] Htgt (apply Hz)|].
    destruct (o_launch o); mrun; [close_effects [_] Htgt (apply Hz)|].
    destruct (o_newPage o); mrun; [close_effects [_] Htgt (apply Hz)|].
    destruct (o_setViewport o); mrun; [close_effects [_] Htgt (apply Hz)|].
    destruct (o_setUserAgent o); mrun; [close_effects [_] Htgt (apply Hz)|].
    close_effects [_] Htgt (apply Hz).
  - (* loading the pages *)
    unfold start_navigate, navigate_try, start_catch, start_failed. mrun.
    destruct (o_gotoHome o); mrun; [close_effects [_] Htgt (exact Hcnt)|].
    destruct (setCookies_ok o (parseCookies (cfg_cookie (config t))) w) as [r ->].
    destruct r; mrun; [|close_effects [_] Htgt (exact Hcnt)].
    destruct (o_gotoThread o); mrun; [close_effects [_] Htgt (exact Hcnt)|].
    close_effects [_] Htgt (exact Hcnt).
  - (* the loop *)
    unfold sendMessages_step, start_catch, start_failed. mrun.
    destruct (isRunning t) eqn:Hr; mrun; [|close_effects [] Htgt (exact Hcnt)].
    unfold send_try, read_message, send_message, send_catch, send_failed. mrun.
    destruct (messages t !! currentIndex t) as [m|] eqn:Hm; mrun.
    + assert (Hlen : length (messages t) ≠ 0).
      { intros E. apply length_zero_iff_nil in E. by rewrite E in Hm. }
      pose proof (counters_next _ _ _ Hcnt Hlen) as Hnext.
      rewrite type_and_send_outcome. destruct (attempt o) as [| |msg]; mrun.
      * close_effects [_;_;_] Htgt (exact Hnext).
      * close_effects [_;_;_] Htgt (exact Hcnt).
      * destruct (JsString.includes msg "textbox not found"); mrun;
          [close_effects [_;_;_] Htgt (exact Hcnt)
          |close_effects [_;_] Htgt (exact Hcnt)].
    + simpl. close_effects [_;_] Htgt (exact Hcnt).
  - close_effects [] Htgt (exact Hcnt).
Qed.

Lemma stop_effects a now o w t :
  heap w !! a = Some t → task_ok a t (trace w) →
  cfg_threadId (config t) = taskId t →
  ∃ new, trace (stop a now o w).2 = (new ++ trace w)%list ∧
         Forall (effect_ok t) new.
Proof.
  intros H Hta Htgt. pose proof (task_ok_counters _ _ _ Hta) as Hcnt.
  unfold stop. mrun. close_effects [_;_] Htgt (exact Hcnt).
Qed.

Lemma stop_call_effects a now w t :
  heap w !! a = Some t → task_ok a t (trace w) →
  cfg_threadId (config t) = taskId t →
  ∃ new, trace (stop_call a now w).2 = (new ++ trace w)%list ∧
         Forall (effect_ok t) new.
Proof.
  intros H Hta Htgt. pose proof (task_ok_counters _ _ _ Hta) as Hcnt.
  unfold stop_call, stop_end. mrun. mstep'.
  destruct (page t); [|destruct (browser t)]; mrun;
    [close_effects [_] Htgt (exact Hcnt)|close_effects [_] Htgt (exact Hcnt)
    |close_effects [_;_] Htgt (exact Hcnt)].
Qed.

Lemma stop_resume_effects a i o w t :
  heap w !! a = Some t → task_ok a t (trace w) →
  cfg_threadId (config t) = taskId t →
  ∃ new, trace (stop_resume a i o w).2 = (new ++ trace w)%list ∧
         Forall (effect_ok t) new.
Proof.
  intros H Hta Htgt. pose proof (task_ok_counters _ _ _ Hta) as Hcnt.
  unfold stop_resume, stop_end. mrun.
  destruct (stopCalls t !! i) as [c|]; mrun; [|close_effects [] Htgt (exact Hcnt)].
  mstep'. destruct (cleanup_next t c o); mrun;
    [close_effects [] Htgt (exact Hcnt)|close_effects [_] Htgt (exact Hcnt)].
Qed.

(** The effects a handler or a step adds all fit the task they come
    from. *)
Lemma apply_action_new_effects act w :
  world_ok w →
  ∃ new, trace (apply_action act w) = (new ++ trace w)%list ∧
         ∀ e a, e ∈ new → src_of e = Some a →
                ∃ t, heap w !! a = Some t ∧ effect_ok t e.
Proof.
  intros Hok.
  assert (Hnone : ∀ w', trace w' = trace w →
            ∃ new, trace w' = (new ++ trace w)%list ∧
                   ∀ e a, e ∈ new → src_of e = Some a →
                          ∃ t, heap w !! a = Some t ∧ effect_ok t e).
  { intros w' E. exists []. split; [done|]. intros e a Hin. by apply elem_of_nil in Hin. }
  assert (Hown : ∀ a t w' t' new new',
            heap w !! a = Some t → step_summary a t w w' t' new →
            trace w' = (new' ++ trace w)%list → Forall (effect_ok t) new' →
            ∃ new, trace w' = (new ++ trace w)%list ∧
                   ∀ e a, e ∈ new → src_of e = Some a →
                          ∃ t, heap w !! a = Some t ∧ effect_ok t e).
  { intros a t w' t' new new' Ht Hsum Htr Hall. exists new'. split; [done|].
    assert (new' = new) as ->.
    { apply (app_inv_tail (trace w)). by rewrite <- Htr, (ss_trace _ _ _ _ _ _ Hsum). }
    intros e a' Hin Hsrc. rewrite Forall_forall in Hall.
    pose proof (ss_events _ _ _ _ _ _ Hsum) as Hev. rewrite Forall_forall in Hev.
    pose proof (own_event_src _ _ _ _ (Hev _ Hin)) as Hsrc'.
    assert (a' = a) as -> by congruence. exists t. split; [done|]. by apply Hall. }
  destruct act; simpl; try (by apply Hnone).
  - (* start-task *)
    destruct (post_start_task_cases sid body now w)
      as [(_ & ->)|[(_ & _ & ->)|(_ & _ & w' & -> & _ & _ & _ & _ & _ & _ & Htr)]];
      simpl; by apply Hnone.
  - (* stop-task *)
    destruct (post_stop_task_cases sid tid now w)
      as [->|(k & m & a & _ & Hm & Ha & ->)]; [by apply Hnone|].
    simpl. destruct (ok_entries w Hok _ _ _ _ Hm Ha) as (_ & t & Ht & _).
    destruct (stop_call_effects a now w t Ht (ok_tasks w Hok a t Ht)
                (ok_target w Hok a t Ht)) as (new' & Htr & Hall).
    destruct (stop_call_move a now w t Ht) as (w' & t' & new & Heq & Hsum & _).
    rewrite Heq in Htr |- *. simpl in Htr |- *. by eapply (Hown a t w').
  - (* connection *)
    exists [SessionInfoSent (fresh (dom (sockets w))) sid]. split; [done|].
    intros e a Hin Hsrc. apply list_elem_of_singleton in Hin. by subst.
  - (* getSessionTasks *)
    destruct (on_getSessionTasks_summary sock w Hok) as (new & -> & Hnew).
    exists new. split; [done|]. rewrite Forall_forall in Hnew.
    intros e a Hin Hsrc. destruct (Hnew _ Hin) as (a' & t & msg & -> & Ht & _).
    simpl in Hsrc. injection Hsrc as ->. exists t. split; [done|].
    apply emit_ok; try done; [unfold statuses; do 2 right; left|by apply (ok_target w Hok a)|].
    by apply (task_ok_counters a _ (trace w)), (ok_tasks w Hok).
  - (* the timer *)
    unfold timer_fire. destruct (timers w); by apply Hnone.
  - (* a stage of a task *)
    destruct (heap w !! a) as [t|] eqn:Ht.
    + destruct (task_step_effects a o w t Ht (ok_tasks w Hok a t Ht)
                  (ok_phase w Hok a t Ht) (ok_target w Hok a t Ht))
        as (new' & Htr & Hall).
      destruct (task_step_summary a o w t Ht) as (w' & t' & new & Heq & Hsum & _).
      rewrite Heq in Htr |- *. simpl in Htr |- *. by eapply (Hown a t w').
    + rewrite (task_step_unknown _ _ _ Ht). by apply Hnone.
  - (* a task goes on *)
    destruct (heap w !! a) as [t|] eqn:Ht.
    + destruct (resume_effects a o w t Ht (ok_tasks w Hok a t Ht)
                  (ok_phase w Hok a t Ht) (ok_target w Hok a t Ht))
        as (new' & Htr & Hall).
      destruct (resume_summary a o w t Ht) as (w' & t' & new & Heq & Hsum & _).
      rewrite Heq in Htr |- *. simpl in Htr |- *. by eapply (Hown a t w').
    + rewrite (resume_unknown _ _ _ Ht). by apply Hnone.
  - (* a call of stop goes on *)
    destruct (heap w !! a) as [t|] eqn:Ht.
    + destruct (stop_resume_effects a i o w t Ht (ok_tasks w Hok a t Ht)
                  (ok_target w Hok a t Ht)) as (new' & Htr & Hall).
      destruct (stop_resume_move a i o w t Ht) as (w' & t' & new & Heq & Hsum & _).
      rewrite Heq in Htr |- *. simpl in Htr |- *. by eapply (Hown a t w').
    + rewrite (stop_resume_unknown _ _ _ _ Ht). by apply Hnone.
Qed.

(** X22. In every state of every run, every status event comes from a task
    in the store and says so: it went to the room of the session of the
    task, names the task, its thread (which is its key), its session and
    its delay, has one of the five statuses "error", "starting", "active",
    "stopping" and "stopped", and a cursor that fits its counters (the
    count of sent messages modulo the number of messages; zero when there
    is none). And every wait of a task lasts 5000 ms or the delay of its
    configuration times 1000. *)
Theorem effects_fit_their_task acts :
  let w := run acts initial_world in
  (∀ a room rc d, Emit a room rc d ∈ trace w →
     ∃ t, heap w !! a = Some t ∧ room = sessionId t ∧ event_ok t d) ∧
  (∀ a ms, Wait a ms ∈ trace w →
     ∃ t, heap w !! a = Some t ∧
          (ms = Some 5000%Z ∨ ms = JsNumber.times1000 (cfg_delay (config t)))).
Proof.
  cbv zeta.
  assert (Hall : ∀ e a, e ∈ trace (run acts initial_world) → src_of e = Some a →
            ∃ t, heap (run acts initial_world) !! a = Some t ∧ effect_ok t e).
  { assert (Hrun : ∀ w, world_ok w →
              (∀ e a, e ∈ trace w → src_of e = Some a →
                      ∃ t, heap w !! a = Some t ∧ effect_ok t e) →
              ∀ e a, e ∈ trace (run acts w) → src_of e = Some a →
                     ∃ t, heap (run acts w) !! a = Some t ∧ effect_ok t e).
    { induction acts as [|act acts IH]; intros w Hok Hw; [done|].
      simpl. apply IH; [by apply apply_action_ok|].
      destruct (apply_action_new_effects act w Hok) as (new & Htr & Hnew).
      destruct (apply_action_evolves act w Hok) as [Hheap _ _].
      intros e a Hin Hsrc. rewrite Htr in Hin.
      assert (∃ t, heap w !! a = Some t ∧ effect_ok t e) as (t & Ht & He).
      { apply elem_of_app in Hin as [Hin|Hin]; eauto. }
      destruct (Hheap a t Ht) as (t' & Ht' & Hid & _).
      exists t'. split; [done|]. by apply (effect_ok_identity t). }
    apply Hrun; [apply initial_world_ok|].
    intros e a Hin. by apply elem_of_nil in Hin. }
  split.
  - intros a room rc d Hin. destruct (Hall _ a Hin eq_refl) as (t & Ht & He).
    exists t. split; [done|]. exact He.
  - intros a ms Hin. destruct (Hall _ a Hin eq_refl) as (t & Ht & He).
    exists t. split; [done|]. exact He.
Qed.

(** ** Who receives the events *)

(** Every event a handler or a step adds goes to the sockets that are in
    its room at that moment. *)
Lemma apply_action_recipients act w :
  world_ok w →
  ∃ new, trace (apply_action act w) = (new ++ trace w)%list ∧
         ∀ a room rc d, Emit a room rc d ∈ new → rc = room_members room w.
Proof.
  intros Hok.
  assert (Hnone : ∀ w', trace w' = trace w →
            ∃ new, trace w' = (new ++ trace w)%list ∧
                   ∀ a room rc d, Emit a room rc d ∈ new → rc = room_members room w).
  { intros w' E. exists []. split; [done|]. intros a room rc d Hin.
    by apply elem_of_nil in Hin. }
  assert (Hown : ∀ a t w' t' new,
            step_summary a t w w' t' new →
            ∃ new, trace w' = (new ++ trace w)%list ∧
                   ∀ a room rc d, Emit a room rc d ∈ new → rc = room_members room w).
  { intros a t w' t' new Hsum. exists new. split; [apply Hsum|].
    intros a' room rc d Hin.
    pose proof (ss_events _ _ _ _ _ _ Hsum) as Hev. rewrite Forall_forall in Hev.
    by destruct (Hev _ Hin) as (_ & -> & -> & _). }
  destruct act; simpl; try (by apply Hnone).
  - destruct (post_start_task_cases sid body now w)
      as [(_ & ->)|[(_ & _ & ->)|(_ & _ & w' & -> & _ & _ & _ & _ & _ & _ & Htr)]];
      simpl; by apply Hnone.
  - destruct (post_stop_task_cases sid tid now w)
      as [->|(k & m & a & _ & Hm & Ha & ->)]; [by apply Hnone|].
    simpl. destruct (ok_entries w Hok _ _ _ _ Hm Ha) as (_ & t & Ht & _).
    destruct (stop_call_move a now w t Ht) as (w' & t' & new & -> & Hsum & _).
    by eapply Hown.
  - exists [SessionInfoSent (fresh (dom (sockets w))) sid]. split; [done|].
    intros a room rc d Hin. apply list_elem_of_singleton in Hin. done.
  - destruct (on_getSessionTasks_summary sock w Hok) as (new & -> & Hnew).
    exists new. split; [done|]. rewrite Forall_forall in Hnew.
    intros a room rc d Hin. by destruct (Hnew _ Hin) as (a' & t & msg & [= -> -> -> ->] & _).
  - unfold timer_fire. destruct (timers w); by apply Hnone.
  - destruct (heap w !! a) as [t|] eqn:Ht.
    + destruct (task_step_summary a o w t Ht) as (w' & t' & new & -> & Hsum & _).
      by eapply Hown.
    + rewrite (task_step_unknown _ _ _ Ht). by apply Hnone.
  - destruct (heap w !! a) as [t|] eqn:Ht.
    + destruct (resume_summary a o w t Ht) as (w' & t' & new & -> & Hsum & _).
      by eapply Hown.
    + rewrite (resume_unknown _ _ _ Ht). by apply Hnone.
  - destruct (heap w !! a) as [t|] eqn:Ht.
    + destruct (stop_resume_move a i o w t Ht) as (w' & t' & new & -> & Hsum & _).
      by eapply Hown.
    + rewrite (stop_resume_unknown _ _ _ _ Ht). by apply Hnone.
Qed.

(** The rooms change only when a socket connects or disconnects. *)
Lemma apply_action_rooms act w :
  rooms (apply_action act w) = rooms w ∨
  (∃ sid, act = SocketConnect sid ∧
          rooms (apply_action act w) =
            <[sid := {[fresh (dom (sockets w))]} ∪ default ∅ (rooms w !! sid)]> (rooms w)) ∨
  (∃ sock, act = SocketDisconnect sock ∧
           rooms (apply_action act w) = (fun members => members ∖ {[sock]}) <$> rooms w).
Proof.
  destruct act; simpl; try (by left).
  - destruct (post_start_task_cases sid body now w)
      as [(_ & ->)|[(_ & _ & ->)|(_ & _ & w' & -> & _ & _ & _ & _ & Hro & _)]];
      by left.
  - destruct (post_stop_task_cases sid tid now w)
      as [->|(k & m & a & _ & _ & _ & ->)]; [by left|].
    simpl. destruct (heap w !! a) as [t|] eqn:Ht.
    + destruct (stop_call_move a now w t Ht) as (w' & t' & new & -> & Hsum & _).
      left. apply Hsum.
    + rewrite (stop_call_unknown _ _ _ Ht). by left.
  - right. left. by exists sid.
  - right. right. by exists sock.
  - left. unfold on_getSessionTasks.
    destruct (sockets w !! sock) as [sid|]; [|done].
    destruct (sessionTasks w !! sid) as [m|]; [|done].
    generalize (map_to_list m). intros entries. revert w.
    induction entries as [|[k a] rest IH]; intros w; [done|].
    simpl. unfold bind, getThis. destruct (heap w !! a) as [t|] eqn:Ht; [|done].
    destruct (isRunning t).
    + rewrite (emitStatus_ok _ _ _ _ _ Ht). exact (IH (upd_trace _ w)).
    + apply IH.
  - left. unfold timer_fire. by destruct (timers w).
  - left. destruct (heap w !! a) as [t|] eqn:Ht.
    + destruct (task_step_summary a o w t Ht) as (w' & t' & new & -> & Hsum & _).
      apply Hsum.
    + by rewrite (task_step_unknown _ _ _ Ht).
  - left. destruct (heap w !! a) as [t|] eqn:Ht.
    + destruct (resume_summary a o w t Ht) as (w' & t' & new & -> & Hsum & _).
      apply Hsum.
    + by rewrite (resume_unknown _ _ _ Ht).
  - left. destruct (heap w !! a) as [t|] eqn:Ht.
    + destruct (stop_resume_move a i o w t Ht) as (w' & t' & new & -> & Hsum & _).
      apply Hsum.
    + by rewrite (stop_resume_unknown _ _ _ _ Ht).
Qed.

Lemma room_members_elem sock room w :
  sock ∈ room_members room w ↔
  ∃ members, rooms w !! room = Some members ∧ sock ∈ members.
Proof.
  unfold room_members. rewrite elem_of_elements.
  destruct (rooms w !! room) as [members|]; simpl.
  - split; [eauto|]. by intros (? & [= <-] & ?).
  - split; [intros H; by apply not_elem_of_empty in H|]. by intros (? & ? & _).
Qed.

(** X23. A socket that has connected under a session is, as long as it
    does not disconnect, among the recipients of every status event that a
    task of the session emits afterwards, whatever else happens. *)
Theorem connected_socket_receives acts0 sid acts :
  let w0 := run acts0 initial_world in
  let sock := (on_connection sid w0).1 in
  let w1 := (on_connection sid w0).2 in
  let w := run acts w1 in
  SocketDisconnect sock ∉ acts →
  sockets w !! sock = Some sid ∧ sock ∈ room_members sid w ∧
  ∃ new, trace w = (new ++ trace w1)%list ∧
         ∀ a rc d, Emit a sid rc d ∈ new → sock ∈ rc.
Proof.
  intros w0 sock w1 w Hnd.
  assert (Hok0 : world_ok w0) by apply run_ok, initial_world_ok.
  assert (Hok1 : world_ok w1) by by apply on_connection_ok.
  assert (Hin1 : sock ∈ room_members sid w1).
  { apply room_members_elem. simpl. eexists. rewrite lookup_insert_eq.
    split; [done|]. apply elem_of_union. left. by apply elem_of_singleton. }
  assert (Hs1 : sockets w1 !! sock = Some sid) by apply lookup_insert_eq.
  clearbody w1 sock. clear w0 Hok0. unfold w. clear w.
  revert w1 Hok1 Hin1 Hs1. induction acts as [|act acts IH]; intros w1 Hok1 Hin1 Hs1.
  { simpl. split; [done|]. split; [done|]. exists []. split; [done|].
    intros a rc d Hin. by apply elem_of_nil in Hin. }
  apply not_elem_of_cons in Hnd as [Hact Hnd]. simpl.
  assert (Hin2 : sock ∈ room_members sid (apply_action act w1)).
  { apply room_members_elem in Hin1 as (members & Hm & Hin1).
    apply room_members_elem.
    destruct (apply_action_rooms act w1) as [E|[(s & -> & E)|(s & -> & E)]]; rewrite E.
    - eauto.
    - destruct (decide (s = sid)) as [->|Hne].
      + rewrite lookup_insert_eq. eexists. split; [done|].
        apply elem_of_union. right. by rewrite Hm.
      + rewrite lookup_insert_ne by done. eauto.
    - rewrite lookup_fmap, Hm. simpl. eexists. split; [done|].
      apply elem_of_difference. split; [done|].
      intros Hs. apply elem_of_singleton in Hs. subst s. by destruct Hact. }
  assert (Hs2 : sockets (apply_action act w1) !! sock = Some sid).
  { by apply (ev_sockets _ _ (apply_action_evolves act w1 Hok1)). }
  destruct (IH Hnd _ (apply_action_ok act w1 Hok1) Hin2 Hs2)
    as (Hs & Hin & new & Htr & Hnew).
  split; [done|]. split; [done|].
  destruct (apply_action_recipients act w1 Hok1) as (new1 & Htr1 & Hnew1).
  exists (new ++ new1)%list. split; [by rewrite Htr, Htr1, app_assoc|].
  intros a rc d Hemit. apply elem_of_app in Hemit as [Hemit|Hemit]; [by eapply Hnew|].
  by rewrite (Hnew1 _ _ _ _ Hemit).
Qed.

Lemma connected_socket_receives_witness :
  (SocketDisconnect
     (on_connection Example.session1
        (run [PostStartTask Example.session1 (Example.body "1000" "1") 0]
           initial_world)).1
     ∉ [TaskStep 0 Example.sent; TaskStep 0 Example.sent; TaskStep 0 Example.sent]) ∧
  (on_connection Example.session1
     (run [PostStartTask Example.session1 (Example.body "1000" "1") 0]
        initial_world)).1
    ∈ room_members Example.session1
        (run [TaskStep 0 Example.sent; TaskStep 0 Example.sent; TaskStep 0 Example.sent]
           (on_connection Example.session1
              (run [PostStartTask Example.session1 (Example.body "1000" "1") 0]
                 initial_world)).2).
Proof.
  assert (H : SocketDisconnect
                (on_connection Example.session1
                   (run [PostStartTask Example.session1 (Example.body "1000" "1") 0]
                      initial_world)).1
              ∉ [TaskStep 0 Example.sent; TaskStep 0 Example.sent;
                 TaskStep 0 Example.sent]).
  { intros Hin. repeat (apply elem_of_cons in Hin as [Hin|Hin]; [discriminate|]).
    by apply elem_of_nil in Hin. }
  split; [exact H|].
  exact (proj1 (proj2 (connected_socket_receives
    [PostStartTask Example.session1 (Example.body "1000" "1") 0] Example.session1
    [TaskStep 0 Example.sent; TaskStep 0 Example.sent; TaskStep 0 Example.sent] H))).
Defined.

Lemma getSessionTasks_reports_running_tasks_witness :
  sockets (Example.looping "1") !! 0 = Some Example.session1 ∧
  length (omap (report_of (Example.looping "1"))
            (listed Example.session1 (Example.looping "1"))) = 1 ∧
  on_getSessionTasks 0 (Example.looping "1") =
    upd_trace
      (fun tr => rev (omap (report_of (Example.looping "1"))
                        (listed Example.session1 (Example.looping "1"))) ++ tr)%list
      (Example.looping "1").
Proof.
  assert (H : sockets (Example.looping "1") !! 0 = Some Example.session1)
    by (vm_compute; reflexivity).
  split; [exact H|]. split; [vm_compute; reflexivity|].
  exact (proj1 (getSessionTasks_reports_running_tasks (Example.looping_acts "1") 0
                  Example.session1 H)).
Defined.

(** ** The names of uploaded files *)

Lemma pretty_N_char_digit x : Ascii.eqb (pretty_N_char x) "-" = false.
Proof.
  destruct x as [|p]; [done|].
  do 4 (try (destruct p as [p|p|]; try done)).
Qed.

Lemma pretty_N_go_digits x s :
  JsString.mem "-" s = false → JsString.mem "-" (pretty_N_go x s) = false.
Proof.
  revert s. induction (N.lt_wf_0 x) as [x _ IH]; intros s Hs.
  destruct (decide (x = 0)%N) as [->|Hx]; [by rewrite pretty_N_go_0|].
  rewrite pretty_N_go_step by lia. apply IH.
  - apply N.div_lt; lia.
  - simpl. by rewrite pretty_N_char_digit.
Qed.

Lemma pretty_N_digits (x : N) : JsString.mem "-" (pretty x) = false.
Proof.
  unfold pretty, pretty_N. destruct (decide (x = 0)%N); [done|].
  by apply pretty_N_go_digits.
Qed.

(** Two strings that agree after a first '-' agree before it. *)
Lemma append_dash_inj p1 p2 s1 s2 :
  JsString.mem "-" p1 = false → JsString.mem "-" p2 = false →
  p1 +:+ String "-" s1 = p2 +:+ String "-" s2 → p1 = p2 ∧ s1 = s2.
Proof.
  revert p2. induction p1 as [|c p1 IH]; intros [|d p2]; simpl; intros H1 H2 E.
  - by injection E as ->.
  - injection E as <- _. by rewrite Ascii.eqb_refl in H2.
  - injection E as -> _. by rewrite Ascii.eqb_refl in H1.
  - injection E as -> E. apply orb_false_iff in H1 as [_ H1].
    apply orb_false_iff in H2 as [_ H2]. destruct (IH p2 H1 H2 E) as [-> ->]. done.
Qed.

Lemma upload_filename_prefix now1 name1 now2 name2 :
  filename now1 name1 = filename now2 name2 →
  now1 = now2 ∧ name1 = name2.
Proof.
  unfold filename. intros E.
  destruct (append_dash_inj _ _ _ _ (pretty_N_digits now1) (pretty_N_digits now2) E)
    as [Hp ->].
  split; [|done]. by apply (inj pretty).
Qed.

(** X25. The two rules of the upload middleware. A file is accepted exactly
    when its MIME type is [text/plain], and refused with an error
    otherwise. The name under which an upload is stored tells its time and
    its original name: two uploads get the same name only when they arrive
    in the same millisecond with the same original name. *)
Theorem upload_rules :
  (∀ mimetype,
     (fileFilter mimetype = inr true ↔ mimetype = "text/plain") ∧
     (mimetype ≠ "text/plain" → fileFilter mimetype = inl "Only .txt files allowed!")) ∧
  (∀ now1 name1 now2 name2,
     filename now1 name1 = filename now2 name2 ↔
     now1 = now2 ∧ name1 = name2) ∧
  filename 1700000000000 "messages.txt" = "1700000000000-messages.txt".
Proof.
  split; [|split; [|by vm_compute]].
  - intros mimetype. unfold fileFilter.
    destruct (String.eqb mimetype "text/plain") eqn:E.
    + apply String.eqb_eq in E. by split.
    + apply String.eqb_neq in E. by split.
  - intros now1 name1 now2 name2. split; [apply upload_filename_prefix|].
    by intros [-> ->].
Qed.

(** ** The event of a message that was sent *)

Lemma substring_length n s :
  String.length (String.substring 0 n s) = Nat.min n (String.length s).
Proof.
  revert s. induction n as [|n IH]; intros [|c s]; simpl; try done.
  by rewrite IH.
Qed.

Lemma substring_all n s :
  (String.length s ≤ n)%nat → String.substring 0 n s = s.
Proof.
  revert s. induction n as [|n IH]; intros [|c s]; simpl; try done; try lia.
  intros H. rewrite IH; [done|lia].
Qed.

Lemma append_length s1 s2 :
  String.length (s1 +:+ s2) = (String.length s1 + String.length s2)%nat.
Proof. induction s1 as [|c s1 IH]; simpl; [done|]. by rewrite IH. Qed.

Lemma append_assoc s1 s2 s3 : (s1 +:+ s2) +:+ s3 = s1 +:+ (s2 +:+ s3).
Proof.
  induction s1 as [|c s1 IH]; [done|].
  change (String c ((s1 +:+ s2) +:+ s3) = String c (s1 +:+ (s2 +:+ s3))).
  by rewrite IH.
Qed.

Lemma append_empty_r s : s +:+ EmptyString = s.
Proof.
  induction s as [|c s IH]; [done|].
  change (String c (s +:+ EmptyString) = String c s). by rewrite IH.
Qed.

(** X26. An iteration of the send loop that succeeds types the whole
    message, with the prefix of the configuration when there is one, and
    then emits one "active" event that carries the new count and at most
    the first 50 characters of the message without the prefix, with three
    dots when it is longer; it then waits for the configured delay. *)
Theorem sent_event_shows_preview a o w t m :
  heap w !! a = Some t → phase t = InLoop → isRunning t = true →
  messages t !! currentIndex t = Some m → attempt o = Sent →
  ∃ d, trace (task_step a o w).2 =
         Wait a (JsNumber.times1000 (cfg_delay (config t)))
         :: Emit a (sessionId t) (room_members (sessionId t) w) d
         :: Submit a (final_message t m) :: trace w ∧
       ev_status d = "active" ∧
       ev_message d =
         "Message " +:+ pretty (totalSent t + 1) +:+ " sent. Current: "
         +:+ JsString.dquote +:+ preview m +:+ JsString.dquote ∧
       (String.length (preview m) ≤ 53)%nat ∧
       ((String.length m ≤ 50)%nat → preview m = m) ∧
       ((50 < String.length m)%nat → preview m = String.substring 0 50 m +:+ "...").
Proof.
  intros Ht Hp Hr Hm Ho. rewrite (task_step_in_loop a o w t Ht Hp).
  unfold sendMessages_step. mrun. rewrite Hr.
  unfold send_try, read_message, send_message, send_catch, send_failed. mrun. rewrite Hm. mrun.
  rewrite type_and_send_outcome, Ho. mrun.
  eexists. split; [reflexivity|]. split; [done|].
  split; [simpl; unfold preview; by rewrite append_assoc|].
  unfold preview. split_and!.
  - rewrite append_length, substring_length.
    pose proof (Nat.le_min_l 50 (String.length m)) as Hmin.
    destruct (50 <? String.length m)%nat; cbn [String.length]; lia.
  - intros Hle. rewrite (proj2 (Nat.ltb_ge 50 (String.length m))) by lia.
    by rewrite append_empty_r, substring_all.
  - intros Hlt. by rewrite (proj2 (Nat.ltb_lt 50 (String.length m))).
Qed.

Lemma sent_event_shows_preview_witness :
  (∃ t, heap (Example.looping "1") !! 0 = Some t ∧ phase t = InLoop ∧
        isRunning t = true ∧ messages t !! currentIndex t = Some "hi") ∧
  attempt Example.sent = Sent ∧
  ∃ d, head (emitted 0 (trace (task_step 0 Example.sent (Example.looping "1")).2))
         = Some d ∧ ev_status d = "active".
Proof.
  assert (Hw : ∃ t, heap (Example.looping "1") !! 0 = Some t ∧ phase t = InLoop ∧
                    isRunning t = true ∧ messages t !! currentIndex t = Some "hi").
  { eexists. split; [vm_compute; reflexivity|]. repeat split; vm_compute; reflexivity. }
  assert (Ho : attempt Example.sent = Sent) by (vm_compute; reflexivity).
  split; [exact Hw|]. split; [exact Ho|].
  destruct Hw as (t & Ht & Hp & Hr & Hm).
  destruct (sent_event_shows_preview 0 Example.sent _ t "hi" Ht Hp Hr Hm Ho)
    as (d & Htr & Hst & _).
  exists d. split; [|exact Hst]. rewrite Htr. simpl. reflexivity.
Defined.
